(** * The follow graph of the user controller

    A shallow embedding of [controllers/userController.js] (the six exported
    controllers, from [createUser] to [getCommonFollowers]) over the schema of
    [models/User.js].  The MongoDB collection is an ordered list of user
    documents; every controller is a computation in a small state-and-exception
    monad over that collection, so that a [throw] after a completed write keeps
    the write, exactly as the [try]/[catch] blocks of the controllers do.

    The identifiers of a request are strings, the [_id] of a document and the
    [followId] and [followingId] of its entries are ObjectIds: the model casts
    where Mongoose or the controller casts, and writes an ObjectId as a string
    where the controller calls [toString()].  [username.length] is counted in
    UTF-16 code units, and [$dateToString] follows its format.

    The bookkeeping fields that the schema option [timestamps] adds
    ([createdAt], [updatedAt]) are read by no controller and are left out. *)

From Stdlib Require Import String Ascii List ZArith NArith Bool Arith Lia.
From Stdlib Require Import RelationClasses Sorting.Sorted Structures.OrdersEx.
Import ListNotations.

Set Implicit Arguments.

(** ** Data model ([models/User.js]) *)

(** An ObjectId is its 96-bit value.  A string of the request (held as its
    UTF-8 bytes) is not an ObjectId: Mongoose casts it, by the schema, where
    a query or an update uses it.  A [Date] is a number of milliseconds since
    the epoch. *)
Definition ObjectId : Type := N.
Definition Date : Type := Z.

(** [followers: [{ followId, date }]] *)
Module FollowerEntry.
Record t : Type := mk { followId : ObjectId; date : Date }.
End FollowerEntry.

(** [followings: [{ followingId, date }]] *)
Module FollowingEntry.
Record t : Type := mk { followingId : ObjectId; date : Date }.
End FollowingEntry.

Record User : Type := mkUser {
  _id : ObjectId;
  username : string;
  followers : list FollowerEntry.t;
  followings : list FollowingEntry.t
}.

(** The collection, in its natural (insertion) order. *)
Definition Store : Type := list User.

(** The projection ['username'] of [User.find]: [{ _id, username }]. *)
Record UserView : Type := mkView { view_id : ObjectId; view_username : string }.

(** One document of the daily histogram: [{ date, count }]. *)
Record DailyCount : Type := mkDaily { date : string; count : nat }.

(** One document of the listing of [getAllUsers]. *)
Record UserDetails : Type := mkDetails {
  details_id : ObjectId;
  details_username : string;
  followersDetails : list UserView;
  followingsDetails : list UserView
}.

(** ** What the platform provides *)

(** The strings of 24 hexadecimal digits, in either case of the letters. *)
Definition is_hex_digit (c : ascii) : bool :=
  let n := nat_of_ascii c in
  ((48 <=? n) && (n <=? 57)) || ((97 <=? n) && (n <=? 102))
  || ((65 <=? n) && (n <=? 70)).

Definition hex24 (s : string) : bool :=
  (String.length s =? 24) && forallb is_hex_digit (list_ascii_of_string s).

(** [mongoose.isValidObjectId] is not code of this repository; the
    controllers are parameterised by it.  A string that passes is one that
    the driver casts to an ObjectId: 24 hexadecimal digits. *)
Class Mongo : Type := {
  isValidObjectId : string -> bool;
  isValidObjectId_hex : forall s, isValidObjectId s = true -> hex24 s = true
}.

(** *** Identifiers as strings

    The cast of a string to an ObjectId reads it as hexadecimal digits, in
    either case of the letters; [toString()] writes the 24 digits of an
    ObjectId, in lower case. *)

Definition nibble (c : ascii) : N :=
  let n := N_of_ascii c in
  if ((48 <=? n) && (n <=? 57))%N then (n - 48)%N
  else if ((97 <=? n) && (n <=? 102))%N then (n - 87)%N
  else if ((65 <=? n) && (n <=? 70))%N then (n - 55)%N
  else 0%N.

Fixpoint parse_hex (acc : N) (s : string) : N :=
  match s with
  | EmptyString => acc
  | String c rest => parse_hex (acc * 16 + nibble c)%N rest
  end.

(** The cast of [_id: userId], of [followingId: followId], of
    [createFromHexString(userId)] and of [findById(userId)]. *)
Definition castObjectId (s : string) : ObjectId := parse_hex 0%N s.

Definition hex_char (d : N) : ascii :=
  if (d <? 10)%N then ascii_of_N (48 + d) else ascii_of_N (87 + d).

Fixpoint hex_digits (k : nat) (n : N) (tail : string) : string :=
  match k with
  | O => tail
  | S k' => hex_digits k' (n / 16)%N (String (hex_char (n mod 16)%N) tail)
  end.

(** [toString()]: 24 digits for a value of 96 bits (and as many as it takes
    for a larger number, of which the collection holds none). *)
Definition toString (o : ObjectId) : string :=
  hex_digits (Nat.max 24 (N.to_nat (N.log2 o / 4 + 1))) o EmptyString.

(** *** Lengths of strings

    [s.length] counts UTF-16 code units: one for each character of one to
    three UTF-8 bytes, two for each character of four. *)
Definition utf16_units (c : ascii) : nat :=
  let n := nat_of_ascii c in
  if n <? 128 then 1 else if n <? 192 then 0 else if n <? 240 then 1 else 2.

Fixpoint utf16_length (s : string) : nat :=
  match s with
  | EmptyString => 0
  | String c rest => utf16_units c + utf16_length rest
  end.

(** *** Dates as strings

    The server's [$dateToString], without a [timezone]: the parts of the
    date in UTC, laid out by the format. *)

Definition digit (n : Z) : ascii := ascii_of_nat (48 + Z.to_nat (n mod 10)).

Definition pad2 (n : Z) : string :=
  String (digit (n / 10)) (String (digit n) EmptyString).

Definition pad3 (n : Z) : string := String (digit (n / 100)) (pad2 n).

Definition pad4 (n : Z) : string := String (digit (n / 1000)) (pad3 n).

(** The civil date (year, month, day) of a day number counted from
    1970-01-01, in the proleptic Gregorian calendar. *)
Definition civil_from_days (days : Z) : Z * Z * Z :=
  let z := (days + 719468)%Z in
  let era := (z / 146097)%Z in
  let doe := (z - era * 146097)%Z in
  let yoe := ((doe - doe / 1460 + doe / 36524 - doe / 146096) / 365)%Z in
  let doy := (doe - (365 * yoe + yoe / 4 - yoe / 100))%Z in
  let mp := ((5 * doy + 2) / 153)%Z in
  let d := (doy - (153 * mp + 2) / 5 + 1)%Z in
  let m := (if mp <? 10 then mp + 3 else mp - 9)%Z in
  let y := (yoe + era * 400 + (if m <=? 2 then 1 else 0))%Z in
  (y, m, d).

(** The day number, in UTC, of a date. *)
Definition utc_day_number (date : Date) : Z := (date / 86400000)%Z.

(** One specifier of a format: [%Y], [%m], [%d], [%H], [%M], [%S], [%L]
    and [%%]; the pipeline of the controller uses the first three. *)
Definition date_part (specifier : ascii) (date : Date) : string :=
  let '(y, m, d) := civil_from_days (utc_day_number date) in
  let ms := (date mod 86400000)%Z in
  if Ascii.eqb specifier "Y" then pad4 y
  else if Ascii.eqb specifier "m" then pad2 m
  else if Ascii.eqb specifier "d" then pad2 d
  else if Ascii.eqb specifier "H" then pad2 (ms / 3600000)
  else if Ascii.eqb specifier "M" then pad2 (ms / 60000 mod 60)
  else if Ascii.eqb specifier "S" then pad2 (ms / 1000 mod 60)
  else if Ascii.eqb specifier "L" then pad3 (ms mod 1000)
  else if Ascii.eqb specifier "%" then String "%" EmptyString
  else EmptyString.

(** [{ $dateToString: { format, date } }] *)
Fixpoint dateToString (format : string) (date : Date) : string :=
  match format with
  | EmptyString => EmptyString
  | String c rest =>
      if Ascii.eqb c "%" then
        match rest with
        | EmptyString => EmptyString
        | String specifier rest' =>
            (date_part specifier date ++ dateToString rest' date)%string
        end
      else String c (dateToString rest date)
  end.

(** ** Responses ([utils/HandleResponse.js], [utils/constants.js]) *)

(** The keys of [UserResponseMessages] that the controllers use. *)
Inductive UserResponseMessages : Type :=
| ERROR_USER_NAME
| ERROR_EXIST_USER
| CREATED
| ALL_USER
| ERROR_VALID_ID
| ERROR_IDS_SAME
| ERROR_UPDATE_FOLLOWING
| ERROR_UPDATE_FOLLOWERS
| UPDATE_FOLLOW
| ERROR_UPDATE_UNFOLLOWING
| ERROR_UPDATE_UNFOLLOWERS
| UPDATE_UNFOLLOW
| SHOW_FOLLOWERS
| COMMON_FOLLOWERS
| NOT_FOUND.

Record SuccessResponse (A : Type) : Type := mkResponse {
  status : Z;
  message : UserResponseMessages;
  success : bool;
  user : option A
}.

(** [getSuccessResponse(status, message, user)]: the [user] field is set only
    when a payload is passed (an array, even empty, is a payload). *)
Definition getSuccessResponse {A : Type} (status : Z)
  (message : UserResponseMessages) (user : option A) : SuccessResponse A :=
  {| status := status; message := message; success := true; user := user |}.

(** [errorHandler]: an error thrown by a controller carries no status of its
    own, and is answered with status 400 and its message. *)
Record ErrorResponse : Type := mkError {
  error_status : Z;
  error_message : UserResponseMessages;
  error_success : bool
}.

Definition errorHandler (error : UserResponseMessages) : ErrorResponse :=
  {| error_status := 400; error_message := error; error_success := false |}.

(** What a controller hands back: [res.status(code).json(body)], or
    [next(err)] with the message of the error it caught. *)
Inductive Reply (A : Type) : Type :=
| Json (code : Z) (body : SuccessResponse A)
| Next (err : UserResponseMessages).

Arguments Next {A} err.

(** ** The monad of the controllers *)

Inductive Completion (A : Type) : Type :=
| Normal (a : A)
| Thrown (err : UserResponseMessages).

Arguments Thrown {A} err.

Definition Db (A : Type) : Type := Store -> Store * Completion A.

Definition ret {A : Type} (a : A) : Db A := fun st => (st, Normal a).

Definition throw {A : Type} (err : UserResponseMessages) : Db A :=
  fun st => (st, Thrown err).

Definition bind {A B : Type} (c : Db A) (k : A -> Db B) : Db B :=
  fun st =>
    match c st with
    | (st', Normal a) => k a st'
    | (st', Thrown err) => (st', Thrown err)
    end.

Notation "x <- c ;; k" := (bind c (fun x => k))
  (at level 61, c at next level, right associativity).
Notation "c ;;; k" := (bind c (fun _ => k))
  (at level 61, right associativity).

(** [!x] for the result of a query: [null] is falsy, a document truthy. *)
Definition is_null {A : Type} (x : option A) : bool :=
  match x with
  | None => true
  | Some _ => false
  end.

(** [if (cond) throw new Error(message)] *)
Definition throw_if (cond : bool) (err : UserResponseMessages) : Db unit :=
  if cond then throw err else ret tt.

(** [try { ... } catch (err) { next(err) }] *)
Definition try_catch {A : Type} (body : Db (Reply A)) (st : Store)
  : Store * Reply A :=
  match body st with
  | (st', Normal r) => (st', r)
  | (st', Thrown err) => (st', Next err)
  end.

(** ** The model's queries *)

(** [User.findOneAndUpdate(filter, update, { new: true })]: the first document
    that matches is replaced by its update, which is returned; [null] when no
    document matches. *)
Fixpoint findOneAndUpdate_list (filter : User -> bool) (update : User -> User)
  (st : Store) : Store * option User :=
  match st with
  | [] => ([], None)
  | x :: rest =>
      if filter x then (update x :: rest, Some (update x))
      else
        let (rest', r) := findOneAndUpdate_list filter update rest in
        (x :: rest', r)
  end.

Definition findOneAndUpdate (filter : User -> bool) (update : User -> User)
  : Db (option User) :=
  fun st =>
    let (st', r) := findOneAndUpdate_list filter update st in (st', Normal r).

(** [User.findOne(filter)] *)
Definition findOne (filter : User -> bool) : Db (option User) :=
  fun st => (st, Normal (find filter st)).

(** [{ _id: id }] *)
Definition id_is (id : ObjectId) (x : User) : bool := N.eqb (_id x) id.

(** [User.findById(id, 'followers')], the identifier already cast; the
    controller reads only [followers] of the document it gets. *)
Definition findById (id : ObjectId) : Db (option User) :=
  findOne (id_is id).

(** The [{ _id, username }] view of a document. *)
Definition view_of (x : User) : UserView := mkView (_id x) (username x).

(** [User.find(filter, 'username')] *)
Definition find_username (filter : User -> bool) : Db (list UserView) :=
  fun st => (st, Normal (map view_of (List.filter filter st))).

(** [User.create({ username })]: the driver gives the document its [_id];
    the arrays of the schema start empty. *)
Definition create (newId : ObjectId) (username : string) : Db User :=
  fun st =>
    let doc := mkUser newId username [] [] in (st ++ [doc], Normal doc).

(** [User.aggregate(pipeline)] reads the collection through the pipeline. *)
Definition aggregate {A : Type} (pipeline : Store -> list A) : Db (list A) :=
  fun st => (st, Normal (pipeline st)).

(** *** Filters and update operators *)

(** ['followings.followingId': id] holds when some element of the array has
    that [followingId]; [{ $ne: id }] is its negation. *)
Definition has_following (id : ObjectId) (x : User) : bool :=
  existsb (fun e => N.eqb (FollowingEntry.followingId e) id)
          (followings x).

Definition has_follower (id : ObjectId) (x : User) : bool :=
  existsb (fun e => N.eqb (FollowerEntry.followId e) id) (followers x).

(** [{ _id: userId, 'followings.followingId': { $ne: followId } }] *)
Definition lacks_following (userId followId : ObjectId) (x : User) : bool :=
  N.eqb (_id x) userId && negb (has_following followId x).

(** [{ _id: followId, 'followers.followId': { $ne: userId } }] *)
Definition lacks_follower (followId userId : ObjectId) (x : User) : bool :=
  N.eqb (_id x) followId && negb (has_follower userId x).

(** [{ _id: userId, 'followings.followingId': unfollowId }] *)
Definition holds_following (userId unfollowId : ObjectId) (x : User) : bool :=
  N.eqb (_id x) userId && has_following unfollowId x.

(** [{ _id: unfollowId, 'followers.followId': userId }] *)
Definition holds_follower (unfollowId userId : ObjectId) (x : User) : bool :=
  N.eqb (_id x) unfollowId && has_follower userId x.

(** The filter [{ username }] of [createUser]. *)
Definition username_is (name : string) (x : User) : bool :=
  String.eqb (username x) name.

(** [{ $push: { followings: e } }] *)
Definition push_followings (e : FollowingEntry.t) (x : User) : User :=
  mkUser (_id x) (username x) (followers x) (followings x ++ [e]).

(** [{ $push: { followers: e } }] *)
Definition push_followers (e : FollowerEntry.t) (x : User) : User :=
  mkUser (_id x) (username x) (followers x ++ [e]) (followings x).

(** [{ $pull: { followings: { followingId: id } } }] *)
Definition pull_followings (id : ObjectId) (x : User) : User :=
  mkUser (_id x) (username x) (followers x)
    (List.filter
       (fun e => negb (N.eqb (FollowingEntry.followingId e) id))
       (followings x)).

(** [{ $pull: { followers: { followId: id } } }] *)
Definition pull_followers (id : ObjectId) (x : User) : User :=
  mkUser (_id x) (username x)
    (List.filter (fun e => negb (N.eqb (FollowerEntry.followId e) id))
       (followers x))
    (followings x).

(** *** The stages of the pipelines *)

(** [$lookup] from [users] with the pipeline
    [$match: { $expr: { $in: ['$_id', ids] } }],
    [$project: { _id: 1, username: 1 }]. *)
Definition lookup_users (ids : list ObjectId) (st : Store) : list UserView :=
  map view_of (List.filter (fun x => existsb (N.eqb (_id x)) ids) st).

(** [{ $match: { _id: id } }] *)
Definition match_id (id : ObjectId) (st : Store) : list User :=
  List.filter (id_is id) st.

(** [{ $unwind: '$followers' }]: one document per element of the array. *)
Definition unwind_followers (docs : list User) : list FollowerEntry.t :=
  flat_map followers docs.

(** [$group] with [count: { $sum: 1 }]: a document joins the group of its key,
    or opens a group of its own. *)
Fixpoint add_to_group (key : string) (groups : list (string * nat))
  : list (string * nat) :=
  match groups with
  | [] => [(key, 1)]
  | (k, c) :: rest =>
      if String.eqb k key then (k, S c) :: rest
      else (k, c) :: add_to_group key rest
  end.

Definition group_count (keys : list string) : list (string * nat) :=
  fold_left (fun groups key => add_to_group key groups) keys [].

(** [{ $sort: { '_id.date': 1 } }]: strings compare byte by byte. *)
Definition key_leb (a b : string * nat) : bool :=
  match String_as_OT.compare (fst a) (fst b) with
  | Gt => false
  | _ => true
  end.

Fixpoint sort_insert (g : string * nat) (sorted : list (string * nat))
  : list (string * nat) :=
  match sorted with
  | [] => [g]
  | h :: rest => if key_leb g h then g :: h :: rest
                 else h :: sort_insert g rest
  end.

Definition sort_by_date (groups : list (string * nat))
  : list (string * nat) :=
  fold_right sort_insert [] groups.

(** [{ $project: { date: '$_id.date', count: 1, _id: 0 } }] *)
Definition project_daily (groups : list (string * nat)) : list DailyCount :=
  map (fun g => mkDaily (fst g) (snd g)) groups.

(** ** The controllers ([controllers/userController.js]) *)

Section Controllers.

Context {platform : Mongo}.

(** [createUser]; [newId] is the identifier the driver generates for the
    document. *)
Definition createUser (newId : ObjectId) (username : string)
  : Store -> Store * Reply User :=
  try_catch (
    throw_if (utf16_length username <? 3) ERROR_USER_NAME ;;;
    existUser <- findOne (username_is username) ;;
    throw_if (negb (is_null existUser)) ERROR_EXIST_USER ;;;
    user <- create newId username ;;
    ret (Json 201 (getSuccessResponse 201 CREATED (Some user)))).

(** The pipeline of [getAllUsers]: the two lookups and the projection. *)
Definition allUsersPipeline (st : Store) : list UserDetails :=
  map
    (fun x =>
       mkDetails (_id x) (username x)
         (lookup_users (map FollowerEntry.followId (followers x)) st)
         (lookup_users (map FollowingEntry.followingId (followings x)) st))
    st.

(** [getAllUsers] *)
Definition getAllUsers : Store -> Store * Reply (list UserDetails) :=
  try_catch (
    users <- aggregate allUsersPipeline ;;
    ret (Json 200 (getSuccessResponse 200 ALL_USER (Some users)))).

(** [followUser]; [now1] and [now2] are the two readings [new Date()] of the
    clock, one per update.  The guards read the strings of the request; the
    filters and the pushed entries hold their casts. *)
Definition followUser (now1 now2 : Date) (userId followId : string)
  : Store -> Store * Reply unit :=
  try_catch (
    throw_if (negb (isValidObjectId userId) || negb (isValidObjectId followId))
      ERROR_VALID_ID ;;;
    throw_if (String.eqb userId followId) ERROR_IDS_SAME ;;;
    userUpdateResult <-
      findOneAndUpdate
        (lacks_following (castObjectId userId) (castObjectId followId))
        (push_followings
           (FollowingEntry.mk (castObjectId followId) now1)) ;;
    throw_if (is_null userUpdateResult)
      ERROR_UPDATE_FOLLOWING ;;;
    followUserUpdateResult <-
      findOneAndUpdate
        (lacks_follower (castObjectId followId) (castObjectId userId))
        (push_followers (FollowerEntry.mk (castObjectId userId) now2)) ;;
    throw_if (is_null followUserUpdateResult)
      ERROR_UPDATE_FOLLOWERS ;;;
    ret (Json 200 (getSuccessResponse 200 UPDATE_FOLLOW None))).

(** [unfollowUser]: the guards of [followUser], then the two conditional
    pulls. *)
Definition unfollowUser (userId unfollowId : string)
  : Store -> Store * Reply unit :=
  try_catch (
    throw_if
      (negb (isValidObjectId userId) || negb (isValidObjectId unfollowId))
      ERROR_VALID_ID ;;;
    throw_if (String.eqb userId unfollowId) ERROR_IDS_SAME ;;;
    userUpdateResult <-
      findOneAndUpdate
        (holds_following (castObjectId userId) (castObjectId unfollowId))
        (pull_followings (castObjectId unfollowId)) ;;
    throw_if (is_null userUpdateResult)
      ERROR_UPDATE_UNFOLLOWING ;;;
    unfollowUserUpdateResult <-
      findOneAndUpdate
        (holds_follower (castObjectId unfollowId) (castObjectId userId))
        (pull_followers (castObjectId userId)) ;;
    throw_if (is_null unfollowUserUpdateResult)
      ERROR_UPDATE_UNFOLLOWERS ;;;
    ret (Json 200 (getSuccessResponse 200 UPDATE_UNFOLLOW None))).

(** The pipeline of [getFollowersCountDaily], from
    [$match: { _id: createFromHexString(userId) }] to [$project]. *)
Definition dailyPipeline (userId : string) (st : Store) : list DailyCount :=
  project_daily
    (sort_by_date
       (group_count
          (map (fun e => dateToString "%Y-%m-%d" (FollowerEntry.date e))
               (unwind_followers (match_id (castObjectId userId) st))))).

(** [getFollowersCountDaily]: there is no lookup of the user, only the
    aggregation. *)
Definition getFollowersCountDaily (userId : string)
  : Store -> Store * Reply (list DailyCount) :=
  try_catch (
    throw_if (negb (isValidObjectId userId)) ERROR_VALID_ID ;;;
    dailyCounts <- aggregate (dailyPipeline userId) ;;
    ret (Json 200 (getSuccessResponse 200 SHOW_FOLLOWERS (Some dailyCounts)))).

(** [getCommonFollowers]; [followers1] and [followers2] are the lists of the
    [followId.toString()], [includes] compares them as strings, and
    [{ _id: { $in: commonFollowers } }], which casts them back, is the filter
    of the last query. *)
Definition getCommonFollowers (userId1 userId2 : string)
  : Store -> Store * Reply (list UserView) :=
  try_catch (
    throw_if
      (negb (isValidObjectId userId1) || negb (isValidObjectId userId2))
      ERROR_VALID_ID ;;;
    throw_if (String.eqb userId1 userId2) ERROR_IDS_SAME ;;;
    user1 <- findById (castObjectId userId1) ;;
    user2 <- findById (castObjectId userId2) ;;
    match user1, user2 with
    | Some user1, Some user2 =>
        let followers1 :=
          map (fun f => toString (FollowerEntry.followId f))
              (followers user1) in
        let followers2 :=
          map (fun f => toString (FollowerEntry.followId f))
              (followers user2) in
        let commonFollowers :=
          List.filter (fun f => existsb (String.eqb f) followers2) followers1 in
        commonFollowersDetails <-
          find_username
            (fun x =>
               existsb (fun f => N.eqb (_id x) (castObjectId f))
                       commonFollowers) ;;
        ret (Json 200
               (getSuccessResponse 200 COMMON_FOLLOWERS
                  (Some commonFollowersDetails)))
    | _, _ => throw NOT_FOUND
    end).

End Controllers.

(** ** A concrete guard

    The instance used to run the controllers on examples: every string of
    24 hexadecimal digits passes. *)

Definition hexMongo : Mongo :=
  {| isValidObjectId := hex24; isValidObjectId_hex := fun _ H => H |}.

(** ** Vocabulary of the statements *)

(** The store part of [findOneAndUpdate]: the first match is updated. *)
Fixpoint update_first (filter : User -> bool) (update : User -> User)
  (st : Store) : Store :=
  match st with
  | [] => []
  | x :: rest =>
      if filter x then update x :: rest
      else x :: update_first filter update rest
  end.

(** [e] is an element of the [followings] of a document of [u]. *)
Definition following_entry (st : Store) (u : ObjectId)
  (e : FollowingEntry.t) : Prop :=
  exists x, In x st /\ _id x = u /\ In e (followings x).

(** [e] is an element of the [followers] of a document of [f]. *)
Definition follower_entry (st : Store) (f : ObjectId)
  (e : FollowerEntry.t) : Prop :=
  exists x, In x st /\ _id x = f /\ In e (followers x).

(** The outgoing side of the edge from [u] to [f]. *)
Definition following_edge (st : Store) (u f : ObjectId) : Prop :=
  exists d, following_entry st u (FollowingEntry.mk f d).

(** The incoming side of the edge from [u] to [f]. *)
Definition follower_edge (st : Store) (f u : ObjectId) : Prop :=
  exists d, follower_entry st f (FollowerEntry.mk u d).

(** The edge from [u] to [f] is on the outgoing side only. *)
Definition half_edge (st : Store) (u f : ObjectId) : Prop :=
  following_edge st u f /\ ~ follower_edge st f u.

(** How many elements of [followings] of [x] point to [f]. *)
Definition count_following (f : ObjectId) (x : User) : nat :=
  length
    (List.filter (fun e => N.eqb (FollowingEntry.followingId e) f)
       (followings x)).

Definition follower_ids (x : User) : list ObjectId :=
  map FollowerEntry.followId (followers x).

(** The follower edges of [u]: the elements of [followers] of the documents
    whose [_id] is [u] (one document at most, when [_id] is a key). *)
Fixpoint followers_of (st : Store) (u : ObjectId) : list FollowerEntry.t :=
  match st with
  | [] => []
  | x :: rest =>
      if N.eqb (_id x) u then followers x ++ followers_of rest u
      else followers_of rest u
  end.

(** The UTC calendar date of a timestamp, written [YYYY-MM-DD]. *)
Definition utc_date (date : Date) : string :=
  let '(y, m, d) := civil_from_days (utc_day_number date) in
  (pad4 y ++ "-" ++ pad2 m ++ "-" ++ pad2 d)%string.

(** How many of the edges have the UTC calendar date [d]. *)
Fixpoint edges_on (d : string) (edges : list FollowerEntry.t) : nat :=
  match edges with
  | [] => 0
  | e :: rest =>
      if String.eqb (utc_date (FollowerEntry.date e)) d
      then S (edges_on d rest)
      else edges_on d rest
  end.

(** The dates that [%Y] writes with four digits, from 0000-01-01 to
    9999-12-31. *)
Definition four_digit_year (date : Date) : Prop :=
  (-62167219200000 <= date < 253402300800000)%Z.

(** The Gregorian calendar, day by day: leap years, the lengths of the
    months, and the date that follows a date. *)
Definition leap_year (y : Z) : bool :=
  ((y mod 4 =? 0) && negb (y mod 100 =? 0) || (y mod 400 =? 0))%Z.

Definition days_in_month (y m : Z) : Z :=
  if (m =? 2)%Z then (if leap_year y then 29 else 28)%Z
  else if ((m =? 4) || (m =? 6) || (m =? 9) || (m =? 11))%Z then 30%Z
  else 31%Z.

Definition next_day (date : Z * Z * Z) : Z * Z * Z :=
  let '(y, m, d) := date in
  if (d <? days_in_month y m)%Z then (y, m, (d + 1)%Z)
  else if (m <? 12)%Z then (y, (m + 1)%Z, 1%Z)
  else ((y + 1)%Z, 1%Z, 1%Z).

Definition valid_date (date : Z * Z * Z) : Prop :=
  let '(y, m, d) := date in
  (1 <= m <= 12 /\ 1 <= d <= days_in_month y m)%Z.

Definition date_eqb (a b : Z * Z * Z) : bool :=
  let '(y, m, d) := a in
  let '(y', m', d') := b in
  ((y =? y') && (m =? m') && (d =? d'))%Z.

(** A date as one number, [yyyymmdd]. *)
Definition date_key (date : Z * Z * Z) : Z :=
  let '(y, m, d) := date in (y * 10000 + m * 100 + d)%Z.

Definition civil_key (days : Z) : Z := date_key (civil_from_days days).

(** The walk through the cycle of 400 years that starts on 0000-03-01:
    the next day of the cycle, the civil date of the day before, and
    whether the civil date of every day so far was the date that follows
    the date of the day before. *)
Definition cycle_step (s : Z * (Z * Z * Z) * bool) : Z * (Z * Z * Z) * bool :=
  let '(doe, previous, ok) := s in
  let today := civil_from_days (doe - 719468) in
  ((doe + 1)%Z, today, ok && date_eqb today (next_day previous)).

Definition cycle_walk (n : N) : Z * (Z * Z * Z) * bool :=
  N.iter n cycle_step (0%Z, (0, 2, 29)%Z, true).

(** How many of the keys are [k]. *)
Definition occurrences (k : string) (keys : list string) : nat :=
  length (List.filter (fun key => String.eqb key k) keys).

(** The total count that the groups give to the key [k]. *)
Definition weight (k : string) (groups : list (string * nat)) : nat :=
  list_sum (map snd (List.filter (fun g => String.eqb (fst g) k) groups)).

(** At most one entry per followee in every document. *)
Definition edge_unique (st : Store) : Prop :=
  forall x f, In x st -> count_following f x <= 1.

(** The collections that the controllers build from the empty one, the
    driver giving every new document an identifier not yet in use. *)
Inductive reachable {platform : Mongo} : Store -> Prop :=
| reach_empty : reachable []
| reach_create (newId : ObjectId) (name : string) (st : Store) :
    reachable st ->
    ~ In newId (map _id st) ->
    reachable (fst (createUser newId name st))
| reach_follow (now1 now2 : Date) (userId followId : string) (st : Store) :
    reachable st ->
    reachable (fst (followUser now1 now2 userId followId st))
| reach_unfollow (userId unfollowId : string) (st : Store) :
    reachable st ->
    reachable (fst (unfollowUser userId unfollowId st)).

(** Every incoming entry has its outgoing counterpart. *)
Definition incoming_has_outgoing (st : Store) : Prop :=
  forall f u, follower_edge st f u -> following_edge st u f.

(** The names of the collection are distinct and of three UTF-16 code
    units at least. *)
Definition usernames_ok (st : Store) : Prop :=
  NoDup (map username st)
  /\ forall x, In x st -> 3 <= utf16_length (username x).

(** The followings of a document, as identifiers. *)
Definition following_ids (x : User) : list ObjectId :=
  map FollowingEntry.followingId (followings x).

(** ** Sample data *)

(** The identifiers as the requests write them. *)
Definition alice_id : string := "64b7f0c2a1b2c3d4e5f60001"%string.
Definition bob_id : string := "64b7f0c2a1b2c3d4e5f60002"%string.
Definition carol_id : string := "64b7f0c2a1b2c3d4e5f60003"%string.
Definition dave_id : string := "64b7f0c2a1b2c3d4e5f60004"%string.

(** Other spellings of the identifiers of alice and of bob. *)
Definition alice_id_upper : string := "64B7F0C2A1B2C3D4E5F60001"%string.
Definition bob_id_upper : string := "64B7F0C2A1B2C3D4E5F60002"%string.

(** The identifiers as the collection holds them. *)
Definition alice_oid : ObjectId := 0x64b7f0c2a1b2c3d4e5f60001%N.
Definition bob_oid : ObjectId := 0x64b7f0c2a1b2c3d4e5f60002%N.
Definition carol_oid : ObjectId := 0x64b7f0c2a1b2c3d4e5f60003%N.
Definition dave_oid : ObjectId := 0x64b7f0c2a1b2c3d4e5f60004%N.

(** 2024-07-20T00:00:00Z and the two days after it. *)
Definition day0 : Date := 1721433600000%Z.
Definition day1 : Date := 1721520000000%Z.
Definition day2 : Date := 1721606400000%Z.

(** Two users and no edge. *)
Definition two_users : Store :=
  [ mkUser alice_oid "alice"%string [] []; mkUser bob_oid "bob"%string [] [] ].

(** bob already lists alice as a follower, alice does not list bob. *)
Definition incoming_only : Store :=
  [ mkUser alice_oid "alice"%string [] [];
    mkUser bob_oid "bob"%string [FollowerEntry.mk alice_oid day0] [] ].

(** [two_users] after alice followed bob, the writes at [day0] and [day1]. *)
Definition two_users_followed : Store :=
  [ mkUser alice_oid "alice"%string [] [FollowingEntry.mk bob_oid day0];
    mkUser bob_oid "bob"%string [FollowerEntry.mk alice_oid day1] [] ].

(** [incoming_only] after the first write of a follow at [day1]. *)
Definition incoming_only_step1 : Store :=
  [ mkUser alice_oid "alice"%string [] [FollowingEntry.mk bob_oid day1];
    mkUser bob_oid "bob"%string [FollowerEntry.mk alice_oid day0] [] ].

(** alice alone. *)
Definition only_alice : Store := [ mkUser alice_oid "alice"%string [] [] ].

(** [only_alice] after the first write of a follow of bob at [day0]. *)
Definition only_alice_step1 : Store :=
  [ mkUser alice_oid "alice"%string [] [FollowingEntry.mk bob_oid day0] ].

(** carol and dave both follow alice and bob; alice also follows bob. *)
Definition alice_doc : User :=
  mkUser alice_oid "alice"%string
    [FollowerEntry.mk carol_oid day0; FollowerEntry.mk dave_oid day1]
    [FollowingEntry.mk bob_oid day2].

Definition bob_doc : User :=
  mkUser bob_oid "bob"%string
    [FollowerEntry.mk dave_oid day1; FollowerEntry.mk alice_oid day2;
     FollowerEntry.mk carol_oid day1]
    [].

Definition carol_doc : User :=
  mkUser carol_oid "carol"%string []
    [FollowingEntry.mk alice_oid day0; FollowingEntry.mk bob_oid day1].

Definition dave_doc : User :=
  mkUser dave_oid "dave"%string []
    [FollowingEntry.mk alice_oid day1; FollowingEntry.mk bob_oid day1].

Definition four_users : Store := [alice_doc; bob_doc; carol_doc; dave_doc].

(** The edge from alice to bob, written twice on each side. *)
Definition doubled_edge : Store :=
  [ mkUser alice_oid "alice"%string []
      [FollowingEntry.mk bob_oid day0; FollowingEntry.mk bob_oid day1];
    mkUser bob_oid "bob"%string
      [FollowerEntry.mk alice_oid day0; FollowerEntry.mk alice_oid day1] [] ].

(** Three users and no edge. *)
Definition three_users : Store :=
  [ mkUser alice_oid "alice"%string [] []; mkUser bob_oid "bob"%string [] [];
    mkUser carol_oid "carol"%string [] [] ].

(** [three_users] after carol followed alice, then bob. *)
Definition three_users_followed : Store :=
  [ mkUser alice_oid "alice"%string [FollowerEntry.mk carol_oid day0] [];
    mkUser bob_oid "bob"%string [FollowerEntry.mk carol_oid day1] [];
    mkUser carol_oid "carol"%string []
      [FollowingEntry.mk alice_oid day0; FollowingEntry.mk bob_oid day1] ].

(** An identifier that no document of the samples has. *)
Definition eve_id : string := "64b7f0c2a1b2c3d4e5f60005"%string.
Definition eve_oid : ObjectId := 0x64b7f0c2a1b2c3d4e5f60005%N.

(** A name of two characters, each of two UTF-8 bytes. *)
Definition short_name : string :=
  String (ascii_of_nat 195) (String (ascii_of_nat 169)
    (String (ascii_of_nat 195) (String (ascii_of_nat 169) EmptyString))).

(** A name of two characters, each of four UTF-8 bytes (U+1F600 twice):
    two code units each. *)
Definition wide_name : string :=
  String (ascii_of_nat 240) (String (ascii_of_nat 159)
    (String (ascii_of_nat 152) (String (ascii_of_nat 128)
      (String (ascii_of_nat 240) (String (ascii_of_nat 159)
        (String (ascii_of_nat 152) (String (ascii_of_nat 128)
          EmptyString))))))).


(** * Properties *)

(** ** Identifiers and strings *)

Lemma nibble_hex_char (d : N) : (d < 16)%N -> nibble (hex_char d) = d.
Proof.
  intros H.
  assert (Hd : In d [0; 1; 2; 3; 4; 5; 6; 7; 8; 9; 10; 11; 12; 13; 14; 15]%N).
  { destruct d as [|p]; [simpl; tauto|].
    do 4 (destruct p as [p|p|]; simpl; try tauto); lia. }
  simpl in Hd.
  repeat (destruct Hd as [<-|Hd]; [reflexivity|]). destruct Hd.
Qed.

(** Reading the [k] digits that [hex_digits] writes gives the [k] low
    digits back. *)
Lemma parse_hex_digits (k : nat) :
  forall (n : N) (tail : string) (acc : N),
    parse_hex acc (hex_digits k n tail)
    = parse_hex (acc * 16 ^ N.of_nat k + n mod 16 ^ N.of_nat k)%N tail.
Proof.
  induction k as [|k IH]; intros n tail acc.
  - simpl. rewrite N.mod_1_r, N.mul_1_r, N.add_0_r. reflexivity.
  - cbn [hex_digits]. rewrite IH. cbn [parse_hex].
    rewrite nibble_hex_char by (apply N.mod_lt; discriminate).
    f_equal. rewrite Nat2N.inj_succ, N.pow_succ_r'.
    rewrite (N.Div0.mod_mul_r n 16 (16 ^ N.of_nat k)). lia.
Qed.

Lemma enough_digits (o : N) : (o < 16 ^ (N.log2 o / 4 + 1))%N.
Proof.
  destruct (N.eq_dec o 0) as [->|Hpos]; [reflexivity|].
  assert (Hlog := N.log2_spec o ltac:(lia)).
  destruct Hlog as [_ Hlt].
  eapply N.lt_le_trans; [exact Hlt|].
  change 16%N with (2 ^ 4)%N. rewrite <- N.pow_mul_r.
  apply N.pow_le_mono_r; [discriminate|].
  pose proof (N.div_mod (N.log2 o) 4 ltac:(discriminate)).
  pose proof (N.mod_lt (N.log2 o) 4 ltac:(discriminate)). lia.
Qed.

(** An ObjectId is read back from its string: casting what [toString()]
    wrote gives the ObjectId. *)
Lemma cast_toString (o : ObjectId) : castObjectId (toString o) = o.
Proof.
  unfold castObjectId, toString. rewrite parse_hex_digits.
  cbn [parse_hex]. rewrite N.mul_0_l, N.add_0_l.
  apply N.mod_small.
  eapply N.lt_le_trans; [apply enough_digits|].
  apply N.pow_le_mono_r; [discriminate|]. lia.
Qed.

Lemma toString_inj (o o' : ObjectId) : toString o = toString o' -> o = o'.
Proof.
  intros H. rewrite <- (cast_toString o), <- (cast_toString o'), H.
  reflexivity.
Qed.

Lemma nibble_lt (c : ascii) : (nibble c < 16)%N.
Proof.
  unfold nibble.
  destruct ((48 <=? N_of_ascii c) && (N_of_ascii c <=? 57))%N eqn:E1.
  - apply andb_prop in E1. destruct E1 as [_ E1]. apply N.leb_le in E1. lia.
  - destruct ((97 <=? N_of_ascii c) && (N_of_ascii c <=? 102))%N eqn:E2.
    + apply andb_prop in E2. destruct E2 as [_ E2]. apply N.leb_le in E2.
      lia.
    + destruct ((65 <=? N_of_ascii c) && (N_of_ascii c <=? 70))%N eqn:E3;
        [|lia].
      apply andb_prop in E3. destruct E3 as [_ E3]. apply N.leb_le in E3.
      lia.
Qed.

Lemma parse_hex_bound (s : string) :
  forall acc,
    (parse_hex acc s < (acc + 1) * 16 ^ N.of_nat (String.length s))%N.
Proof.
  induction s as [|c rest IH]; intros acc; cbn [parse_hex String.length].
  - simpl. lia.
  - eapply N.lt_le_trans; [apply IH|].
    rewrite Nat2N.inj_succ, N.pow_succ_r'.
    pose proof (nibble_lt c) as Hc.
    rewrite N.mul_assoc.
    apply N.mul_le_mono_r. lia.
Qed.

Section ValidIdentifiers.

Context {platform : Mongo}.

(** An identifier that passes the guard casts to a value of 96 bits. *)
Lemma castObjectId_valid (s : string) :
  isValidObjectId s = true -> (castObjectId s < 2 ^ 96)%N.
Proof.
  intros H. apply isValidObjectId_hex in H. unfold hex24 in H.
  apply andb_prop in H. destruct H as [Hlen _]. apply Nat.eqb_eq in Hlen.
  unfold castObjectId.
  eapply N.lt_le_trans; [apply parse_hex_bound|].
  rewrite Hlen. simpl. lia.
Qed.

End ValidIdentifiers.

(** The format of the daily pipeline writes the UTC calendar date. *)
Lemma dateToString_utc_date (date : Date) :
  dateToString "%Y-%m-%d" date = utc_date date.
Proof.
  unfold utc_date. cbn [dateToString Ascii.eqb Bool.eqb].
  unfold date_part. destruct (civil_from_days (utc_day_number date)) as [[y m]
      d].
  reflexivity.
Qed.

(** 24 digits, in lower case, for the identifier of a document. *)
Example toString_alice : toString alice_oid = alice_id.
Proof. reflexivity. Qed.

(** Both spellings of an identifier cast to the same ObjectId. *)
Example cast_either_case :
  castObjectId alice_id = alice_oid /\ castObjectId alice_id_upper = alice_oid.
Proof. split; reflexivity. Qed.

(** Lengths in UTF-16 code units, not in bytes. *)
Example utf16_length_short_name :
  utf16_length short_name = 2 /\ String.length short_name = 4.
Proof. split; reflexivity. Qed.
(** ** The monad and the queries *)

Lemma findOneAndUpdate_list_eq (p : User -> bool) (h : User -> User)
  (st : Store) :
  findOneAndUpdate_list p h st
  = (update_first p h st, option_map h (find p st)).
Proof.
  induction st as [|x rest IH]; simpl; [reflexivity|].
  destruct (p x); [reflexivity|].
  rewrite IH. reflexivity.
Qed.

Lemma is_null_find (p : User -> bool) (h : User -> User) (st : Store) :
  is_null (option_map h (find p st)) = negb (existsb p st).
Proof.
  induction st as [|x rest IH]; simpl; [reflexivity|].
  destruct (p x); simpl; [reflexivity|exact IH].
Qed.

Lemma update_first_none (p : User -> bool) (h : User -> User) (st : Store) :
  existsb p st = false -> update_first p h st = st.
Proof.
  induction st as [|x rest IH]; simpl; [reflexivity|].
  destruct (p x); simpl; [discriminate|].
  intros H. rewrite IH by exact H. reflexivity.
Qed.

Lemma existsb_false_forall {A : Type} (p : A -> bool) (l : list A) :
  existsb p l = false <-> (forall x, In x l -> p x = false).
Proof.
  split.
  - intros H x Hx. destruct (p x) eqn:E; [|reflexivity].
    rewrite <- H. symmetry. apply existsb_exists. exists x. auto.
  - intros H. destruct (existsb p l) eqn:E; [|reflexivity].
    apply existsb_exists in E. destruct E as [x [Hx Hp]].
    rewrite (H x Hx) in Hp. discriminate.
Qed.

(** The document that [update_first] rewrites is in the result. *)
Lemma update_first_hit (p : User -> bool) (h : User -> User) (st : Store) :
  existsb p st = true ->
  exists x, In x st /\ p x = true /\ In (h x) (update_first p h st).
Proof.
  induction st as [|x rest IH]; simpl; [discriminate|].
  destruct (p x) eqn:E; simpl.
  - intros _. exists x. simpl. auto.
  - intros H. destruct (IH H) as [y [Hy [Hp Hin]]].
    exists y. simpl. auto.
Qed.

(** Every document survives [update_first], as itself or updated. *)
Lemma update_first_keeps (p : User -> bool) (h : User -> User) (st : Store)
  (x : User) :
  In x st -> In x (update_first p h st) \/ In (h x) (update_first p h st).
Proof.
  induction st as [|y rest IH]; simpl; [tauto|].
  intros [->|Hx].
  - destruct (p x); simpl; auto.
  - destruct (p y); simpl; [auto|]. destruct (IH Hx); auto.
Qed.

(** Conversely, a document of the result is a document of the store or the
    update of one that matched. *)
Lemma update_first_from (p : User -> bool) (h : User -> User) (st : Store)
  (y : User) :
  In y (update_first p h st) ->
  In y st \/ exists x, In x st /\ p x = true /\ y = h x.
Proof.
  induction st as [|x rest IH]; simpl; [tauto|].
  destruct (p x) eqn:E; simpl.
  - intros [<-|Hy]; [right; exists x|]; auto.
  - intros [<-|Hy]; [auto|].
    destruct (IH Hy) as [H|[z [Hz [Hp ->]]]]; [auto|].
    right. exists z. auto.
Qed.

Lemma update_first_map {B : Type} (g : User -> B) (p : User -> bool)
  (h : User -> User) (st : Store) :
  (forall x, g (h x) = g x) ->
  map g (update_first p h st) = map g st.
Proof.
  intros Hg. induction st as [|x rest IH]; simpl; [reflexivity|].
  destruct (p x); simpl; [rewrite Hg|rewrite IH]; reflexivity.
Qed.

Lemma update_first_existsb (q p : User -> bool) (h : User -> User)
  (st : Store) :
  (forall x, q (h x) = q x) ->
  existsb q (update_first p h st) = existsb q st.
Proof.
  intros Hq. induction st as [|x rest IH]; simpl; [reflexivity|].
  destruct (p x); simpl; [rewrite Hq|rewrite IH]; reflexivity.
Qed.

(** ** The edge mutations, step by step *)

Section EdgeMutations.

Context {platform : Mongo}.

(** [followUser] as the cascade of its guards and its two writes. *)
Lemma followUser_steps (now1 now2 : Date) (userId followId : string)
  (st : Store) :
  followUser now1 now2 userId followId st =
  if negb (isValidObjectId userId) || negb (isValidObjectId followId)
  then (st, Next ERROR_VALID_ID)
  else if String.eqb userId followId then (st, Next ERROR_IDS_SAME)
  else if existsb
            (lacks_following (castObjectId userId) (castObjectId followId))
            st
  then
    let st1 :=
      update_first
        (lacks_following (castObjectId userId) (castObjectId followId))
        (push_followings (FollowingEntry.mk (castObjectId followId) now1))
        st in
    if existsb
         (lacks_follower (castObjectId followId) (castObjectId userId)) st1
    then
      (update_first
         (lacks_follower (castObjectId followId) (castObjectId userId))
         (push_followers (FollowerEntry.mk (castObjectId userId) now2)) st1,
       Json 200 (getSuccessResponse 200 UPDATE_FOLLOW None))
    else (st1, Next ERROR_UPDATE_FOLLOWERS)
  else (st, Next ERROR_UPDATE_FOLLOWING).
Proof.
  unfold followUser, try_catch, bind, throw_if, findOneAndUpdate.
  destruct (negb (isValidObjectId userId) || negb (isValidObjectId followId));
    [reflexivity|].
  destruct (String.eqb userId followId); [reflexivity|].
  cbn [ret throw].
  rewrite findOneAndUpdate_list_eq, is_null_find.
  destruct (existsb
              (lacks_following (castObjectId userId) (castObjectId followId))
              st) eqn:E1; cbn.
  - rewrite findOneAndUpdate_list_eq, is_null_find.
    destruct (existsb
                (lacks_follower (castObjectId followId)
                   (castObjectId userId)) _) eqn:E2; cbn;
      [reflexivity|].
    rewrite (update_first_none _ _ _ E2). reflexivity.
  - rewrite update_first_none by exact E1. reflexivity.
Qed.

(** [unfollowUser], in the same form. *)
Lemma unfollowUser_steps (userId unfollowId : string) (st : Store) :
  unfollowUser userId unfollowId st =
  if negb (isValidObjectId userId) || negb (isValidObjectId unfollowId)
  then (st, Next ERROR_VALID_ID)
  else if String.eqb userId unfollowId then (st, Next ERROR_IDS_SAME)
  else if existsb
            (holds_following (castObjectId userId) (castObjectId unfollowId))
            st
  then
    let st1 :=
      update_first
        (holds_following (castObjectId userId) (castObjectId unfollowId))
        (pull_followings (castObjectId unfollowId)) st in
    if existsb
         (holds_follower (castObjectId unfollowId) (castObjectId userId)) st1
    then
      (update_first
         (holds_follower (castObjectId unfollowId) (castObjectId userId))
         (pull_followers (castObjectId userId)) st1,
       Json 200 (getSuccessResponse 200 UPDATE_UNFOLLOW None))
    else (st1, Next ERROR_UPDATE_UNFOLLOWERS)
  else (st, Next ERROR_UPDATE_UNFOLLOWING).
Proof.
  unfold unfollowUser, try_catch, bind, throw_if, findOneAndUpdate.
  destruct (negb (isValidObjectId userId) || negb (isValidObjectId unfollowId));
    [reflexivity|].
  destruct (String.eqb userId unfollowId); [reflexivity|].
  cbn [ret throw].
  rewrite findOneAndUpdate_list_eq, is_null_find.
  destruct (existsb
              (holds_following (castObjectId userId)
                 (castObjectId unfollowId)) st) eqn:E1; cbn.
  - rewrite findOneAndUpdate_list_eq, is_null_find.
    destruct (existsb
                (holds_follower (castObjectId unfollowId)
                   (castObjectId userId)) _) eqn:E2; cbn;
      [reflexivity|].
    rewrite (update_first_none _ _ _ E2). reflexivity.
  - rewrite update_first_none by exact E1. reflexivity.
Qed.

Lemma valid_guard (a b : string) :
  isValidObjectId a = true -> isValidObjectId b = true ->
  negb (isValidObjectId a) || negb (isValidObjectId b) = false.
Proof. intros -> ->. reflexivity. Qed.

(** The two pushes leave alone what the other filter reads. *)
Lemma lacks_follower_push_followings (f u : ObjectId) (e : FollowingEntry.t)
  (x : User) :
  lacks_follower f u (push_followings e x) = lacks_follower f u x.
Proof. reflexivity. Qed.

Lemma has_following_app (f : ObjectId) (x : User) (e : FollowingEntry.t) :
  has_following f (push_followings e x)
  = has_following f x || N.eqb (FollowingEntry.followingId e) f.
Proof.
  unfold has_following, push_followings; simpl.
  rewrite existsb_app. simpl. rewrite orb_false_r. reflexivity.
Qed.

Lemma has_following_In (f : ObjectId) (x : User) :
  has_following f x = true <->
  exists d, In (FollowingEntry.mk f d) (followings x).
Proof.
  unfold has_following. rewrite existsb_exists. split.
  - intros [[i d] [Hin Heq]]. simpl in Heq.
    apply N.eqb_eq in Heq. subst i. exists d. exact Hin.
  - intros [d Hin]. exists (FollowingEntry.mk f d). split; [exact Hin|].
    apply N.eqb_refl.
Qed.

Lemma has_follower_In (u : ObjectId) (x : User) :
  has_follower u x = true <->
  exists d, In (FollowerEntry.mk u d) (followers x).
Proof.
  unfold has_follower. rewrite existsb_exists. split.
  - intros [[i d] [Hin Heq]]. simpl in Heq.
    apply N.eqb_eq in Heq. subst i. exists d. exact Hin.
  - intros [d Hin]. exists (FollowerEntry.mk u d). split; [exact Hin|].
    apply N.eqb_refl.
Qed.

Lemma following_edge_iff (st : Store) (u f : ObjectId) :
  following_edge st u f <->
  exists x, In x st /\ _id x = u /\ has_following f x = true.
Proof.
  unfold following_edge, following_entry. split.
  - intros [d [x [Hx [Hid Hin]]]]. exists x. repeat split; auto.
    apply has_following_In. exists d. exact Hin.
  - intros [x [Hx [Hid Hf]]]. apply has_following_In in Hf.
    destruct Hf as [d Hd]. exists d, x. auto.
Qed.

Lemma follower_edge_iff (st : Store) (f u : ObjectId) :
  follower_edge st f u <->
  exists x, In x st /\ _id x = f /\ has_follower u x = true.
Proof.
  unfold follower_edge, follower_entry. split.
  - intros [d [x [Hx [Hid Hin]]]]. exists x. repeat split; auto.
    apply has_follower_In. exists d. exact Hin.
  - intros [x [Hx [Hid Hf]]]. apply has_follower_In in Hf.
    destruct Hf as [d Hd]. exists d, x. auto.
Qed.

(** The first write of a follow puts the entry in a document of [u]. *)
Lemma step1_entry (now1 : Date) (u f : ObjectId) (st : Store) :
  existsb (lacks_following u f) st = true ->
  following_entry
    (update_first (lacks_following u f)
       (push_followings (FollowingEntry.mk f now1)) st)
    u (FollowingEntry.mk f now1).
Proof.
  intros H.
  destruct (update_first_hit _ (push_followings (FollowingEntry.mk f now1)) _ H)
    as [x [Hx [Hp Hin]]].
  exists (push_followings (FollowingEntry.mk f now1) x).
  split; [exact Hin|]. split.
  - unfold lacks_following in Hp. apply andb_prop in Hp.
    destruct Hp as [Hid _]. apply N.eqb_eq in Hid. exact Hid.
  - simpl. apply in_or_app. right. left. reflexivity.
Qed.

Lemma step2_entry (now2 : Date) (u f : ObjectId) (st : Store) :
  existsb (lacks_follower f u) st = true ->
  follower_entry
    (update_first (lacks_follower f u)
       (push_followers (FollowerEntry.mk u now2)) st)
    f (FollowerEntry.mk u now2).
Proof.
  intros H.
  destruct (update_first_hit _ (push_followers (FollowerEntry.mk u now2)) _ H)
    as [x [Hx [Hp Hin]]].
  exists (push_followers (FollowerEntry.mk u now2) x).
  split; [exact Hin|]. split.
  - unfold lacks_follower in Hp. apply andb_prop in Hp.
    destruct Hp as [Hid _]. apply N.eqb_eq in Hid. exact Hid.
  - simpl. apply in_or_app. right. left. reflexivity.
Qed.

(** An update that keeps [_id] and [followings] keeps the outgoing entries. *)
Lemma following_entry_kept (p : User -> bool) (h : User -> User)
  (st : Store) (u : ObjectId) (e : FollowingEntry.t) :
  (forall x, _id (h x) = _id x) ->
  (forall x, In e (followings x) -> In e (followings (h x))) ->
  following_entry st u e -> following_entry (update_first p h st) u e.
Proof.
  intros Hid Hfs [x [Hx [Hu He]]].
  destruct (update_first_keeps p h st x Hx) as [H|H].
  - exists x. auto.
  - exists (h x). rewrite Hid. auto.
Qed.

(** C1.  A follow that succeeds leaves the edge on both sides: the entry
    [{ followingId: followId, date: now1 }] is in the followings of a document
    of [userId], and the entry [{ followId: userId, date: now2 }] is in the
    followers of a document of [followId] (the identifiers as ObjectIds);
    both carry the clock reading of their write. *)
Theorem follow_success_mirror (now1 now2 : Date) (userId followId : string)
  (st st' : Store) (code : Z) (body : SuccessResponse unit) :
  followUser now1 now2 userId followId st = (st', Json code body) ->
  following_entry st' (castObjectId userId)
    (FollowingEntry.mk (castObjectId followId) now1)
  /\ follower_entry st' (castObjectId followId)
       (FollowerEntry.mk (castObjectId userId) now2).
Proof.
  rewrite followUser_steps.
  destruct (negb (isValidObjectId userId) || negb (isValidObjectId followId));
    [discriminate|].
  destruct (String.eqb userId followId); [discriminate|].
  destruct (existsb (lacks_following _ _) st) eqn:E1; [|discriminate].
  cbv zeta.
  destruct (existsb (lacks_follower _ _) _) eqn:E2; [|discriminate].
  intros H. injection H as <- _ _. split.
  - apply following_entry_kept; [reflexivity|auto|].
    apply step1_entry. exact E1.
  - apply step2_entry. exact E2.
Qed.

(** The edges as the queries of the store see them. *)
Lemma following_edge_existsb (st : Store) (u f : ObjectId) :
  following_edge st u f <-> existsb (holds_following u f) st = true.
Proof.
  rewrite following_edge_iff, existsb_exists. unfold holds_following.
  split; intros [x [Hx H]]; exists x; split; auto.
  - destruct H as [<- ->]. rewrite N.eqb_refl. reflexivity.
  - apply andb_prop in H. destruct H as [H1 H2].
    apply N.eqb_eq in H1. auto.
Qed.

Lemma follower_edge_existsb (st : Store) (f u : ObjectId) :
  follower_edge st f u <-> existsb (holds_follower f u) st = true.
Proof.
  rewrite follower_edge_iff, existsb_exists. unfold holds_follower.
  split; intros [x [Hx H]]; exists x; split; auto.
  - destruct H as [<- ->]. rewrite N.eqb_refl. reflexivity.
  - apply andb_prop in H. destruct H as [H1 H2].
    apply N.eqb_eq in H1. auto.
Qed.

(** No document of [u] lacks the edge to [f]: the first filter of a follow
    matches nothing. *)
Lemma lacks_following_none (st : Store) (u f : ObjectId) :
  (forall x, In x st -> _id x = u -> has_following f x = true) ->
  existsb (lacks_following u f) st = false.
Proof.
  intros H. apply existsb_false_forall. intros x Hx. unfold lacks_following.
  destruct (N.eqb_spec (_id x) u) as [E|E]; [|reflexivity].
  rewrite (H x Hx E). reflexivity.
Qed.

Lemma lacks_following_some (st : Store) (u f : ObjectId) :
  (exists x, In x st /\ _id x = u /\ has_following f x = false) ->
  existsb (lacks_following u f) st = true.
Proof.
  intros [x [Hx [Hid Hf]]]. apply existsb_exists. exists x.
  split; [exact Hx|]. unfold lacks_following.
  rewrite Hid, N.eqb_refl, Hf. reflexivity.
Qed.

Lemma lacks_follower_none (st : Store) (f u : ObjectId) :
  (forall x, In x st -> _id x = f -> has_follower u x = true) ->
  existsb (lacks_follower f u) st = false.
Proof.
  intros H. apply existsb_false_forall. intros x Hx. unfold lacks_follower.
  destruct (N.eqb_spec (_id x) f) as [E|E]; [|reflexivity].
  rewrite (H x Hx E). reflexivity.
Qed.

(** C2, as the code has it.  For well-formed, distinct identifiers: when the
    first conditional update matches no record, nothing is written (the
    second update is not run, whatever the record of [followId] holds) and
    the reply is [ERROR_UPDATE_FOLLOWING]; when the first update matches and
    the second matches no record, the store is the one the first write
    produced: the entry stays in the followings of [userId], no followers
    array is changed and the reply is [ERROR_UPDATE_FOLLOWERS].  What is
    left is then a half-edge when [followId] has no document, and the edge on
    both sides when it has one (its followers held [userId] already). *)
Theorem follow_two_step_order (now1 now2 : Date) (userId followId : string)
  (st : Store) :
  isValidObjectId userId = true ->
  isValidObjectId followId = true ->
  userId <> followId ->
  ((forall x, In x st -> _id x = castObjectId userId ->
      has_following (castObjectId followId) x = true) ->
   followUser now1 now2 userId followId st
   = (st, Next ERROR_UPDATE_FOLLOWING))
  /\
  ((exists x, In x st /\ _id x = castObjectId userId
              /\ has_following (castObjectId followId) x = false) ->
   (forall x, In x st -> _id x = castObjectId followId ->
      has_follower (castObjectId userId) x = true) ->
   let st1 :=
     update_first
       (lacks_following (castObjectId userId) (castObjectId followId))
       (push_followings (FollowingEntry.mk (castObjectId followId) now1))
       st in
   followUser now1 now2 userId followId st
   = (st1, Next ERROR_UPDATE_FOLLOWERS)
   /\ following_entry st1 (castObjectId userId)
        (FollowingEntry.mk (castObjectId followId) now1)
   /\ map followers st1 = map followers st
   /\ ((forall x, In x st -> _id x <> castObjectId followId) ->
       half_edge st1 (castObjectId userId) (castObjectId followId))
   /\ ((exists x, In x st /\ _id x = castObjectId followId) ->
       following_edge st1 (castObjectId userId) (castObjectId followId)
       /\ follower_edge st1 (castObjectId followId) (castObjectId userId))).
Proof.
  intros Hu Hf Hne.
  assert (Hneq : String.eqb userId followId = false)
    by (apply String.eqb_neq; exact Hne).
  split.
  - intros H1. rewrite followUser_steps, (valid_guard _ _ Hu Hf), Hneq.
    rewrite lacks_following_none by exact H1. reflexivity.
  - intros H1 H2 st1.
    assert (E1 : existsb
                   (lacks_following (castObjectId userId)
                      (castObjectId followId)) st = true)
      by (apply lacks_following_some; exact H1).
    assert (E2 : existsb
                   (lacks_follower (castObjectId followId)
                      (castObjectId userId)) st1 = false).
    { unfold st1. rewrite update_first_existsb.
      - apply lacks_follower_none. exact H2.
      - intros x. apply lacks_follower_push_followings. }
    assert (Hent : following_entry st1 (castObjectId userId)
                     (FollowingEntry.mk (castObjectId followId) now1))
      by (apply step1_entry; exact E1).
    assert (Hfs : map followers st1 = map followers st)
      by (apply update_first_map; reflexivity).
    assert (Hsame : forall f u,
              existsb (holds_follower f u) st1
              = existsb (holds_follower f u) st)
      by (intros f u; apply update_first_existsb; reflexivity).
    split; [|split; [exact Hent|split; [exact Hfs|split]]].
    + rewrite followUser_steps, (valid_guard _ _ Hu Hf), Hneq, E1.
      cbv zeta. fold st1. rewrite E2. reflexivity.
    + intros Hmissing. split; [exists now1; exact Hent|].
      rewrite follower_edge_existsb, Hsame.
      intros Hin. apply existsb_exists in Hin.
      destruct Hin as [x [Hx Hp]]. unfold holds_follower in Hp.
      apply andb_prop in Hp. destruct Hp as [Hid _].
      apply N.eqb_eq in Hid. exact (Hmissing x Hx Hid).
    + intros [x [Hx Hid]]. split; [exists now1; exact Hent|].
      rewrite follower_edge_existsb, Hsame.
      apply existsb_exists. exists x. split; [exact Hx|].
      unfold holds_follower.
      rewrite Hid, N.eqb_refl, (H2 x Hx Hid). reflexivity.
Qed.

(** C5, as the code has it.  A follow of oneself never writes: it is refused
    with [ERROR_IDS_SAME] when the identifier is well-formed, and with
    [ERROR_VALID_ID], by the guard that runs first, when it is not. *)
Theorem follow_self_rejected (now1 now2 : Date) (u : string) (st : Store) :
  followUser now1 now2 u u st
  = (st, Next (if isValidObjectId u then ERROR_IDS_SAME else ERROR_VALID_ID)).
Proof.
  rewrite followUser_steps, String.eqb_refl.
  destruct (isValidObjectId u); reflexivity.
Qed.

End EdgeMutations.

(** alice follows bob in [two_users]. *)
Lemma follow_success_mirror_witness :
  followUser (platform := hexMongo) day0 day1 alice_id bob_id two_users
  = (two_users_followed, Json 200 (getSuccessResponse 200 UPDATE_FOLLOW None))
  /\ following_entry two_users_followed alice_oid
       (FollowingEntry.mk bob_oid day0)
  /\ follower_entry two_users_followed bob_oid
       (FollowerEntry.mk alice_oid day1).
Proof.
  split; [reflexivity|].
  apply (@follow_success_mirror hexMongo day0 day1 alice_id bob_id
           two_users two_users_followed 200
           (getSuccessResponse 200 UPDATE_FOLLOW None)).
  reflexivity.
Defined.

(** The request may spell an identifier in upper case: the filters hold its
    cast, and the documents of alice and of bob are the ones written. *)
Example follow_other_spelling :
  followUser (platform := hexMongo) day0 day1 alice_id_upper bob_id_upper
    two_users
  = (two_users_followed, Json 200 (getSuccessResponse 200 UPDATE_FOLLOW None)).
Proof. reflexivity. Qed.

(** Two spellings of one identifier pass the guard on equal strings: the
    follow succeeds, and the document is written on both of its sides. *)
Example follow_self_by_spelling :
  followUser (platform := hexMongo) day0 day1 alice_id_upper alice_id
    only_alice
  = ([ mkUser alice_oid "alice" [FollowerEntry.mk alice_oid day1]
         [FollowingEntry.mk alice_oid day0] ],
     Json 200 (getSuccessResponse 200 UPDATE_FOLLOW None)).
Proof. reflexivity. Qed.

(** [incoming_only] is the collection that an unfollow leaves between its
    two writes, after a follow that completed. *)
Lemma incoming_only_provenance :
  incoming_only
  = update_first (holds_following alice_oid bob_oid) (pull_followings bob_oid)
      (fst (followUser (platform := hexMongo) day0 day0 alice_id bob_id
              two_users)).
Proof. reflexivity. Qed.

(** C2 as stated fails: bob's followers already hold alice, alice's followings
    do not hold bob.  The first write succeeds, the second update matches no
    record, the reply is [ERROR_UPDATE_FOLLOWERS], and the edge is then on
    both sides: no half-edge is left. *)
Lemma follow_step2_failure_full_edge :
  followUser (platform := hexMongo) day1 day2 alice_id bob_id incoming_only
  = (incoming_only_step1, Next ERROR_UPDATE_FOLLOWERS)
  /\ ~ following_edge incoming_only alice_oid bob_oid
  /\ following_edge incoming_only_step1 alice_oid bob_oid
  /\ follower_edge incoming_only_step1 bob_oid alice_oid
  /\ ~ half_edge incoming_only_step1 alice_oid bob_oid.
Proof.
  assert (Hin : follower_edge incoming_only_step1 bob_oid alice_oid)
    by (apply follower_edge_existsb; reflexivity).
  split; [reflexivity|]. split; [|split; [|split]].
  - rewrite following_edge_existsb. discriminate.
  - apply following_edge_existsb. reflexivity.
  - exact Hin.
  - intros [_ H]. exact (H Hin).
Qed.

(** The first write refused when alice already follows bob; the first write
    kept, as a half-edge when bob has no document, and as the edge on both
    sides when bob's followers held alice already. *)
Lemma follow_two_step_order_witness :
  followUser (platform := hexMongo) day1 day2 alice_id bob_id
    two_users_followed
  = (two_users_followed, Next ERROR_UPDATE_FOLLOWING)
  /\ (followUser (platform := hexMongo) day0 day1 alice_id bob_id only_alice
      = (only_alice_step1, Next ERROR_UPDATE_FOLLOWERS)
      /\ half_edge only_alice_step1 alice_oid bob_oid)
  /\ (followUser (platform := hexMongo) day1 day2 alice_id bob_id
        incoming_only
      = (incoming_only_step1, Next ERROR_UPDATE_FOLLOWERS)
      /\ following_edge incoming_only_step1 alice_oid bob_oid
      /\ follower_edge incoming_only_step1 bob_oid alice_oid).
Proof.
  split; [|split].
  - apply (@follow_two_step_order hexMongo day1 day2 alice_id bob_id
             two_users_followed);
      [reflexivity|reflexivity|discriminate|].
    intros x [<-|[<-|[]]]; [reflexivity|discriminate].
  - destruct (@follow_two_step_order hexMongo day0 day1 alice_id bob_id
                only_alice eq_refl eq_refl) as [_ H];
      [discriminate|].
    destruct H as [Hreply [_ [_ [Hhalf _]]]].
    + exists (mkUser alice_oid "alice"%string [] []).
      split; [left; reflexivity|]. split; reflexivity.
    + intros x [<-|[]]. discriminate.
    + split; [exact Hreply|]. apply Hhalf.
      intros x [<-|[]]. discriminate.
  - destruct (@follow_two_step_order hexMongo day1 day2 alice_id bob_id
                incoming_only eq_refl eq_refl) as [_ H];
      [discriminate|].
    destruct H as [Hreply [_ [_ [_ Hfull]]]].
    + exists (mkUser alice_oid "alice"%string [] []).
      split; [left; reflexivity|]. split; reflexivity.
    + intros x [<-|[<-|[]]]; [discriminate|reflexivity].
    + split; [exact Hreply|]. apply Hfull.
      exists (mkUser bob_oid "bob"%string
                [FollowerEntry.mk alice_oid day0] []).
      split; [right; left; reflexivity|reflexivity].
Defined.

(** C5 as stated fails: for a malformed identifier the first guard answers,
    and the reply is [ERROR_VALID_ID], not [ERROR_IDS_SAME]. *)
Lemma follow_self_malformed :
  followUser (platform := hexMongo) day0 day1 "invalidId" "invalidId"
    two_users
  = (two_users, Next ERROR_VALID_ID)
  /\ snd (followUser (platform := hexMongo) day0 day1 "invalidId" "invalidId"
            two_users)
     <> Next ERROR_IDS_SAME.
Proof.
  split; [reflexivity|]. discriminate.
Qed.
(** ** Undoing and reordering writes *)

(** A second update that matched nothing before, and that reverts the first
    one on the document the first one rewrote, restores the store. *)
Lemma update_first_undo (p q : User -> bool) (h g : User -> User)
  (st : Store) :
  (forall x, In x st -> q x = false) ->
  (forall x, p x = true -> q (h x) = true /\ g (h x) = x) ->
  update_first q g (update_first p h st) = st.
Proof.
  intros Hq Hp. induction st as [|x rest IH]; simpl; [reflexivity|].
  destruct (p x) eqn:E; simpl.
  - destruct (Hp x E) as [-> ->]. reflexivity.
  - rewrite (Hq x (or_introl eq_refl)).
    rewrite IH; [reflexivity|]. intros y Hy. apply Hq. right. exact Hy.
Qed.

(** Two updates that commute on every document, and of which neither
    changes what the filter of the other reads, commute on the store. *)
Lemma update_first_comm (p p' : User -> bool) (h h' : User -> User)
  (st : Store) :
  (forall x, p' (h x) = p' x) ->
  (forall x, p (h' x) = p x) ->
  (forall x, h' (h x) = h (h' x)) ->
  update_first p' h' (update_first p h st)
  = update_first p h (update_first p' h' st).
Proof.
  intros Hp' Hp Hc. induction st as [|x rest IH]; simpl; [reflexivity|].
  destruct (p x) eqn:E, (p' x) eqn:E'; simpl.
  - rewrite Hp', E', Hp, E, Hc. reflexivity.
  - rewrite Hp', E', E. reflexivity.
  - rewrite E', Hp, E. reflexivity.
  - rewrite E, E', IH. reflexivity.
Qed.

Lemma filter_keeps_all {A : Type} (q : A -> bool) (l : list A) :
  existsb q l = false -> List.filter (fun a => negb (q a)) l = l.
Proof.
  induction l as [|a l IH]; simpl; [reflexivity|].
  destruct (q a); simpl; [discriminate|].
  intros H. rewrite IH by exact H. reflexivity.
Qed.

(** Pulling the edge that was just pushed gives the document back. *)
Lemma pull_push_followings (f : ObjectId) (d : Date) (x : User) :
  has_following f x = false ->
  pull_followings f (push_followings (FollowingEntry.mk f d) x) = x.
Proof.
  intros H. destruct x as [i n frs fgs].
  unfold pull_followings, push_followings, has_following in *; simpl in *.
  rewrite filter_app. simpl. rewrite N.eqb_refl. simpl.
  rewrite app_nil_r, filter_keeps_all by exact H. reflexivity.
Qed.

Lemma pull_push_followers (u : ObjectId) (d : Date) (x : User) :
  has_follower u x = false ->
  pull_followers u (push_followers (FollowerEntry.mk u d) x) = x.
Proof.
  intros H. destruct x as [i n frs fgs].
  unfold pull_followers, push_followers, has_follower in *; simpl in *.
  rewrite filter_app. simpl. rewrite N.eqb_refl. simpl.
  rewrite app_nil_r, filter_keeps_all by exact H. reflexivity.
Qed.

(** The two writes of a follow, reverted by the two writes of an unfollow. *)
Lemma follow_writes_undone (now1 now2 : Date) (u f : ObjectId) (st : Store) :
  ~ following_edge st u f ->
  ~ follower_edge st f u ->
  update_first (holds_follower f u) (pull_followers u)
    (update_first (holds_following u f) (pull_followings f)
       (update_first (lacks_follower f u)
          (push_followers (FollowerEntry.mk u now2))
          (update_first (lacks_following u f)
             (push_followings (FollowingEntry.mk f now1)) st)))
  = st.
Proof.
  intros Hout Hin.
  rewrite following_edge_existsb in Hout. rewrite follower_edge_existsb in Hin.
  apply not_true_is_false in Hout. apply not_true_is_false in Hin.
  rewrite (update_first_comm (lacks_follower f u) (holds_following u f));
    [|reflexivity|reflexivity|reflexivity].
  rewrite (update_first_undo (lacks_following u f) (holds_following u f)).
  - apply update_first_undo.
    + apply existsb_false_forall. exact Hin.
    + intros x Hx. unfold lacks_follower in Hx. apply andb_prop in Hx.
      destruct Hx as [Hid Hx]. apply negb_true_iff in Hx. split.
      * unfold holds_follower, has_follower. simpl. rewrite Hid.
        rewrite existsb_app. simpl. rewrite N.eqb_refl.
        rewrite orb_true_r. reflexivity.
      * apply pull_push_followers. exact Hx.
  - apply existsb_false_forall. exact Hout.
  - intros x Hx. unfold lacks_following in Hx. apply andb_prop in Hx.
    destruct Hx as [Hid Hx]. apply negb_true_iff in Hx. split.
    + unfold holds_following, has_following. simpl. rewrite Hid.
      rewrite existsb_app. simpl. rewrite N.eqb_refl.
      rewrite orb_true_r. reflexivity.
    + apply pull_push_followings. exact Hx.
Qed.

Section RoundTrip.

Context {platform : Mongo}.

(** After a follow that succeeded from a store without the edge, the
    unfollow succeeds and the store is the one before the follow. *)
Lemma unfollow_after_follow (now1 now2 : Date) (u f : string)
  (st st1 : Store) (c1 : Z) (b1 : SuccessResponse unit) :
  ~ following_edge st (castObjectId u) (castObjectId f) ->
  ~ follower_edge st (castObjectId f) (castObjectId u) ->
  followUser now1 now2 u f st = (st1, Json c1 b1) ->
  unfollowUser u f st1
  = (st, Json 200 (getSuccessResponse 200 UPDATE_UNFOLLOW None)).
Proof.
  intros Hout Hin. rewrite followUser_steps, unfollowUser_steps.
  destruct (negb (isValidObjectId u) || negb (isValidObjectId f));
    [discriminate|].
  destruct (String.eqb u f); [discriminate|].
  destruct (existsb (lacks_following _ _) st) eqn:E1; [|discriminate].
  cbv zeta.
  destruct (existsb (lacks_follower _ _) _) eqn:E2; [|discriminate].
  intros H. injection H as <- _ _.
  rewrite (@follow_writes_undone now1 now2 _ _ st Hout Hin).
  assert (Hq1 : existsb (holds_following (castObjectId u) (castObjectId f))
                  (update_first
                     (lacks_follower (castObjectId f) (castObjectId u))
                     (push_followers (FollowerEntry.mk (castObjectId u) now2))
                     (update_first
                        (lacks_following (castObjectId u) (castObjectId f))
                        (push_followings
                           (FollowingEntry.mk (castObjectId f) now1)) st))
                = true).
  { apply following_edge_existsb. exists now1.
    apply following_entry_kept; [reflexivity|auto|].
    apply step1_entry. exact E1. }
  rewrite Hq1.
  assert (Hq2 : existsb (holds_follower (castObjectId f) (castObjectId u))
                  (update_first
                     (holds_following (castObjectId u) (castObjectId f))
                     (pull_followings (castObjectId f))
                     (update_first
                        (lacks_follower (castObjectId f) (castObjectId u))
                        (push_followers
                           (FollowerEntry.mk (castObjectId u) now2))
                        (update_first
                           (lacks_following (castObjectId u) (castObjectId f))
                           (push_followings
                              (FollowingEntry.mk (castObjectId f) now1))
                           st)))
                = true).
  { rewrite update_first_existsb by reflexivity.
    apply follower_edge_existsb. exists now2.
    apply step2_entry. exact E2. }
  rewrite Hq2. reflexivity.
Qed.

(** C3.  From a store in which the edge from [u] to [f] is absent on both
    sides, a follow and then an unfollow that both succeed give back the
    store of before the follow: the edge is absent from the followings of
    [u] and from the followers of [f]. *)
Theorem follow_unfollow_round_trip (now1 now2 : Date) (u f : string)
  (st st1 st2 : Store) (c1 c2 : Z) (b1 b2 : SuccessResponse unit) :
  ~ following_edge st (castObjectId u) (castObjectId f) ->
  ~ follower_edge st (castObjectId f) (castObjectId u) ->
  followUser now1 now2 u f st = (st1, Json c1 b1) ->
  unfollowUser u f st1 = (st2, Json c2 b2) ->
  st2 = st
  /\ ~ following_edge st2 (castObjectId u) (castObjectId f)
  /\ ~ follower_edge st2 (castObjectId f) (castObjectId u).
Proof.
  intros Hout Hin Hfollow Hunfollow.
  rewrite (@unfollow_after_follow now1 now2 u f st st1 c1 b1 Hout Hin Hfollow)
    in Hunfollow.
  injection Hunfollow as <- _ _. auto.
Qed.

End RoundTrip.

(** alice follows bob in [two_users], then unfollows. *)
Lemma follow_unfollow_round_trip_witness :
  ~ following_edge two_users alice_oid bob_oid
  /\ ~ follower_edge two_users bob_oid alice_oid
  /\ followUser (platform := hexMongo) day0 day1 alice_id bob_id two_users
     = (two_users_followed,
        Json 200 (getSuccessResponse 200 UPDATE_FOLLOW None))
  /\ unfollowUser (platform := hexMongo) alice_id bob_id two_users_followed
     = (two_users, Json 200 (getSuccessResponse 200 UPDATE_UNFOLLOW None))
  /\ two_users = two_users
  /\ ~ following_edge two_users alice_oid bob_oid
  /\ ~ follower_edge two_users bob_oid alice_oid.
Proof.
  assert (Hout : ~ following_edge two_users alice_oid bob_oid)
    by (rewrite following_edge_existsb; discriminate).
  assert (Hin : ~ follower_edge two_users bob_oid alice_oid)
    by (rewrite follower_edge_existsb; discriminate).
  split; [exact Hout|]. split; [exact Hin|].
  split; [reflexivity|]. split; [reflexivity|].
  apply (@follow_unfollow_round_trip hexMongo day0 day1 alice_id bob_id
           two_users two_users_followed two_users 200 200
           (getSuccessResponse 200 UPDATE_FOLLOW None)
           (getSuccessResponse 200 UPDATE_UNFOLLOW None)
           Hout Hin); reflexivity.
Defined.

(** The round trip through another spelling of the identifiers. *)
Example round_trip_other_spelling :
  unfollowUser (platform := hexMongo) alice_id_upper bob_id
    (fst (followUser (platform := hexMongo) day0 day1 alice_id bob_id_upper
            two_users))
  = (two_users, Json 200 (getSuccessResponse 200 UPDATE_UNFOLLOW None)).
Proof. reflexivity. Qed.
(** ** Following twice *)

(** [_id] is a key of the collection. *)
Lemma id_key (st : Store) (x y : User) :
  NoDup (map _id st) -> In x st -> In y st -> _id x = _id y -> x = y.
Proof.
  induction st as [|z rest IH]; simpl; [tauto|].
  intros Hnd Hx Hy Heq. inversion Hnd as [|? ? Hz Hrest]; subst.
  destruct Hx as [->|Hx], Hy as [->|Hy]; auto.
  - exfalso. apply Hz. rewrite Heq. apply in_map. exact Hy.
  - exfalso. apply Hz. rewrite <- Heq. apply in_map. exact Hx.
Qed.

(** With [_id] a key, a filter on one identifier rewrites at most one
    document: [update_first] is a pointwise update. *)
Lemma update_first_pointwise (u : ObjectId) (p : User -> bool)
  (h : User -> User) (st : Store) :
  NoDup (map _id st) ->
  (forall x, p x = true -> _id x = u) ->
  update_first p h st = map (fun x => if p x then h x else x) st.
Proof.
  intros Hnd Hp. induction st as [|x rest IH]; simpl; [reflexivity|].
  inversion Hnd as [|? ? Hx Hrest]; subst.
  destruct (p x) eqn:E.
  - f_equal. rewrite <- (map_id rest) at 1. apply map_ext_in.
    intros y Hy. destruct (p y) eqn:Ey; [|reflexivity].
    exfalso. apply Hx. rewrite (Hp x E), <- (Hp y Ey). apply in_map. exact Hy.
  - rewrite IH by exact Hrest. reflexivity.
Qed.

Lemma count_following_push (f : ObjectId) (d : Date) (x : User) :
  count_following f (push_followings (FollowingEntry.mk f d) x)
  = S (count_following f x).
Proof.
  unfold count_following, push_followings; simpl.
  rewrite filter_app, length_app. simpl. rewrite N.eqb_refl. simpl.
  lia.
Qed.

Lemma count_following_absent (f : ObjectId) (x : User) :
  has_following f x = false -> count_following f x = 0.
Proof.
  unfold has_following, count_following.
  induction (followings x) as [|e l IH]; simpl; [reflexivity|].
  destruct (N.eqb (FollowingEntry.followingId e) f); simpl;
    [discriminate|exact IH].
Qed.

Lemma count_following_present (f : ObjectId) (x : User) :
  has_following f x = true -> 1 <= count_following f x.
Proof.
  unfold has_following, count_following.
  induction (followings x) as [|e l IH]; simpl; [discriminate|].
  destruct (N.eqb (FollowingEntry.followingId e) f); simpl;
    [lia|exact IH].
Qed.

Lemma lacks_following_id (u f : ObjectId) (x : User) :
  lacks_following u f x = true -> _id x = u.
Proof.
  unfold lacks_following. intros H. apply andb_prop in H.
  destruct H as [H _]. apply N.eqb_eq. exact H.
Qed.

(** After the first write of a follow, every document of [u] holds exactly
    one entry for [f]. *)
Lemma step1_single_entry (now1 : Date) (u f : ObjectId) (st : Store) :
  NoDup (map _id st) ->
  existsb (lacks_following u f) st = true ->
  forall y,
    In y (update_first (lacks_following u f)
            (push_followings (FollowingEntry.mk f now1)) st) ->
    _id y = u ->
    has_following f y = true /\ count_following f y = 1.
Proof.
  intros Hnd E1 y Hy Hid.
  rewrite (update_first_pointwise (u := u)) in Hy;
    [|exact Hnd|apply lacks_following_id].
  apply in_map_iff in Hy. destruct Hy as [x [Hxy Hx]].
  apply existsb_exists in E1. destruct E1 as [z [Hz Hpz]].
  assert (x = z).
  { apply (id_key st); auto. rewrite (lacks_following_id _ _ _ Hpz).
    destruct (lacks_following u f x); subst y; exact Hid. }
  subst z. rewrite Hpz in Hxy. subst y.
  unfold lacks_following in Hpz. apply andb_prop in Hpz.
  destruct Hpz as [_ Hpz]. apply negb_true_iff in Hpz. split.
  - rewrite has_following_app. simpl. rewrite N.eqb_refl.
    apply orb_true_r.
  - rewrite count_following_push, (count_following_absent _ _ Hpz).
    reflexivity.
Qed.

Section FollowTwice.

Context {platform : Mongo}.

(** Whatever the first follow replies, afterwards no document of [u] lacks
    the edge to [f], and each holds exactly one entry for it. *)
Lemma follow_leaves_single_edge (now1 now2 : Date) (u f : string)
  (st st1 : Store) (r1 : Reply unit) :
  isValidObjectId u = true ->
  isValidObjectId f = true ->
  u <> f ->
  NoDup (map _id st) ->
  (forall x, In x st -> _id x = castObjectId u ->
     count_following (castObjectId f) x <= 1) ->
  followUser now1 now2 u f st = (st1, r1) ->
  map _id st1 = map _id st
  /\ forall y, In y st1 -> _id y = castObjectId u ->
       has_following (castObjectId f) y = true
       /\ count_following (castObjectId f) y = 1.
Proof.
  intros Hu Hf Hne Hnd Hcount.
  rewrite followUser_steps, (valid_guard _ _ Hu Hf).
  replace (String.eqb u f) with false
    by (symmetry; apply String.eqb_neq; exact Hne).
  destruct (existsb (lacks_following (castObjectId u) (castObjectId f)) st)
      eqn:E1.
  - cbv zeta.
    pose proof (@step1_single_entry now1 (castObjectId u) (castObjectId f) st
        Hnd E1) as Hsa.
    assert (Hids : map _id (update_first (lacks_following (castObjectId u)
        (castObjectId f))
                     (push_followings (FollowingEntry.mk (castObjectId f)
                         now1)) st)
                   = map _id st)
      by (apply update_first_map; reflexivity).
    destruct (existsb (lacks_follower (castObjectId f) (castObjectId u)) _)
        eqn:E2;
      intros H; injection H as <- _.
    + split.
      * rewrite update_first_map by reflexivity. exact Hids.
      * intros y Hy Hid. apply update_first_from in Hy.
        destruct Hy as [Hy|[x [Hx [_ ->]]]]; [apply Hsa; assumption|].
        apply (Hsa x Hx Hid).
    + split; [exact Hids|exact Hsa].
  - intros H. injection H as <- _. split; [reflexivity|].
    intros y Hy Hid.
    assert (Hy' : has_following (castObjectId f) y = true).
    { pose proof (proj1 (existsb_false_forall _ _) E1 y Hy) as Hp.
      unfold lacks_following in Hp. rewrite Hid, N.eqb_refl in Hp.
      simpl in Hp. apply negb_false_iff in Hp. exact Hp. }
    split; [exact Hy'|].
    pose proof (count_following_present _ _ Hy').
    pose proof (Hcount y Hy Hid). lia.
Qed.

(** C4.  For well-formed, distinct identifiers, [u] the identifier of a
    document of a collection keyed by [_id] in which [u] holds at most one
    entry for [f]: of two follows in sequence the second replies
    [ERROR_UPDATE_FOLLOWING] and writes nothing (no entry is pushed, the
    entry in place keeps its date), and the followings of [u] then hold
    exactly one entry for [f]. *)
Theorem follow_twice_single_edge (now1 now2 now3 now4 : Date) (u f : string)
  (st st1 st2 : Store) (r1 r2 : Reply unit) :
  isValidObjectId u = true ->
  isValidObjectId f = true ->
  u <> f ->
  NoDup (map _id st) ->
  (exists x, In x st /\ _id x = castObjectId u) ->
  (forall x, In x st -> _id x = castObjectId u ->
     count_following (castObjectId f) x <= 1) ->
  followUser now1 now2 u f st = (st1, r1) ->
  followUser now3 now4 u f st1 = (st2, r2) ->
  r2 = Next ERROR_UPDATE_FOLLOWING
  /\ st2 = st1
  /\ (exists x, In x st2 /\ _id x = castObjectId u)
  /\ (forall x, In x st2 -> _id x = castObjectId u ->
     count_following (castObjectId f) x = 1).
Proof.
  intros Hu Hf Hne Hnd [x0 [Hx0 Hid0]] Hcount Hfirst.
  destruct (@follow_leaves_single_edge now1 now2 u f st st1 r1
              Hu Hf Hne Hnd Hcount Hfirst) as [Hids Hone].
  rewrite followUser_steps, (valid_guard _ _ Hu Hf).
  replace (String.eqb u f) with false
    by (symmetry; apply String.eqb_neq; exact Hne).
  rewrite lacks_following_none by (intros y Hy Hid; apply (Hone y Hy Hid)).
  intros H. injection H as <- <-.
  split; [reflexivity|]. split; [reflexivity|]. split.
  - assert (Hin : In (castObjectId u) (map _id st1)).
    { rewrite Hids, <- Hid0. apply in_map. exact Hx0. }
    apply in_map_iff in Hin. destruct Hin as [y [Hy Hin]]. exists y. auto.
  - intros y Hy Hid. apply (Hone y Hy Hid).
Qed.

End FollowTwice.

(** alice follows bob twice in [two_users]. *)
Lemma follow_twice_single_edge_witness :
  followUser (platform := hexMongo) day0 day1 alice_id bob_id two_users
  = (two_users_followed, Json 200 (getSuccessResponse 200 UPDATE_FOLLOW None))
  /\ followUser (platform := hexMongo) day1 day2 alice_id bob_id
       two_users_followed
     = (two_users_followed, Next ERROR_UPDATE_FOLLOWING)
  /\ Next ERROR_UPDATE_FOLLOWING = Next (A := unit) ERROR_UPDATE_FOLLOWING
  /\ two_users_followed = two_users_followed
  /\ (exists x, In x two_users_followed /\ _id x = alice_oid)
  /\ (forall x, In x two_users_followed -> _id x = alice_oid ->
        count_following bob_oid x = 1).
Proof.
  split; [reflexivity|]. split; [reflexivity|].
  apply (@follow_twice_single_edge hexMongo
           day0 day1 day1 day2 alice_id bob_id
           two_users two_users_followed two_users_followed
           (Json 200 (getSuccessResponse 200 UPDATE_FOLLOW None))
           (Next ERROR_UPDATE_FOLLOWING)).
  - reflexivity.
  - reflexivity.
  - discriminate.
  - repeat constructor; simpl; intuition discriminate.
  - exists (mkUser alice_oid "alice"%string [] []).
    split; [left; reflexivity|reflexivity].
  - intros x [<-|[<-|[]]] _; vm_compute; lia.
  - reflexivity.
  - reflexivity.
Defined.

(** ** Listing the users *)

(** [getAllUsers] reads only, and lists the documents in the order of the
    collection. *)
Lemma getAllUsers_order (st : Store) :
  exists users,
    getAllUsers st
    = (st, Json 200 (getSuccessResponse 200 ALL_USER (Some users)))
    /\ map details_id users = map _id st.
Proof.
  exists (allUsersPipeline st). split; [reflexivity|].
  unfold allUsersPipeline. rewrite map_map. reflexivity.
Qed.

(** ** Creating a user *)

Lemma find_none_iff (p : User -> bool) (st : Store) :
  find p st = None <-> (forall x, In x st -> p x = false).
Proof.
  split.
  - intros H x Hx. apply (find_none _ _ H x Hx).
  - induction st as [|y rest IH]; simpl; [reflexivity|].
    intros H. rewrite (H y (or_introl eq_refl)). apply IH.
    intros x Hx. apply H. right. exact Hx.
Qed.

Lemma find_some_exists (p : User -> bool) (st : Store) (x : User) :
  In x st -> p x = true -> exists y, find p st = Some y.
Proof.
  intros Hx Hp. destruct (find p st) as [y|] eqn:E; [exists y; reflexivity|].
  rewrite (proj1 (find_none_iff _ _) E x Hx) in Hp. discriminate.
Qed.

(** C9.  [createUser] refuses a name shorter than three characters (UTF-16
    code units, as [username.length] counts them) with [ERROR_USER_NAME];
    for a longer name it refuses with [ERROR_EXIST_USER]
    when a document has that name; otherwise it appends a document with empty
    [followers] and [followings] to the collection and returns it. *)
Theorem createUser_spec (newId : ObjectId) (name : string) (st : Store) :
  (utf16_length name < 3 ->
   createUser newId name st = (st, Next ERROR_USER_NAME))
  /\
  (3 <= utf16_length name ->
   (exists x, In x st /\ username x = name) ->
   createUser newId name st = (st, Next ERROR_EXIST_USER))
  /\
  (3 <= utf16_length name ->
   (forall x, In x st -> username x <> name) ->
   exists doc,
     createUser newId name st
     = (st ++ [doc], Json 201 (getSuccessResponse 201 CREATED (Some doc)))
     /\ _id doc = newId /\ username doc = name
     /\ followers doc = [] /\ followings doc = []).
Proof.
  unfold createUser, try_catch, bind, throw_if, findOne, create.
  split; [|split].
  - intros Hlen. apply Nat.ltb_lt in Hlen. rewrite Hlen. reflexivity.
  - intros Hlen [x [Hx Hname]]. apply Nat.ltb_ge in Hlen. rewrite Hlen.
    cbn [ret].
    destruct (find_some_exists (username_is name) st x Hx) as [y Hy].
    + unfold username_is. rewrite Hname. apply String.eqb_refl.
    + rewrite Hy. reflexivity.
  - intros Hlen Hfresh. apply Nat.ltb_ge in Hlen. rewrite Hlen. cbn [ret].
    assert (Hnone : find (username_is name) st = None).
    { apply find_none_iff. intros x Hx. unfold username_is.
      apply String.eqb_neq. apply Hfresh. exact Hx. }
    rewrite Hnone. cbn. exists (mkUser newId name [] []). auto.
Qed.

(** The three cases on [two_users]; the short name has two characters in
    four bytes. *)
Lemma createUser_spec_witness :
  createUser carol_oid short_name two_users = (two_users, Next ERROR_USER_NAME)
  /\ createUser carol_oid "alice" two_users = (two_users, Next ERROR_EXIST_USER)
  /\ exists doc,
       createUser carol_oid "carol" two_users
       = (two_users ++ [doc],
          Json 201 (getSuccessResponse 201 CREATED (Some doc)))
       /\ _id doc = carol_oid /\ username doc = "carol"%string
       /\ followers doc = [] /\ followings doc = [].
Proof.
  split; [|split].
  - apply (proj1 (createUser_spec carol_oid short_name two_users)).
    simpl. lia.
  - apply (proj1 (proj2 (createUser_spec carol_oid "alice" two_users))).
    + simpl. lia.
    + exists (mkUser alice_oid "alice"%string [] []).
      split; [left; reflexivity|reflexivity].
  - apply (proj2 (proj2 (createUser_spec carol_oid "carol" two_users))).
    + simpl. lia.
    + intros x [<-|[<-|[]]]; discriminate.
Defined.

(** The length is counted in UTF-16 code units: a name of two characters
    outside the basic plane has four, and passes the guard. *)
Example createUser_wide_name :
  utf16_length wide_name = 4
  /\ createUser carol_oid wide_name two_users
     = (two_users ++ [mkUser carol_oid wide_name [] []],
        Json 201
          (getSuccessResponse 201 CREATED
             (Some (mkUser carol_oid wide_name [] [])))).
Proof. split; reflexivity. Qed.

(** ** The calendar *)

Lemma date_eqb_eq (a b : Z * Z * Z) : date_eqb a b = true -> a = b.
Proof.
  destruct a as [[y m] d], b as [[y' m'] d']. unfold date_eqb.
  rewrite !andb_true_iff, !Z.eqb_eq. intros [[-> ->] ->]. reflexivity.
Qed.

Lemma cycle_walk_spec (n : N) :
  let '(doe, previous, ok) := cycle_walk n in
  doe = Z.of_N n
  /\ (ok = true ->
      previous = (if (n =? 0)%N then (0, 2, 29)%Z
                  else civil_from_days (doe - 1 - 719468))
      /\ forall i, (0 < i < doe)%Z ->
           civil_from_days (i - 719468)
           = next_day (civil_from_days (i - 1 - 719468))).
Proof.
  unfold cycle_walk.
  induction n as [|n IH] using N.peano_ind.
  - simpl. split; [reflexivity|]. intros _. split; [reflexivity|].
    intros i Hi. exfalso. lia.
  - rewrite N.iter_succ.
    destruct (N.iter n cycle_step (0%Z, (0, 2, 29)%Z, true))
      as [[doe previous] ok].
    destruct IH as [Hdoe IH]. unfold cycle_step.
    split; [lia|]. intros Hok.
    apply andb_prop in Hok. destruct Hok as [Hok Hnext].
    apply date_eqb_eq in Hnext.
    destruct (IH Hok) as [Hprevious Hdays].
    split.
    + replace (N.succ n =? 0)%N with false
        by (symmetry; apply N.eqb_neq; lia).
      replace (doe + 1 - 1 - 719468)%Z with (doe - 719468)%Z by lia.
      reflexivity.
    + intros i Hi. destruct (Z.eq_dec i doe) as [->|Hne];
        [|apply Hdays; lia].
      rewrite Hnext, Hprevious.
      destruct (N.eqb_spec n 0) as [->|Hn]; [simpl in Hdoe; lia|].
      reflexivity.
Qed.

Lemma cycle_checked : snd (cycle_walk 146097) = true.
Proof. vm_compute. reflexivity. Qed.

(** Within the cycle, the civil date of a day is the date that follows the
    civil date of the day before. *)
Lemma cycle_day (doe : Z) :
  (0 < doe < 146097)%Z ->
  civil_from_days (doe - 719468)
  = next_day (civil_from_days (doe - 1 - 719468)).
Proof.
  intros H. pose proof (cycle_walk_spec 146097) as Hspec.
  pose proof cycle_checked as Hok.
  destruct (cycle_walk 146097) as [[doe' previous] ok].
  simpl in Hok. destruct Hspec as [-> Hspec].
  apply (proj2 (Hspec Hok)). lia.
Qed.

(** The cycle starts on 0000-03-01 and ends on 0400-02-29. *)
Lemma cycle_first : civil_from_days (0 - 719468) = (0, 3, 1)%Z.
Proof. vm_compute. reflexivity. Qed.

Lemma cycle_last : civil_from_days (146096 - 719468) = (400, 2, 29)%Z.
Proof. vm_compute. reflexivity. Qed.

(** A day number is a number of cycles and a day of the cycle. *)
Lemma civil_from_days_cycle (days : Z) :
  civil_from_days days
  = let '(y, m, d) :=
      civil_from_days ((days + 719468) mod 146097 - 719468) in
    ((y + (days + 719468) / 146097 * 400)%Z, m, d).
Proof.
  unfold civil_from_days. cbv zeta.
  set (z := (days + 719468)%Z).
  assert (Hdoe : (0 <= z mod 146097 < 146097)%Z)
    by (apply Z.mod_pos_bound; lia).
  replace (z mod 146097 - 719468 + 719468)%Z with (z mod 146097)%Z by lia.
  rewrite (Z.div_small (z mod 146097) 146097) by exact Hdoe.
  replace (z mod 146097 - 0 * 146097)%Z with (z mod 146097)%Z by lia.
  replace (z - z / 146097 * 146097)%Z with (z mod 146097)%Z
    by (rewrite Z.mod_eq by lia; lia).
  f_equal. f_equal. lia.
Qed.

(** The calendar repeats every 400 years. *)
Lemma leap_year_cycle (y k : Z) : leap_year (y + k * 400) = leap_year y.
Proof.
  unfold leap_year.
  replace ((y + k * 400) mod 4)%Z with (y mod 4)%Z
    by (replace (k * 400)%Z with (k * 100 * 4)%Z by lia;
        rewrite Z.mod_add by lia; reflexivity).
  replace ((y + k * 400) mod 100)%Z with (y mod 100)%Z
    by (replace (k * 400)%Z with (k * 4 * 100)%Z by lia;
        rewrite Z.mod_add by lia; reflexivity).
  rewrite Z.mod_add by lia. reflexivity.
Qed.

Lemma days_in_month_cycle (y m k : Z) :
  days_in_month (y + k * 400) m = days_in_month y m.
Proof. unfold days_in_month. rewrite leap_year_cycle. reflexivity. Qed.

Lemma next_day_cycle (y m d k : Z) :
  next_day ((y + k * 400)%Z, m, d)
  = let '(y', m', d') := next_day (y, m, d) in ((y' + k * 400)%Z, m', d').
Proof.
  unfold next_day. rewrite days_in_month_cycle.
  destruct (d <? days_in_month y m)%Z; [reflexivity|].
  destruct (m <? 12)%Z; [reflexivity|]. f_equal. f_equal. lia.
Qed.

(** On every day, the civil date is the date that follows the civil date
    of the day before. *)
Lemma civil_from_days_next (days : Z) :
  civil_from_days (days + 1) = next_day (civil_from_days days).
Proof.
  rewrite (civil_from_days_cycle days), (civil_from_days_cycle (days + 1)).
  set (z := (days + 719468)%Z).
  replace (days + 1 + 719468)%Z with (z + 1)%Z by (unfold z; lia).
  assert (Hdoe : (0 <= z mod 146097 < 146097)%Z)
    by (apply Z.mod_pos_bound; lia).
  assert (Hz : (z = 146097 * (z / 146097) + z mod 146097)%Z)
    by (apply Z.div_mod; lia).
  destruct (Z_lt_ge_dec (z mod 146097) 146096) as [Hlast|Hlast].
  - assert (Hq : ((z + 1) / 146097 = z / 146097)%Z).
    { symmetry. apply (Z.div_unique (z + 1) 146097 (z / 146097)
                         (z mod 146097 + 1)); lia. }
    assert (Hr : ((z + 1) mod 146097 = z mod 146097 + 1)%Z).
    { symmetry. apply (Z.mod_unique (z + 1) 146097 (z / 146097)
                         (z mod 146097 + 1)); lia. }
    rewrite Hq, Hr.
    rewrite (@cycle_day (z mod 146097 + 1)) by lia.
    replace (z mod 146097 + 1 - 1 - 719468)%Z
      with (z mod 146097 - 719468)%Z by lia.
    destruct (civil_from_days (z mod 146097 - 719468)) as [[y m] d].
    rewrite next_day_cycle. reflexivity.
  - assert (Hq : ((z + 1) / 146097 = z / 146097 + 1)%Z).
    { symmetry. apply (Z.div_unique (z + 1) 146097 (z / 146097 + 1) 0); lia. }
    assert (Hr : ((z + 1) mod 146097 = 0)%Z).
    { symmetry. apply (Z.mod_unique (z + 1) 146097 (z / 146097 + 1) 0); lia. }
    rewrite Hq, Hr. replace (z mod 146097)%Z with 146096%Z by lia.
    rewrite cycle_first, cycle_last. cbv beta iota.
    rewrite next_day_cycle.
    change (next_day (400, 2, 29)%Z) with (400, 3, 1)%Z. cbv beta iota.
    f_equal. f_equal. lia.
Qed.

(** The day 0 is 1970-01-01. *)
Lemma civil_from_days_epoch : civil_from_days 0 = (1970, 1, 1)%Z.
Proof. vm_compute. reflexivity. Qed.

Lemma days_in_month_range (y m : Z) : (28 <= days_in_month y m <= 31)%Z.
Proof.
  unfold days_in_month.
  destruct (m =? 2)%Z; [destruct (leap_year y); lia|].
  destruct ((m =? 4) || (m =? 6) || (m =? 9) || (m =? 11))%Z; lia.
Qed.

Lemma valid_date_next (date : Z * Z * Z) :
  valid_date date -> valid_date (next_day date).
Proof.
  destruct date as [[y m] d]. unfold valid_date, next_day.
  intros [Hm Hd].
  destruct (Z.ltb_spec d (days_in_month y m)); [lia|].
  destruct (Z.ltb_spec m 12).
  - pose proof (days_in_month_range y (m + 1)). lia.
  - pose proof (days_in_month_range (y + 1) 1). lia.
Qed.

Lemma valid_date_cycle (y m d k : Z) :
  valid_date (y, m, d) -> valid_date ((y + k * 400)%Z, m, d).
Proof. unfold valid_date. rewrite days_in_month_cycle. tauto. Qed.

(** The civil date of a day is a date of the calendar. *)
Lemma civil_from_days_valid (days : Z) : valid_date (civil_from_days days).
Proof.
  assert (Hcycle : forall n : nat,
            (Z.of_nat n < 146097)%Z ->
            valid_date (civil_from_days (Z.of_nat n - 719468))).
  { induction n as [|n IH]; intros Hn.
    - change (Z.of_nat 0) with 0%Z. rewrite cycle_first.
      unfold valid_date. change (days_in_month 0 3) with 31%Z. lia.
    - rewrite (@cycle_day (Z.of_nat (S n))) by lia.
      apply valid_date_next.
      replace (Z.of_nat (S n) - 1 - 719468)%Z
        with (Z.of_nat n - 719468)%Z by lia.
      apply IH. lia. }
  rewrite (civil_from_days_cycle days).
  set (z := (days + 719468)%Z).
  assert (Hdoe : (0 <= z mod 146097 < 146097)%Z)
    by (apply Z.mod_pos_bound; lia).
  specialize (Hcycle (Z.to_nat (z mod 146097))).
  rewrite Z2Nat.id in Hcycle by lia. specialize (Hcycle ltac:(lia)).
  destruct (civil_from_days (z mod 146097 - 719468)) as [[y m] d].
  apply valid_date_cycle. exact Hcycle.
Qed.

(** The date that follows is a greater number. *)
Lemma date_key_next (date : Z * Z * Z) :
  valid_date date -> (date_key date < date_key (next_day date))%Z.
Proof.
  destruct date as [[y m] d]. unfold valid_date, next_day, date_key.
  intros [Hm Hd]. pose proof (days_in_month_range y m).
  destruct (d <? days_in_month y m)%Z; [lia|].
  destruct (m <? 12)%Z; lia.
Qed.

Lemma civil_key_next (days : Z) :
  (civil_key days < civil_key (days + 1))%Z.
Proof.
  unfold civil_key. rewrite civil_from_days_next.
  apply date_key_next. apply civil_from_days_valid.
Qed.

(** A later day has a later civil date. *)
Lemma civil_key_lt (a b : Z) :
  (a < b)%Z -> (civil_key a < civil_key b)%Z.
Proof.
  intros H.
  replace b with (a + 1 + Z.of_nat (Z.to_nat (b - a - 1)))%Z by lia.
  induction (Z.to_nat (b - a - 1)) as [|n IH].
  - rewrite Z.add_0_r. apply civil_key_next.
  - rewrite Nat2Z.inj_succ.
    replace (a + 1 + Z.succ (Z.of_nat n))%Z
      with (a + 1 + Z.of_nat n + 1)%Z by lia.
    pose proof (civil_key_next (a + 1 + Z.of_nat n)). lia.
Qed.

Lemma civil_key_eq (days y m d : Z) :
  civil_from_days days = (y, m, d) ->
  civil_key days = (y * 10000 + m * 100 + d)%Z.
Proof. intros E. unfold civil_key. rewrite E. reflexivity. Qed.

(** Month and day of the month are in range. *)
Lemma civil_from_days_range (days y m d : Z) :
  civil_from_days days = (y, m, d) ->
  (1 <= m <= 12 /\ 1 <= d <= 31)%Z.
Proof.
  intros E. pose proof (civil_from_days_valid days) as Hv.
  rewrite E in Hv. unfold valid_date in Hv.
  pose proof (days_in_month_range y m). lia.
Qed.

(** *** Digits *)

Lemma digit_code (n : Z) :
  N_of_ascii (digit n) = Z.to_N (48 + n mod 10).
Proof.
  unfold digit.
  assert (H : (0 <= n mod 10 < 10)%Z) by (apply Z.mod_pos_bound; lia).
  assert (E : (n mod 10 = 0 \/ n mod 10 = 1 \/ n mod 10 = 2 \/ n mod 10 = 3
               \/ n mod 10 = 4 \/ n mod 10 = 5 \/ n mod 10 = 6
               \/ n mod 10 = 7 \/ n mod 10 = 8 \/ n mod 10 = 9)%Z) by lia.
  destruct E as [E|[E|[E|[E|[E|[E|[E|[E|[E|E]]]]]]]]]; rewrite E;
    reflexivity.
Qed.

Lemma digit_compare (a b : Z) :
  Ascii_as_OT.compare (digit a) (digit b) = (a mod 10 ?= b mod 10)%Z.
Proof.
  unfold Ascii_as_OT.compare. rewrite !digit_code.
  assert (Ha : (0 <= a mod 10 < 10)%Z) by (apply Z.mod_pos_bound; lia).
  assert (Hb : (0 <= b mod 10 < 10)%Z) by (apply Z.mod_pos_bound; lia).
  change N_as_OT.compare with N.compare.
  rewrite Z2N.inj_compare by lia.
  apply Z.add_compare_mono_l.
Qed.

(** The strings [YYYY-MM-DD] compare as the dates. *)
Lemma date_string_lt (y m d y' m' d' : Z) :
  (0 <= y <= 9999)%Z -> (0 <= m <= 99)%Z -> (0 <= d <= 99)%Z ->
  (0 <= y' <= 9999)%Z -> (0 <= m' <= 99)%Z -> (0 <= d' <= 99)%Z ->
  (y * 10000 + m * 100 + d < y' * 10000 + m' * 100 + d')%Z ->
  String_as_OT.lt
    (pad4 y ++ "-" ++ pad2 m ++ "-" ++ pad2 d)%string
    (pad4 y' ++ "-" ++ pad2 m' ++ "-" ++ pad2 d')%string.
Proof.
  intros Hy Hm Hd Hy' Hm' Hd' Hlt.
  unfold String_as_OT.lt, pad4, pad3, pad2.
  cbn [String.append String_as_OT.compare].
  rewrite !digit_compare.
  change (Ascii_as_OT.compare "-" "-") with Eq.
  repeat match goal with
         | |- context [(?a ?= ?b)%Z] =>
             destruct (Z.compare_spec a b);
             [|reflexivity|exfalso; Z.to_euclidean_division_equations; lia]
         end.
  exfalso. Z.to_euclidean_division_equations. lia.
Qed.

(** 0000-01-01 and 9999-12-31. *)
Lemma civil_key_first : civil_key (-719528) = 101%Z.
Proof. vm_compute. reflexivity. Qed.

Lemma civil_key_last : civil_key 2932896 = 99991231%Z.
Proof. vm_compute. reflexivity. Qed.

Lemma four_digit_year_days (t : Date) :
  four_digit_year t -> (-719528 <= utc_day_number t <= 2932896)%Z.
Proof.
  unfold four_digit_year, utc_day_number. intros H.
  split.
  - apply Z.div_le_lower_bound; lia.
  - apply Z.lt_succ_r. apply Z.div_lt_upper_bound; lia.
Qed.

Lemma civil_key_low (a : Z) :
  (-719528 <= a)%Z -> (101 <= civil_key a)%Z.
Proof.
  intros Hge. destruct (Z.eq_dec a (-719528)) as [->|Hne].
  - rewrite civil_key_first. discriminate.
  - assert (Hl : (-719528 < a)%Z) by lia.
    pose proof (civil_key_lt Hl) as Hk.
    rewrite civil_key_first in Hk.
    revert Hk. generalize (civil_key a). intros k Hk. lia.
Qed.

Lemma civil_key_high (a : Z) :
  (a <= 2932896)%Z -> (civil_key a <= 99991231)%Z.
Proof.
  intros Hle. destruct (Z.eq_dec a 2932896) as [->|Hne].
  - rewrite civil_key_last. discriminate.
  - assert (Hl : (a < 2932896)%Z) by lia.
    pose proof (civil_key_lt Hl) as Hk.
    rewrite civil_key_last in Hk.
    revert Hk. generalize (civil_key a). intros k Hk. lia.
Qed.

(** Within the years of four digits, the strings of the dates are in the
    order of the days. *)
Lemma utc_date_lt (t1 t2 : Date) :
  four_digit_year t1 ->
  four_digit_year t2 ->
  (utc_day_number t1 < utc_day_number t2)%Z ->
  String_as_OT.lt (utc_date t1) (utc_date t2).
Proof.
  intros H1 H2 Hlt.
  apply four_digit_year_days in H1, H2.
  pose proof (civil_key_lt Hlt) as Hkey.
  pose proof (civil_key_low (proj1 H1)) as Ha1.
  pose proof (civil_key_high (proj2 H1)) as Ha2.
  pose proof (civil_key_low (proj1 H2)) as Hb1.
  pose proof (civil_key_high (proj2 H2)) as Hb2.
  destruct (civil_from_days (utc_day_number t1)) as [[y m] d] eqn:E1.
  destruct (civil_from_days (utc_day_number t2)) as [[y' m'] d'] eqn:E2.
  rewrite (civil_key_eq E1) in Hkey, Ha1, Ha2.
  rewrite (civil_key_eq E2) in Hkey, Hb1, Hb2.
  pose proof (civil_from_days_range E1) as Hr1.
  pose proof (civil_from_days_range E2) as Hr2.
  unfold utc_date. rewrite E1, E2.
  apply date_string_lt; lia.
Qed.

(** ** Common followers *)

Lemma filter_nothing {A : Type} (p : A -> bool) (l : list A) :
  (forall a, In a l -> p a = false) -> List.filter p l = [].
Proof.
  induction l as [|a l IH]; simpl; [reflexivity|].
  intros H. rewrite (H a (or_introl eq_refl)). apply IH.
  intros b Hb. apply H. right. exact Hb.
Qed.

Lemma existsb_eqb_In (i : string) (l : list string) :
  existsb (String.eqb i) l = true <-> In i l.
Proof.
  rewrite existsb_exists. split.
  - intros [j [Hj E]]. apply String.eqb_eq in E. subst j. exact Hj.
  - intros H. exists i. split; [exact H|apply String.eqb_refl].
Qed.

Lemma existsb_oid_In (o : ObjectId) (l : list ObjectId) :
  existsb (N.eqb o) l = true <-> In o l.
Proof.
  rewrite existsb_exists. split.
  - intros [j [Hj E]]. apply N.eqb_eq in E. subst j. exact Hj.
  - intros H. exists o. split; [exact H|apply N.eqb_refl].
Qed.

(** The strings of the followers of a document are the [toString()] of
    their identifiers, and of nothing else. *)
Lemma toString_In (o : ObjectId) (l : list FollowerEntry.t) :
  In (toString o) (map (fun f => toString (FollowerEntry.followId f)) l)
  <-> In o (map FollowerEntry.followId l).
Proof.
  rewrite !in_map_iff. split; intros [e [He Hin]]; exists e; split; auto.
  - apply toString_inj. exact He.
  - rewrite He. reflexivity.
Qed.

(** [followers1.filter(f => followers2.includes(f))], cast back by the
    [$in] of the last query, holds the identifiers that are in both
    arrays. *)
Lemma common_member (o : ObjectId) (l1 l2 : list FollowerEntry.t) :
  existsb (fun f => N.eqb o (castObjectId f))
    (List.filter
       (fun f =>
          existsb (String.eqb f)
            (map (fun f => toString (FollowerEntry.followId f)) l2))
       (map (fun f => toString (FollowerEntry.followId f)) l1))
  = true
  <-> In o (map FollowerEntry.followId l1)
      /\ In o (map FollowerEntry.followId l2).
Proof.
  rewrite existsb_exists. split.
  - intros [s [Hs Ho]]. apply N.eqb_eq in Ho.
    apply filter_In in Hs. destruct Hs as [H1 H2].
    apply existsb_eqb_In in H2.
    apply in_map_iff in H1. destruct H1 as [e [<- He]].
    rewrite cast_toString in Ho. subst o. split.
    + apply in_map. exact He.
    + apply toString_In. exact H2.
  - intros [H1 H2]. exists (toString o). split.
    + apply filter_In. split; [apply toString_In; exact H1|].
      apply existsb_eqb_In, toString_In. exact H2.
    + rewrite cast_toString. apply N.eqb_refl.
Qed.

Lemma common_member_sym (o : ObjectId) (l1 l2 : list FollowerEntry.t) :
  existsb (fun f => N.eqb o (castObjectId f))
    (List.filter
       (fun f =>
          existsb (String.eqb f)
            (map (fun f => toString (FollowerEntry.followId f)) l2))
       (map (fun f => toString (FollowerEntry.followId f)) l1))
  = existsb (fun f => N.eqb o (castObjectId f))
      (List.filter
         (fun f =>
            existsb (String.eqb f)
              (map (fun f => toString (FollowerEntry.followId f)) l1))
         (map (fun f => toString (FollowerEntry.followId f)) l2)).
Proof.
  apply eq_true_iff_eq. rewrite !common_member. tauto.
Qed.

Section CommonFollowers.

Context {platform : Mongo}.

(** [getCommonFollowers] as the cascade of its guards and its queries. *)
Lemma getCommonFollowers_steps (userId1 userId2 : string) (st : Store) :
  getCommonFollowers userId1 userId2 st =
  if negb (isValidObjectId userId1) || negb (isValidObjectId userId2)
  then (st, Next ERROR_VALID_ID)
  else if String.eqb userId1 userId2 then (st, Next ERROR_IDS_SAME)
  else
    match find (fun x => N.eqb (_id x) (castObjectId userId1)) st,
          find (fun x => N.eqb (_id x) (castObjectId userId2)) st with
    | Some user1, Some user2 =>
        (st,
         Json 200
           (getSuccessResponse 200 COMMON_FOLLOWERS
              (Some
                 (map (fun x => mkView (_id x) (username x))
                    (List.filter
                       (fun x =>
                          existsb (fun f => N.eqb (_id x) (castObjectId f))
                            (List.filter
                               (fun f =>
                                  existsb (String.eqb f)
                                    (map
                                       (fun f =>
                                          toString (FollowerEntry.followId f))
                                       (followers user2)))
                               (map
                                  (fun f =>
                                     toString (FollowerEntry.followId f))
                                  (followers user1))))
                       st)))))
    | _, _ => (st, Next NOT_FOUND)
    end.
Proof.
  unfold getCommonFollowers, try_catch, bind, throw_if, findById, findOne.
  destruct (negb (isValidObjectId userId1) || negb (isValidObjectId userId2));
    [reflexivity|].
  destruct (String.eqb userId1 userId2); [reflexivity|].
  cbn [ret throw].
  change (id_is (castObjectId userId1))
    with (fun x => N.eqb (_id x) (castObjectId userId1)).
  change (id_is (castObjectId userId2))
    with (fun x => N.eqb (_id x) (castObjectId userId2)).
  destruct (find (fun x => N.eqb (_id x) (castObjectId userId1)) st),
    (find (fun x => N.eqb (_id x) (castObjectId userId2)) st); reflexivity.
Qed.

(** A missing document, on either side, is reported as [NOT_FOUND]. *)
Lemma getCommonFollowers_missing (userId1 userId2 : string) (st : Store) :
  isValidObjectId userId1 = true ->
  isValidObjectId userId2 = true ->
  userId1 <> userId2 ->
  find (fun x => N.eqb (_id x) (castObjectId userId1)) st = None
  \/ find (fun x => N.eqb (_id x) (castObjectId userId2)) st = None ->
  getCommonFollowers userId1 userId2 st = (st, Next NOT_FOUND).
Proof.
  intros H1 H2 Hne Hnone.
  rewrite getCommonFollowers_steps, (valid_guard _ _ H1 H2).
  replace (String.eqb userId1 userId2) with false
    by (symmetry; apply String.eqb_neq; exact Hne).
  destruct Hnone as [-> | ->]; [reflexivity|].
  destruct (find (fun x => N.eqb (_id x) (castObjectId userId1)) st);
    reflexivity.
Qed.

(** C6.  For well-formed, distinct identifiers: when the collection has no
    document for one of them the reply is [NOT_FOUND]; otherwise the reply
    is a success whose payload holds exactly the views [{ _id, username }]
    of the documents of the collection whose [_id] is a follower identifier
    of both users, and is the empty list when the two users have no follower
    identifier in common. *)
Theorem common_followers_spec (userId1 userId2 : string) (st : Store) :
  isValidObjectId userId1 = true ->
  isValidObjectId userId2 = true ->
  userId1 <> userId2 ->
  ((find (fun x => N.eqb (_id x) (castObjectId userId1)) st = None
    \/ find (fun x => N.eqb (_id x) (castObjectId userId2)) st = None) ->
   getCommonFollowers userId1 userId2 st = (st, Next NOT_FOUND))
  /\
  (forall user1 user2,
     find (fun x => N.eqb (_id x) (castObjectId userId1)) st = Some user1 ->
     find (fun x => N.eqb (_id x) (castObjectId userId2)) st = Some user2 ->
     exists details,
       getCommonFollowers userId1 userId2 st
       = (st,
          Json 200
            (getSuccessResponse 200 COMMON_FOLLOWERS (Some details)))
       /\ (forall v,
             In v details <->
             exists x, In x st
                       /\ view_id v = _id x
                       /\ view_username v = username x
                       /\ In (_id x) (follower_ids user1)
                       /\ In (_id x) (follower_ids user2))
       /\ ((forall i, In i (follower_ids user1) ->
                      ~ In i (follower_ids user2)) ->
           details = [])).
Proof.
  intros H1 H2 Hne.
  assert (Hneq : String.eqb userId1 userId2 = false)
    by (apply String.eqb_neq; exact Hne).
  split.
  - apply getCommonFollowers_missing; assumption.
  - intros user1 user2 E1 E2.
    rewrite getCommonFollowers_steps, (valid_guard _ _ H1 H2), Hneq, E1, E2.
    eexists. split; [reflexivity|]. split.
    + intros v. rewrite in_map_iff. split.
      * intros [x [Hv Hx]]. apply filter_In in Hx. destruct Hx as [Hx Hc].
        apply common_member in Hc. exists x. subst v. simpl. tauto.
      * intros [x [Hx [Hid [Hname Hc]]]]. exists x. split.
        -- destruct v as [i n]. simpl in Hid, Hname. subst. reflexivity.
        -- apply filter_In. split; [exact Hx|].
           apply common_member. exact Hc.
    + intros Hdisj. rewrite filter_nothing; [reflexivity|].
      intros x _.
      destruct (existsb _ _) eqn:E; [|reflexivity].
      apply common_member in E. destruct E as [Ha Hb].
      exfalso. exact (Hdisj _ Ha Hb).
Qed.

(** The two orders of the arguments give the same list. *)
Lemma common_followers_same_list (a b : string) (st : Store) :
  isValidObjectId a = true ->
  isValidObjectId b = true ->
  a <> b ->
  getCommonFollowers a b st = getCommonFollowers b a st.
Proof.
  intros Ha Hb Hne.
  rewrite !getCommonFollowers_steps.
  rewrite (valid_guard _ _ Ha Hb), (valid_guard _ _ Hb Ha).
  replace (String.eqb a b) with false
    by (symmetry; apply String.eqb_neq; exact Hne).
  replace (String.eqb b a) with false
    by (symmetry; apply String.eqb_neq; congruence).
  destruct (find (fun x => N.eqb (_id x) (castObjectId a)) st) as [xa|],
    (find (fun x => N.eqb (_id x) (castObjectId b)) st) as [xb|];
    try reflexivity.
  do 5 f_equal. apply filter_ext. intros x. apply common_member_sym.
Qed.

(** C7.  For well-formed, distinct identifiers of two documents of the
    collection, the payloads of [getCommonFollowers] in the two orders of
    its arguments have the same elements. *)
Theorem common_followers_symmetric (a b : string) (st : Store)
  (xa xb : User) :
  isValidObjectId a = true ->
  isValidObjectId b = true ->
  a <> b ->
  find (fun x => N.eqb (_id x) (castObjectId a)) st = Some xa ->
  find (fun x => N.eqb (_id x) (castObjectId b)) st = Some xb ->
  exists l1 l2,
    getCommonFollowers a b st
    = (st, Json 200 (getSuccessResponse 200 COMMON_FOLLOWERS (Some l1)))
    /\ getCommonFollowers b a st
       = (st, Json 200 (getSuccessResponse 200 COMMON_FOLLOWERS (Some l2)))
    /\ (forall v, In v l1 <-> In v l2).
Proof.
  intros Ha Hb Hne Ea Eb.
  rewrite <- (common_followers_same_list st Ha Hb Hne).
  rewrite getCommonFollowers_steps, (valid_guard _ _ Ha Hb), Ea, Eb.
  replace (String.eqb a b) with false
    by (symmetry; apply String.eqb_neq; exact Hne).
  eexists. eexists. split; [reflexivity|]. split; [reflexivity|].
  intros v. reflexivity.
Qed.

End CommonFollowers.

(** A missing user, and the common followers of alice and bob. *)
Lemma common_followers_spec_witness :
  getCommonFollowers (platform := hexMongo) alice_id eve_id four_users
  = (four_users, Next NOT_FOUND)
  /\ exists details,
       getCommonFollowers (platform := hexMongo) alice_id bob_id four_users
       = (four_users,
          Json 200 (getSuccessResponse 200 COMMON_FOLLOWERS (Some details)))
       /\ (forall v,
             In v details <->
             exists x, In x four_users
                       /\ view_id v = _id x
                       /\ view_username v = username x
                       /\ In (_id x) (follower_ids alice_doc)
                       /\ In (_id x) (follower_ids bob_doc))
       /\ ((forall i, In i (follower_ids alice_doc) ->
                      ~ In i (follower_ids bob_doc)) ->
           details = []).
Proof.
  split.
  - apply (@common_followers_spec hexMongo alice_id eve_id four_users);
      [reflexivity|reflexivity|discriminate|].
    right. reflexivity.
  - apply (@common_followers_spec hexMongo alice_id bob_id four_users);
      [reflexivity|reflexivity|discriminate|reflexivity|reflexivity].
Defined.

(** The scenario of the two common followers, evaluated. *)
Example common_followers_of_alice_and_bob :
  getCommonFollowers (platform := hexMongo) alice_id bob_id four_users
  = (four_users,
     Json 200
       (getSuccessResponse 200 COMMON_FOLLOWERS
          (Some [mkView carol_oid "carol"; mkView dave_oid "dave"]))).
Proof. reflexivity. Qed.

(** The same through another spelling of an identifier. *)
Example common_followers_other_spelling :
  getCommonFollowers (platform := hexMongo) alice_id bob_id_upper four_users
  = (four_users,
     Json 200
       (getSuccessResponse 200 COMMON_FOLLOWERS
          (Some [mkView carol_oid "carol"; mkView dave_oid "dave"]))).
Proof. reflexivity. Qed.

(** alice and bob of [four_users], in the two orders. *)
Lemma common_followers_symmetric_witness :
  exists l1 l2,
    getCommonFollowers (platform := hexMongo) alice_id bob_id four_users
    = (four_users,
       Json 200 (getSuccessResponse 200 COMMON_FOLLOWERS (Some l1)))
    /\ getCommonFollowers (platform := hexMongo) bob_id alice_id four_users
       = (four_users,
          Json 200 (getSuccessResponse 200 COMMON_FOLLOWERS (Some l2)))
    /\ (forall v, In v l1 <-> In v l2).
Proof.
  apply (@common_followers_symmetric hexMongo alice_id bob_id four_users
           alice_doc bob_doc);
    [reflexivity|reflexivity|discriminate|reflexivity|reflexivity].
Defined.

(** ** The daily histogram *)

(** *** Grouping *)

Lemma weight_add_to_group (k key : string) (groups : list (string * nat)) :
  weight k (add_to_group key groups)
  = weight k groups + (if String.eqb key k then 1 else 0).
Proof.
  unfold weight. induction groups as [|[k0 c] rest IH]; simpl.
  - destruct (String.eqb key k); reflexivity.
  - destruct (String.eqb_spec k0 key) as [->|Hne]; simpl.
    + destruct (String.eqb key k); simpl; lia.
    + destruct (String.eqb k0 k); simpl; rewrite IH; lia.
Qed.

Lemma weight_fold (k : string) (keys : list string) :
  forall groups,
    weight k (fold_left (fun gs key => add_to_group key gs) keys groups)
    = weight k groups + occurrences k keys.
Proof.
  unfold occurrences.
  induction keys as [|key keys IH]; intros groups; simpl; [lia|].
  rewrite IH, weight_add_to_group.
  destruct (String.eqb key k); simpl; lia.
Qed.

Lemma add_to_group_keys (k key : string) (groups : list (string * nat)) :
  In k (map fst (add_to_group key groups)) ->
  k = key \/ In k (map fst groups).
Proof.
  induction groups as [|[k0 c] rest IH]; simpl.
  - intros [<-|[]]. auto.
  - destruct (String.eqb k0 key); simpl; [tauto|].
    intros [<-|H]; [auto|]. destruct (IH H); auto.
Qed.

Lemma add_to_group_NoDup (key : string) (groups : list (string * nat)) :
  NoDup (map fst groups) -> NoDup (map fst (add_to_group key groups)).
Proof.
  induction groups as [|[k0 c] rest IH]; simpl.
  - intros _. constructor; [simpl; tauto|constructor].
  - intros Hnd. inversion Hnd as [|? ? Hk0 Hrest]; subst.
    destruct (String.eqb_spec k0 key) as [->|Hne]; simpl.
    + constructor; assumption.
    + constructor; [|apply IH; exact Hrest].
      intros H. apply add_to_group_keys in H. destruct H; auto.
Qed.

Lemma add_to_group_positive (key : string) (groups : list (string * nat)) :
  Forall (fun g => 0 < snd g) groups ->
  Forall (fun g => 0 < snd g) (add_to_group key groups).
Proof.
  induction groups as [|[k0 c] rest IH]; simpl.
  - intros _. constructor; [simpl; lia|constructor].
  - intros H. inversion H as [|? ? Hc Hrest]; subst.
    destruct (String.eqb k0 key); constructor; simpl in *; auto; lia.
Qed.

Lemma group_fold_wf (keys : list string) :
  forall groups,
    NoDup (map fst groups) ->
    Forall (fun g => 0 < snd g) groups ->
    NoDup (map fst (fold_left (fun gs key => add_to_group key gs) keys groups))
    /\ Forall (fun g => 0 < snd g)
         (fold_left (fun gs key => add_to_group key gs) keys groups).
Proof.
  induction keys as [|key keys IH]; intros groups Hnd Hpos; simpl; [auto|].
  apply IH; [apply add_to_group_NoDup|apply add_to_group_positive]; assumption.
Qed.

Lemma weight_absent (k : string) (groups : list (string * nat)) :
  ~ In k (map fst groups) -> weight k groups = 0.
Proof.
  unfold weight. induction groups as [|[k0 c] rest IH]; simpl; [reflexivity|].
  intros H. destruct (String.eqb_spec k0 k) as [->|Hne]; [tauto|].
  apply IH. tauto.
Qed.

(** With one group per key and positive counts, the groups are the keys of
    positive weight, each with its weight. *)
Lemma group_weight (k : string) (c : nat) (groups : list (string * nat)) :
  NoDup (map fst groups) ->
  Forall (fun g => 0 < snd g) groups ->
  (In (k, c) groups <-> 0 < c /\ c = weight k groups).
Proof.
  induction groups as [|[k0 c0] rest IH]; intros Hnd Hpos.
  - unfold weight; simpl. split; [tauto|lia].
  - inversion Hnd as [|? ? Hk0 Hrest]; subst.
    inversion Hpos as [|? ? Hc0 Hposrest]; subst. simpl in Hc0.
    specialize (IH Hrest Hposrest).
    assert (Hw : weight k ((k0, c0) :: rest)
                 = if String.eqb k0 k then c0 + weight k rest
                   else weight k rest).
    { unfold weight; simpl. destruct (String.eqb k0 k); reflexivity. }
    rewrite Hw. simpl. destruct (String.eqb_spec k0 k) as [->|Hne].
    + rewrite (weight_absent _ _ Hk0), Nat.add_0_r. split.
      * intros [H|H]; [injection H as <-; auto|].
        exfalso. apply Hk0. change k with (fst (k, c)). apply in_map. exact H.
      * intros [_ ->]. auto.
    + rewrite <- IH. split; [|auto].
      intros [H|H]; [congruence|exact H].
Qed.

(** [$group] gives one group per date, with the number of its documents. *)
Lemma group_count_spec (keys : list string) :
  NoDup (map fst (group_count keys))
  /\ forall k c,
       In (k, c) (group_count keys) <-> 0 < c /\ c = occurrences k keys.
Proof.
  unfold group_count.
  destruct (group_fold_wf keys (groups := [])) as [Hnd Hpos];
    [constructor|constructor|].
  split; [exact Hnd|]. intros k c.
  rewrite (group_weight k c Hnd Hpos), weight_fold. reflexivity.
Qed.

(** *** Sorting *)

Lemma sort_insert_In (g x : string * nat) (sorted : list (string * nat)) :
  In x (sort_insert g sorted) <-> x = g \/ In x sorted.
Proof.
  induction sorted as [|h rest IH]; simpl.
  - intuition auto.
  - destruct (key_leb g h); simpl; [intuition auto|].
    rewrite IH. intuition auto.
Qed.

Lemma sort_by_date_In (x : string * nat) (groups : list (string * nat)) :
  In x (sort_by_date groups) <-> In x groups.
Proof.
  induction groups as [|g rest IH]; simpl; [tauto|].
  rewrite sort_insert_In, IH. intuition auto.
Qed.

Lemma sort_insert_sorted (g : string * nat) (sorted : list (string * nat)) :
  StronglySorted String_as_OT.lt (map fst sorted) ->
  ~ In (fst g) (map fst sorted) ->
  StronglySorted String_as_OT.lt (map fst (sort_insert g sorted)).
Proof.
  induction sorted as [|h rest IH]; simpl; intros Hs Hfresh.
  - constructor; constructor.
  - inversion Hs as [|? ? Hrest Hall]; subst.
    unfold key_leb.
    destruct (String_as_OT.compare_spec (fst g) (fst h)) as [E|Hlt|Hgt];
      simpl.
    + exfalso. apply Hfresh. left. symmetry. exact E.
    + constructor; [exact Hs|]. constructor; [exact Hlt|].
      apply Forall_forall. intros k Hk.
      rewrite Forall_forall in Hall.
      exact (StrictOrder_Transitive _ _ _ Hlt (Hall k Hk)).
    + constructor.
      * apply IH; [exact Hrest|]. intros H. apply Hfresh. right. exact H.
      * apply Forall_forall. intros k Hk. apply in_map_iff in Hk.
        destruct Hk as [x [<- Hx]]. apply sort_insert_In in Hx.
        destruct Hx as [->|Hx]; [exact Hgt|].
        rewrite Forall_forall in Hall. apply Hall. apply in_map. exact Hx.
Qed.

Lemma sort_by_date_sorted (groups : list (string * nat)) :
  NoDup (map fst groups) ->
  StronglySorted String_as_OT.lt (map fst (sort_by_date groups)).
Proof.
  induction groups as [|g rest IH]; simpl; intros Hnd; [constructor|].
  inversion Hnd as [|? ? Hg Hrest]; subst.
  apply sort_insert_sorted; [apply IH; exact Hrest|].
  intros H. apply Hg. apply in_map_iff in H. destruct H as [x [E Hx]].
  apply (proj1 (sort_by_date_In _ _)) in Hx.
  rewrite <- E. apply in_map. exact Hx.
Qed.

Lemma strictly_sorted_NoDup (l : list string) :
  StronglySorted String_as_OT.lt l -> NoDup l.
Proof.
  induction 1 as [|k l Hs IH Hall]; constructor; [|exact IH].
  intros Hin. rewrite Forall_forall in Hall.
  exact (StrictOrder_Irreflexive k (Hall k Hin)).
Qed.

(** In a list sorted by its keys, the element of the smaller key comes
    first. *)
Lemma sorted_before {A : Type} (f : A -> string) (l : list A) (x y : A) :
  StronglySorted String_as_OT.lt (map f l) ->
  In x l -> In y l ->
  String_as_OT.lt (f x) (f y) ->
  exists l1 l2 l3, l = l1 ++ x :: l2 ++ y :: l3.
Proof.
  induction l as [|h t IH]; intros Hs Hx Hy Hlt; [contradiction|].
  simpl in Hs. inversion Hs as [|? ? Hs' Hall]; subst.
  destruct Hx as [->|Hx]; destruct Hy as [->|Hy].
  - exfalso. exact (StrictOrder_Irreflexive _ Hlt).
  - apply in_split in Hy. destruct Hy as [l2 [l3 ->]].
    exists [], l2, l3. reflexivity.
  - exfalso. rewrite Forall_forall in Hall.
    pose proof (Hall (f x) (in_map f _ _ Hx)) as Hhx.
    exact (StrictOrder_Irreflexive _ (StrictOrder_Transitive _ _ _ Hhx Hlt)).
  - destruct (IH Hs' Hx Hy Hlt) as [l1 [l2 [l3 ->]]].
    exists (h :: l1), l2, l3. reflexivity.
Qed.

(** *** The pipeline *)

Lemma project_daily_dates (groups : list (string * nat)) :
  map date (project_daily groups) = map fst groups.
Proof.
  unfold project_daily. rewrite map_map. reflexivity.
Qed.

Lemma project_daily_In (d : string) (c : nat) (groups : list (string * nat)) :
  In (mkDaily d c) (project_daily groups) <-> In (d, c) groups.
Proof.
  unfold project_daily. rewrite in_map_iff. split.
  - intros [[k n] [E H]]. simpl in E. injection E as -> ->. exact H.
  - intros H. exists (d, c). auto.
Qed.

(** [$match] and [$unwind] give the follower edges of the user. *)
Lemma unwind_match (u : ObjectId) (st : Store) :
  unwind_followers (match_id u st) = followers_of st u.
Proof.
  unfold unwind_followers, match_id, id_is.
  induction st as [|x rest IH]; [reflexivity|].
  cbn [List.filter followers_of].
  destruct (N.eqb (_id x) u); cbn [flat_map]; rewrite IH; reflexivity.
Qed.

(** The keys of [$group] are the UTC calendar dates of the edges. *)
Lemma occurrences_dates (d : string) (edges : list FollowerEntry.t) :
  occurrences d
    (map (fun e => dateToString "%Y-%m-%d" (FollowerEntry.date e)) edges)
  = edges_on d edges.
Proof.
  unfold occurrences.
  induction edges as [|e rest IH]; [reflexivity|].
  cbn [map List.filter edges_on]. rewrite dateToString_utc_date.
  destruct (String.eqb (utc_date (FollowerEntry.date e)) d);
    cbn [length]; rewrite IH; reflexivity.
Qed.

Lemma edges_on_positive (e : FollowerEntry.t) (edges : list FollowerEntry.t) :
  In e edges -> 0 < edges_on (utc_date (FollowerEntry.date e)) edges.
Proof.
  induction edges as [|e0 rest IH]; [contradiction|].
  intros [->|Hin]; cbn [edges_on].
  - rewrite String.eqb_refl. lia.
  - destruct (String.eqb _ _); [lia|apply IH; exact Hin].
Qed.

Lemma edges_on_nil (d : string) : edges_on d [] = 0.
Proof. reflexivity. Qed.

(** The pipeline, stage by stage: one document per day on which a follower
    edge of the user falls, with the number of edges of that day, the days
    strictly ascending. *)
Lemma dailyPipeline_spec (userId : string) (st : Store) :
  StronglySorted String_as_OT.lt (map date (dailyPipeline userId st))
  /\ forall d c,
       In (mkDaily d c) (dailyPipeline userId st)
       <-> 0 < c /\ c = edges_on d (followers_of st (castObjectId userId)).
Proof.
  unfold dailyPipeline. rewrite unwind_match.
  set (keys := map (fun e => dateToString "%Y-%m-%d" (FollowerEntry.date e))
                 (followers_of st (castObjectId userId))).
  destruct (group_count_spec keys) as [Hnd Hgroups]. split.
  - rewrite project_daily_dates. apply sort_by_date_sorted. exact Hnd.
  - intros d c.
    rewrite project_daily_In, sort_by_date_In, Hgroups.
    unfold keys. rewrite occurrences_dates. reflexivity.
Qed.

(** The days come in the order of the calendar. *)
Lemma dailyPipeline_chronological (userId : string) (st : Store)
  (e1 e2 : FollowerEntry.t) :
  In e1 (followers_of st (castObjectId userId)) ->
  In e2 (followers_of st (castObjectId userId)) ->
  four_digit_year (FollowerEntry.date e1) ->
  four_digit_year (FollowerEntry.date e2) ->
  (utc_day_number (FollowerEntry.date e1)
   < utc_day_number (FollowerEntry.date e2))%Z ->
  exists before between after c1 c2,
    dailyPipeline userId st
    = before ++ mkDaily (utc_date (FollowerEntry.date e1)) c1
        :: between ++ mkDaily (utc_date (FollowerEntry.date e2)) c2
        :: after.
Proof.
  intros Hin1 Hin2 Hy1 Hy2 Hlt.
  destruct (dailyPipeline_spec userId st) as [Hsorted Hcounts].
  assert (H1 : In (mkDaily (utc_date (FollowerEntry.date e1))
                     (edges_on (utc_date (FollowerEntry.date e1))
                        (followers_of st (castObjectId userId))))
                 (dailyPipeline userId st)).
  { apply Hcounts. split; [apply edges_on_positive; exact Hin1|reflexivity]. }
  assert (H2 : In (mkDaily (utc_date (FollowerEntry.date e2))
                     (edges_on (utc_date (FollowerEntry.date e2))
                        (followers_of st (castObjectId userId))))
                 (dailyPipeline userId st)).
  { apply Hcounts. split; [apply edges_on_positive; exact Hin2|reflexivity]. }
  destruct (sorted_before date _ _ _ Hsorted H1 H2) as [l1 [l2 [l3 E]]].
  { simpl. apply utc_date_lt; assumption. }
  exists l1, l2, l3. eexists. eexists. exact E.
Qed.

Section DailyCounts.

Context {platform : Mongo}.

(** [getFollowersCountDaily] as its guard and its pipeline. *)
Lemma getFollowersCountDaily_steps (userId : string) (st : Store) :
  getFollowersCountDaily userId st =
  if negb (isValidObjectId userId) then (st, Next ERROR_VALID_ID)
  else
    (st,
     Json 200
       (getSuccessResponse 200 SHOW_FOLLOWERS
          (Some (dailyPipeline userId st)))).
Proof.
  unfold getFollowersCountDaily, try_catch, bind, throw_if, aggregate.
  destruct (negb (isValidObjectId userId)); reflexivity.
Qed.

(** C8.  For a well-formed identifier, [getFollowersCountDaily] succeeds
    and its payload holds, for each UTC calendar date [d] (written
    [YYYY-MM-DD]) on which at least one follower edge of the user falls,
    one document [{ date: d, count: c }] with [c] the number of the
    follower edges of that date, and nothing else; the dates are strictly
    ascending as strings, so no date appears twice, and, for the years of
    four digits, the document of an earlier day comes before the document
    of a later day; without follower edges the payload is the empty
    list. *)
Theorem daily_counts_spec (userId : string) (st : Store) :
  isValidObjectId userId = true ->
  exists dailyCounts,
    getFollowersCountDaily userId st
    = (st,
       Json 200 (getSuccessResponse 200 SHOW_FOLLOWERS (Some dailyCounts)))
    /\ StronglySorted String_as_OT.lt (map date dailyCounts)
    /\ NoDup (map date dailyCounts)
    /\ (forall d c,
          In (mkDaily d c) dailyCounts
          <-> 0 < c
              /\ c = edges_on d (followers_of st (castObjectId userId)))
    /\ (forall e1 e2,
          In e1 (followers_of st (castObjectId userId)) ->
          In e2 (followers_of st (castObjectId userId)) ->
          four_digit_year (FollowerEntry.date e1) ->
          four_digit_year (FollowerEntry.date e2) ->
          (utc_day_number (FollowerEntry.date e1)
           < utc_day_number (FollowerEntry.date e2))%Z ->
          exists before between after c1 c2,
            dailyCounts
            = before ++ mkDaily (utc_date (FollowerEntry.date e1)) c1
                :: between ++ mkDaily (utc_date (FollowerEntry.date e2)) c2
                :: after)
    /\ (followers_of st (castObjectId userId) = [] -> dailyCounts = []).
Proof.
  intros Hvalid. exists (dailyPipeline userId st).
  destruct (dailyPipeline_spec userId st) as [Hsorted Hcounts].
  split; [|split; [|split; [|split; [|split]]]].
  - rewrite getFollowersCountDaily_steps, Hvalid. reflexivity.
  - exact Hsorted.
  - apply strictly_sorted_NoDup. exact Hsorted.
  - exact Hcounts.
  - intros e1 e2. apply dailyPipeline_chronological.
  - intros Hnone. unfold dailyPipeline.
    rewrite unwind_match, Hnone. reflexivity.
Qed.

(** C10.  For a well-formed identifier whose ObjectId no document of the
    collection has, [getFollowersCountDaily] succeeds with the empty list,
    while [getCommonFollowers] replies [NOT_FOUND] whichever of its two
    arguments the identifier is. *)
Theorem daily_counts_missing_user (userId : string) (st : Store) :
  isValidObjectId userId = true ->
  (forall x, In x st -> _id x <> castObjectId userId) ->
  getFollowersCountDaily userId st
  = (st, Json 200 (getSuccessResponse 200 SHOW_FOLLOWERS (Some [])))
  /\ forall other,
       isValidObjectId other = true ->
       other <> userId ->
       getCommonFollowers userId other st = (st, Next NOT_FOUND)
       /\ getCommonFollowers other userId st = (st, Next NOT_FOUND).
Proof.
  intros Hvalid Hmissing.
  assert (Hnone : find (fun x => N.eqb (_id x) (castObjectId userId)) st
                  = None).
  { apply find_none_iff. intros x Hx.
    apply N.eqb_neq. apply Hmissing. exact Hx. }
  split.
  - rewrite getFollowersCountDaily_steps, Hvalid. simpl.
    unfold dailyPipeline, match_id.
    rewrite filter_nothing; [reflexivity|].
    apply find_none_iff. exact Hnone.
  - intros other Hother Hne. split.
    + apply getCommonFollowers_missing; auto.
    + apply getCommonFollowers_missing; auto.
Qed.

End DailyCounts.

(** The histogram of bob in [four_users], with the UTC calendar day. *)
Lemma daily_counts_spec_witness :
  exists dailyCounts,
    getFollowersCountDaily (platform := hexMongo) bob_id four_users
    = (four_users,
       Json 200 (getSuccessResponse 200 SHOW_FOLLOWERS (Some dailyCounts)))
    /\ StronglySorted String_as_OT.lt (map date dailyCounts)
    /\ NoDup (map date dailyCounts)
    /\ (forall d c,
          In (mkDaily d c) dailyCounts
          <-> 0 < c /\ c = edges_on d (followers_of four_users bob_oid))
    /\ (forall e1 e2,
          In e1 (followers_of four_users bob_oid) ->
          In e2 (followers_of four_users bob_oid) ->
          four_digit_year (FollowerEntry.date e1) ->
          four_digit_year (FollowerEntry.date e2) ->
          (utc_day_number (FollowerEntry.date e1)
           < utc_day_number (FollowerEntry.date e2))%Z ->
          exists before between after c1 c2,
            dailyCounts
            = before ++ mkDaily (utc_date (FollowerEntry.date e1)) c1
                :: between ++ mkDaily (utc_date (FollowerEntry.date e2)) c2
                :: after)
    /\ (followers_of four_users bob_oid = [] -> dailyCounts = []).
Proof.
  apply (@daily_counts_spec hexMongo bob_id four_users). reflexivity.
Defined.

(** bob got two followers on 2024-07-21 and one on 2024-07-22. *)
Example daily_counts_of_bob :
  getFollowersCountDaily (platform := hexMongo) bob_id four_users
  = (four_users,
     Json 200
       (getSuccessResponse 200 SHOW_FOLLOWERS
          (Some [mkDaily "2024-07-21" 2; mkDaily "2024-07-22" 1]))).
Proof. reflexivity. Qed.

(** The same through the other spelling of the identifier. *)
Example daily_counts_other_spelling :
  getFollowersCountDaily (platform := hexMongo) bob_id_upper four_users
  = (four_users,
     Json 200
       (getSuccessResponse 200 SHOW_FOLLOWERS
          (Some [mkDaily "2024-07-21" 2; mkDaily "2024-07-22" 1]))).
Proof. reflexivity. Qed.

(** The scenario of the specification: alice follows bob, and bob's daily
    counts hold one entry, for the day of the follow, with count 1. *)
Example daily_counts_after_follow :
  getFollowersCountDaily (platform := hexMongo) bob_id
    (fst (followUser (platform := hexMongo) day0 day0 alice_id bob_id
            two_users))
  = (fst (followUser (platform := hexMongo) day0 day0 alice_id bob_id
            two_users),
     Json 200
       (getSuccessResponse 200 SHOW_FOLLOWERS
          (Some [mkDaily "2024-07-20" 1]))).
Proof. reflexivity. Qed.

(** No document of [four_users] has the identifier [eve_id]. *)
Lemma daily_counts_missing_user_witness :
  getFollowersCountDaily (platform := hexMongo) eve_id four_users
  = (four_users, Json 200 (getSuccessResponse 200 SHOW_FOLLOWERS (Some [])))
  /\ forall other,
       isValidObjectId (Mongo := hexMongo) other = true ->
       other <> eve_id ->
       getCommonFollowers (platform := hexMongo) eve_id other four_users
       = (four_users, Next NOT_FOUND)
       /\ getCommonFollowers (platform := hexMongo) other eve_id four_users
          = (four_users, Next NOT_FOUND).
Proof.
  apply (@daily_counts_missing_user hexMongo eve_id four_users);
    [reflexivity|].
  intros x [<-|[<-|[<-|[<-|[]]]]]; discriminate.
Defined.

(** ** The collections the controllers build *)

Lemma update_first_all (P : User -> Prop) (p : User -> bool)
  (h : User -> User) (st : Store) :
  (forall x, In x st -> P x) ->
  (forall x, P x -> p x = true -> P (h x)) ->
  forall y, In y (update_first p h st) -> P y.
Proof.
  intros Hst Hh y Hy. apply update_first_from in Hy.
  destruct Hy as [Hy|[x [Hx [Hp ->]]]]; auto.
Qed.

Lemma count_following_push_any (g f : ObjectId) (d : Date) (x : User) :
  count_following g (push_followings (FollowingEntry.mk f d) x)
  = count_following g x + (if N.eqb f g then 1 else 0).
Proof.
  unfold count_following, push_followings; simpl.
  rewrite filter_app, length_app. simpl.
  destruct (N.eqb f g); reflexivity.
Qed.

Lemma count_following_pull (g f : ObjectId) (x : User) :
  count_following g (pull_followings f x) <= count_following g x.
Proof.
  unfold count_following, pull_followings; simpl.
  induction (followings x) as [|e l IH]; simpl; [lia|].
  destruct (N.eqb (FollowingEntry.followingId e) f); simpl;
    destruct (N.eqb (FollowingEntry.followingId e) g); simpl; lia.
Qed.

Lemma createUser_store (newId : ObjectId) (name : string) (st : Store) :
  fst (createUser newId name st) = st
  \/ fst (createUser newId name st) = st ++ [mkUser newId name [] []].
Proof.
  unfold createUser, try_catch, bind, throw_if, findOne, create.
  destruct (utf16_length name <? 3); [left; reflexivity|].
  cbn [ret]. destruct (find (username_is name) st); cbn; auto.
Qed.

Section Reachable.

Context {platform : Mongo}.

(** Every collection the controllers build is keyed by [_id] and holds at
    most one entry per followee in each document. *)
Lemma reachable_wf (st : Store) :
  reachable st -> NoDup (map _id st) /\ edge_unique st.
Proof.
  induction 1 as [|newId name st Hr [Hnd Hu] Hfresh
                  |now1 now2 u f st Hr [Hnd Hu]
                  |u f st Hr [Hnd Hu]].
  - split; [constructor|]. intros x f [].
  - destruct (createUser_store newId name st) as [-> | ->]; [auto|].
    split.
    + rewrite map_app. simpl.
      apply NoDup_rev in Hnd. rewrite <- (rev_involutive (_ ++ _)).
      apply NoDup_rev. rewrite rev_app_distr. simpl.
      constructor; [|exact Hnd]. rewrite <- in_rev. exact Hfresh.
    + intros x f Hx. apply in_app_or in Hx.
      destruct Hx as [Hx|[<-|[]]]; [apply Hu; exact Hx|].
      unfold count_following; simpl. lia.
  - rewrite followUser_steps.
    destruct (negb (isValidObjectId u) || negb (isValidObjectId f));
      [auto|].
    destruct (String.eqb u f); [auto|].
    destruct (existsb
                (lacks_following (castObjectId u) (castObjectId f)) st)
      eqn:E1; [|auto].
    cbv zeta.
    assert (Hu1 : edge_unique
                    (update_first
                       (lacks_following (castObjectId u) (castObjectId f))
                       (push_followings
                          (FollowingEntry.mk (castObjectId f) now1)) st)).
    { intros y g Hy. revert y Hy.
      apply update_first_all; [intros x Hx; apply Hu; exact Hx|].
      intros x Hx Hp. rewrite count_following_push_any.
      unfold lacks_following in Hp. apply andb_prop in Hp.
      destruct Hp as [_ Hp]. apply negb_true_iff in Hp.
      destruct (N.eqb_spec (castObjectId f) g) as [<-|Hne]; [|lia].
      rewrite (count_following_absent _ _ Hp). lia. }
    destruct (existsb (lacks_follower (castObjectId f) (castObjectId u)) _);
      simpl.
    + split; [rewrite !update_first_map by reflexivity; exact Hnd|].
      intros y g Hy. revert y Hy.
      apply update_first_all; [intros x Hx; apply Hu1; exact Hx|].
      intros x Hx _. exact Hx.
    + split; [rewrite update_first_map by reflexivity; exact Hnd|].
      exact Hu1.
  - rewrite unfollowUser_steps.
    destruct (negb (isValidObjectId u) || negb (isValidObjectId f));
      [auto|].
    destruct (String.eqb u f); [auto|].
    destruct (existsb
                (holds_following (castObjectId u) (castObjectId f)) st)
      eqn:E1; [|auto].
    cbv zeta.
    assert (Hu1 : edge_unique
                    (update_first
                       (holds_following (castObjectId u) (castObjectId f))
                       (pull_followings (castObjectId f)) st)).
    { intros y g Hy. revert y Hy.
      apply update_first_all; [intros x Hx; apply Hu; exact Hx|].
      intros x Hx _.
      pose proof (count_following_pull g (castObjectId f) x). lia. }
    destruct (existsb (holds_follower (castObjectId f) (castObjectId u)) _);
      simpl.
    + split; [rewrite !update_first_map by reflexivity; exact Hnd|].
      intros y g Hy. revert y Hy.
      apply update_first_all; [intros x Hx; apply Hu1; exact Hx|].
      intros x Hx _. exact Hx.
    + split; [rewrite update_first_map by reflexivity; exact Hnd|].
      exact Hu1.
Qed.

End Reachable.

(** * Further properties of the controllers *)

(** ** Unfollowing *)

(** A document survives [update_first] as itself, or it matched and its
    update is in the result. *)
Lemma update_first_keeps_or_hit (p : User -> bool) (h : User -> User)
  (st : Store) (x : User) :
  In x st ->
  In x (update_first p h st)
  \/ (p x = true /\ In (h x) (update_first p h st)).
Proof.
  induction st as [|y rest IH]; simpl; [tauto|].
  intros [->|Hx].
  - destruct (p x) eqn:E; simpl; auto.
  - destruct (p y); simpl; [auto|]. destruct (IH Hx) as [H|[H1 H2]]; auto.
Qed.

(** With [_id] a key, an update that falsifies its own filter leaves no
    document that matches it. *)
Lemma update_first_clears (u : ObjectId) (p : User -> bool)
  (h : User -> User) (st : Store) :
  NoDup (map _id st) ->
  (forall x, p x = true -> _id x = u) ->
  (forall x, p (h x) = false) ->
  existsb p (update_first p h st) = false.
Proof.
  intros Hnd Hid Hh.
  rewrite (update_first_pointwise (u := u)) by assumption.
  apply existsb_false_forall. intros y Hy.
  apply in_map_iff in Hy. destruct Hy as [x [<- Hx]].
  destruct (p x) eqn:E; [apply Hh|exact E].
Qed.

Lemma has_following_pull (f : ObjectId) (x : User) :
  has_following f (pull_followings f x) = false.
Proof.
  unfold has_following, pull_followings; simpl.
  induction (followings x) as [|e l IH]; simpl; [reflexivity|].
  destruct (N.eqb (FollowingEntry.followingId e) f) eqn:E; simpl;
    [exact IH|]. rewrite E. exact IH.
Qed.

Lemma has_follower_pull (u : ObjectId) (x : User) :
  has_follower u (pull_followers u x) = false.
Proof.
  unfold has_follower, pull_followers; simpl.
  induction (followers x) as [|e l IH]; simpl; [reflexivity|].
  destruct (N.eqb (FollowerEntry.followId e) u) eqn:E; simpl;
    [exact IH|]. rewrite E. exact IH.
Qed.

Lemma holds_following_id (u f : ObjectId) (x : User) :
  holds_following u f x = true -> _id x = u.
Proof.
  unfold holds_following. intros H. apply andb_prop in H.
  destruct H as [H _]. apply N.eqb_eq. exact H.
Qed.

Lemma holds_follower_id (f u : ObjectId) (x : User) :
  holds_follower f u x = true -> _id x = f.
Proof.
  unfold holds_follower. intros H. apply andb_prop in H.
  destruct H as [H _]. apply N.eqb_eq. exact H.
Qed.

(** After the first pull of an unfollow on a collection keyed by [_id], the
    outgoing side of the edge is gone. *)
Lemma pull_followings_clears (u f : ObjectId) (st : Store) :
  NoDup (map _id st) ->
  existsb (holds_following u f)
    (update_first (holds_following u f) (pull_followings f) st) = false.
Proof.
  intros Hnd. apply (update_first_clears (u := u)); [exact Hnd| |].
  - apply holds_following_id.
  - intros x. unfold holds_following.
    rewrite has_following_pull. apply andb_false_r.
Qed.

Lemma pull_followers_clears (f u : ObjectId) (st : Store) :
  NoDup (map _id st) ->
  existsb (holds_follower f u)
    (update_first (holds_follower f u) (pull_followers u) st) = false.
Proof.
  intros Hnd. apply (update_first_clears (u := f)); [exact Hnd| |].
  - apply holds_follower_id.
  - intros x. unfold holds_follower.
    rewrite has_follower_pull. apply andb_false_r.
Qed.

Lemma holds_following_none (st : Store) (u f : ObjectId) :
  (forall x, In x st -> _id x = u -> has_following f x = false) ->
  existsb (holds_following u f) st = false.
Proof.
  intros H. apply existsb_false_forall. intros x Hx. unfold holds_following.
  destruct (N.eqb_spec (_id x) u) as [E|E]; [|reflexivity].
  rewrite (H x Hx E). reflexivity.
Qed.

Lemma holds_following_some (st : Store) (u f : ObjectId) :
  (exists x, In x st /\ _id x = u /\ has_following f x = true) ->
  existsb (holds_following u f) st = true.
Proof.
  intros [x [Hx [Hid Hf]]]. apply existsb_exists. exists x.
  split; [exact Hx|]. unfold holds_following.
  rewrite Hid, N.eqb_refl, Hf. reflexivity.
Qed.

Lemma holds_follower_none (st : Store) (f u : ObjectId) :
  (forall x, In x st -> _id x = f -> has_follower u x = false) ->
  existsb (holds_follower f u) st = false.
Proof.
  intros H. apply existsb_false_forall. intros x Hx. unfold holds_follower.
  destruct (N.eqb_spec (_id x) f) as [E|E]; [|reflexivity].
  rewrite (H x Hx E). reflexivity.
Qed.

Section Unfollow.

Context {platform : Mongo}.

(** X1.  On a collection keyed by [_id], an unfollow that succeeds leaves the
    edge on neither side: no entry for [unfollowId] in the followings of
    [userId], no entry for [userId] in the followers of [unfollowId] (every
    matching element of the array is pulled, not only the first). *)
Theorem unfollow_success_removes_edge (userId unfollowId : string)
  (st st' : Store) (code : Z) (body : SuccessResponse unit) :
  NoDup (map _id st) ->
  unfollowUser userId unfollowId st = (st', Json code body) ->
  ~ following_edge st' (castObjectId userId) (castObjectId unfollowId)
  /\ ~ follower_edge st' (castObjectId unfollowId)
       (castObjectId userId).
Proof.
  intros Hnd. rewrite unfollowUser_steps.
  destruct (negb (isValidObjectId userId)
            || negb (isValidObjectId unfollowId)); [discriminate|].
  destruct (String.eqb userId unfollowId); [discriminate|].
  destruct (existsb (holds_following (castObjectId userId)
     (castObjectId unfollowId)) st); [|discriminate].
  cbv zeta.
  destruct (existsb (holds_follower (castObjectId unfollowId)
     (castObjectId userId)) _); [|discriminate].
  intros H. injection H as <- _ _.
  rewrite following_edge_existsb, follower_edge_existsb. split.
  - rewrite update_first_existsb by reflexivity.
    rewrite pull_followings_clears by exact Hnd. discriminate.
  - rewrite pull_followers_clears; [discriminate|].
    rewrite update_first_map by reflexivity. exact Hnd.
Qed.

(** X2.  The two steps of an unfollow, for well-formed distinct identifiers:
    when no document of [userId] holds the edge nothing is written and the
    reply is [ERROR_UPDATE_UNFOLLOWING]; when the first pull matches and no
    document of [unfollowId] holds [userId] as a follower, the first pull is
    kept, no followers array is changed and the reply is
    [ERROR_UPDATE_UNFOLLOWERS]. *)
Theorem unfollow_two_step_order (userId unfollowId : string) (st : Store) :
  isValidObjectId userId = true ->
  isValidObjectId unfollowId = true ->
  userId <> unfollowId ->
  ((forall x, In x st -> _id x = castObjectId userId ->
      has_following (castObjectId unfollowId) x = false) ->
   unfollowUser userId unfollowId st = (st, Next ERROR_UPDATE_UNFOLLOWING))
  /\
  ((exists x, In x st /\ _id x = castObjectId userId
              /\ has_following (castObjectId unfollowId) x = true) ->
   (forall x, In x st -> _id x = castObjectId unfollowId ->
      has_follower (castObjectId userId) x = false) ->
   let st1 :=
     update_first (holds_following (castObjectId userId)
     (castObjectId unfollowId))
       (pull_followings (castObjectId unfollowId)) st in
   unfollowUser userId unfollowId st = (st1, Next ERROR_UPDATE_UNFOLLOWERS)
   /\ map followers st1 = map followers st
   /\ (NoDup (map _id st) -> ~ following_edge st1 (castObjectId userId)
        (castObjectId unfollowId))).
Proof.
  intros Hu Hf Hne.
  assert (Hneq : String.eqb userId unfollowId = false)
    by (apply String.eqb_neq; exact Hne).
  split.
  - intros H1. rewrite unfollowUser_steps, (valid_guard _ _ Hu Hf), Hneq.
    rewrite holds_following_none by exact H1. reflexivity.
  - intros H1 H2 st1.
    assert (E1 : existsb (holds_following (castObjectId userId)
     (castObjectId unfollowId)) st = true)
      by (apply holds_following_some; exact H1).
    assert (E2 : existsb (holds_follower (castObjectId unfollowId)
     (castObjectId userId)) st1 = false).
    { unfold st1. rewrite update_first_existsb by reflexivity.
      apply holds_follower_none. exact H2. }
    split; [|split].
    + rewrite unfollowUser_steps, (valid_guard _ _ Hu Hf), Hneq, E1.
      cbv zeta. fold st1. rewrite E2. reflexivity.
    + apply update_first_map. reflexivity.
    + intros Hnd. rewrite following_edge_existsb. unfold st1.
      rewrite pull_followings_clears by exact Hnd. discriminate.
Qed.

(** X3.  Whatever the first unfollow replies, on a collection keyed by [_id]
    a second unfollow of the same pair replies [ERROR_UPDATE_UNFOLLOWING]
    and writes nothing. *)
Theorem unfollow_twice (userId unfollowId : string) (st st1 : Store)
  (r1 : Reply unit) :
  isValidObjectId userId = true ->
  isValidObjectId unfollowId = true ->
  userId <> unfollowId ->
  NoDup (map _id st) ->
  unfollowUser userId unfollowId st = (st1, r1) ->
  unfollowUser userId unfollowId st1 = (st1, Next ERROR_UPDATE_UNFOLLOWING).
Proof.
  intros Hu Hf Hne Hnd Hfirst.
  assert (Hneq : String.eqb userId unfollowId = false)
    by (apply String.eqb_neq; exact Hne).
  assert (Hgone : existsb (holds_following (castObjectId userId)
     (castObjectId unfollowId)) st1 = false).
  { revert Hfirst.
    rewrite unfollowUser_steps, (valid_guard _ _ Hu Hf), Hneq.
    destruct (existsb (holds_following (castObjectId userId)
     (castObjectId unfollowId)) st) eqn:E1.
    - cbv zeta.
      destruct (existsb (holds_follower (castObjectId unfollowId)
     (castObjectId userId)) _);
        intros H; injection H as <- _.
      + rewrite update_first_existsb by reflexivity.
        apply pull_followings_clears. exact Hnd.
      + apply pull_followings_clears. exact Hnd.
    - intros H. injection H as <- _. exact E1. }
  rewrite unfollowUser_steps, (valid_guard _ _ Hu Hf), Hneq, Hgone.
  reflexivity.
Qed.

End Unfollow.

(** ** Guards, and what the controllers leave alone *)

Lemma follower_entry_kept (p : User -> bool) (h : User -> User)
  (st : Store) (f : ObjectId) (e : FollowerEntry.t) :
  (forall x, _id (h x) = _id x) ->
  (forall x, In e (followers x) -> In e (followers (h x))) ->
  follower_entry st f e -> follower_entry (update_first p h st) f e.
Proof.
  intros Hid Hfs [x [Hx [Hu He]]].
  destruct (update_first_keeps p h st x Hx) as [H|H].
  - exists x. auto.
  - exists (h x). rewrite Hid. auto.
Qed.

(** An outgoing entry of the result was there before, or is in the update
    of a document that matched. *)
Lemma following_entry_after (p : User -> bool) (h : User -> User)
  (st : Store) (u : ObjectId) (e : FollowingEntry.t) :
  (forall x, _id (h x) = _id x) ->
  following_entry (update_first p h st) u e ->
  following_entry st u e
  \/ exists x, In x st /\ p x = true /\ _id x = u /\ In e (followings (h x)).
Proof.
  intros Hid [y [Hy [Hu He]]]. apply update_first_from in Hy.
  destruct Hy as [Hy|[x [Hx [Hp ->]]]].
  - left. exists y. auto.
  - right. exists x. rewrite Hid in Hu. auto.
Qed.

Lemma follower_entry_after (p : User -> bool) (h : User -> User)
  (st : Store) (f : ObjectId) (e : FollowerEntry.t) :
  (forall x, _id (h x) = _id x) ->
  follower_entry (update_first p h st) f e ->
  follower_entry st f e
  \/ exists x, In x st /\ p x = true /\ _id x = f /\ In e (followers (h x)).
Proof.
  intros Hid [y [Hy [Hu He]]]. apply update_first_from in Hy.
  destruct Hy as [Hy|[x [Hx [Hp ->]]]].
  - left. exists y. auto.
  - right. exists x. rewrite Hid in Hu. auto.
Qed.

Lemma lacks_follower_id (f u : ObjectId) (x : User) :
  lacks_follower f u x = true -> _id x = f.
Proof.
  unfold lacks_follower. intros H. apply andb_prop in H.
  destruct H as [H _]. apply N.eqb_eq. exact H.
Qed.

Lemma lacks_follower_some (st : Store) (f u : ObjectId) :
  (exists x, In x st /\ _id x = f /\ has_follower u x = false) ->
  existsb (lacks_follower f u) st = true.
Proof.
  intros [x [Hx [Hid Hf]]]. apply existsb_exists. exists x.
  split; [exact Hx|]. unfold lacks_follower.
  rewrite Hid, N.eqb_refl, Hf. reflexivity.
Qed.

Lemma lacks_following_exists (st : Store) (u f : ObjectId) :
  existsb (lacks_following u f) st = true ->
  exists x, In x st /\ _id x = u /\ has_following f x = false.
Proof.
  intros H. apply existsb_exists in H. destruct H as [x [Hx Hp]].
  exists x. split; [exact Hx|]. unfold lacks_following in Hp.
  apply andb_prop in Hp. destruct Hp as [Hid Hf].
  apply N.eqb_eq in Hid. apply negb_true_iff in Hf. auto.
Qed.

Lemma lacks_follower_exists (st : Store) (f u : ObjectId) :
  existsb (lacks_follower f u) st = true ->
  exists x, In x st /\ _id x = f /\ has_follower u x = false.
Proof.
  intros H. apply existsb_exists in H. destruct H as [x [Hx Hp]].
  exists x. split; [exact Hx|]. unfold lacks_follower in Hp.
  apply andb_prop in Hp. destruct Hp as [Hid Hf].
  apply N.eqb_eq in Hid. apply negb_true_iff in Hf. auto.
Qed.

(** An update that keeps [_id] and [followings] keeps the outgoing entries
    as they are. *)
Lemma following_entry_same (p : User -> bool) (h : User -> User)
  (st : Store) (u : ObjectId) (e : FollowingEntry.t) :
  (forall x, _id (h x) = _id x) ->
  (forall x, followings (h x) = followings x) ->
  following_entry (update_first p h st) u e <-> following_entry st u e.
Proof.
  intros Hid Hfs. split.
  - intros H. apply following_entry_after in H; [|exact Hid].
    destruct H as [H|[x [Hx [_ [Hu He]]]]]; [exact H|].
    rewrite Hfs in He. exists x. auto.
  - apply following_entry_kept; [exact Hid|].
    intros x He. rewrite Hfs. exact He.
Qed.

Lemma follower_entry_same (p : User -> bool) (h : User -> User)
  (st : Store) (f : ObjectId) (e : FollowerEntry.t) :
  (forall x, _id (h x) = _id x) ->
  (forall x, followers (h x) = followers x) ->
  follower_entry (update_first p h st) f e <-> follower_entry st f e.
Proof.
  intros Hid Hfs. split.
  - intros H. apply follower_entry_after in H; [|exact Hid].
    destruct H as [H|[x [Hx [_ [Hu He]]]]]; [exact H|].
    rewrite Hfs in He. exists x. auto.
  - apply follower_entry_kept; [exact Hid|].
    intros x He. rewrite Hfs. exact He.
Qed.

(** The first write of a follow adds its entry and nothing else. *)
Lemma push_followings_entries (now1 : Date) (userId followId : ObjectId)
  (st : Store) :
  existsb (lacks_following userId followId) st = true ->
  forall u e,
    following_entry
      (update_first (lacks_following userId followId)
         (push_followings (FollowingEntry.mk followId now1)) st) u e
    <-> following_entry st u e
        \/ (u = userId /\ e = FollowingEntry.mk followId now1).
Proof.
  intros E1 u e. split.
  - intros H. apply following_entry_after in H; [|reflexivity].
    destruct H as [H|[x [Hx [Hp [Hid He]]]]]; [auto|].
    simpl in He. apply in_app_or in He. destruct He as [He|[<-|[]]].
    + left. exists x. auto.
    + right. rewrite <- Hid, (lacks_following_id _ _ _ Hp). auto.
  - intros [H|[-> ->]].
    + revert H. apply following_entry_kept; [reflexivity|].
      intros x He. simpl. apply in_or_app. auto.
    + apply step1_entry. exact E1.
Qed.

(** The second write of a follow adds its entry and nothing else. *)
Lemma push_followers_entries (now2 : Date) (userId followId : ObjectId)
  (st : Store) :
  existsb (lacks_follower followId userId) st = true ->
  forall f e,
    follower_entry
      (update_first (lacks_follower followId userId)
         (push_followers (FollowerEntry.mk userId now2)) st) f e
    <-> follower_entry st f e
        \/ (f = followId /\ e = FollowerEntry.mk userId now2).
Proof.
  intros E2 f e. split.
  - intros H. apply follower_entry_after in H; [|reflexivity].
    destruct H as [H|[x [Hx [Hp [Hid He]]]]]; [auto|].
    simpl in He. apply in_app_or in He. destruct He as [He|[<-|[]]].
    + left. exists x. auto.
    + right. rewrite <- Hid, (lacks_follower_id _ _ _ Hp). auto.
  - intros [H|[-> ->]].
    + revert H. apply follower_entry_kept; [reflexivity|].
      intros x He. simpl. apply in_or_app. auto.
    + apply step2_entry. exact E2.
Qed.

Section Guards.

Context {platform : Mongo}.

(** X4.  A malformed identifier, in any position, is refused with
    [ERROR_VALID_ID] before anything is read or written, by the four
    controllers that take identifiers. *)
Theorem malformed_identifier_refused (bad other : string) (now1 now2 : Date)
  (st : Store) :
  isValidObjectId bad = false ->
  followUser now1 now2 bad other st = (st, Next ERROR_VALID_ID)
  /\ followUser now1 now2 other bad st = (st, Next ERROR_VALID_ID)
  /\ unfollowUser bad other st = (st, Next ERROR_VALID_ID)
  /\ unfollowUser other bad st = (st, Next ERROR_VALID_ID)
  /\ getCommonFollowers bad other st = (st, Next ERROR_VALID_ID)
  /\ getCommonFollowers other bad st = (st, Next ERROR_VALID_ID)
  /\ getFollowersCountDaily bad st = (st, Next ERROR_VALID_ID).
Proof.
  intros Hbad.
  rewrite !followUser_steps, !unfollowUser_steps, !getCommonFollowers_steps,
    getFollowersCountDaily_steps, Hbad.
  simpl. rewrite orb_true_r. repeat split; reflexivity.
Qed.

(** X5.  Unfollowing oneself and asking for the followers one has in common
    with oneself are refused without a read or a write: with
    [ERROR_IDS_SAME] for a well-formed identifier, with [ERROR_VALID_ID],
    by the guard that runs first, for a malformed one. *)
Theorem same_identifier_refused (u : string) (st : Store) :
  unfollowUser u u st
  = (st, Next (if isValidObjectId u then ERROR_IDS_SAME else ERROR_VALID_ID))
  /\ getCommonFollowers u u st
     = (st,
        Next (if isValidObjectId u then ERROR_IDS_SAME else ERROR_VALID_ID)).
Proof.
  rewrite unfollowUser_steps, getCommonFollowers_steps, String.eqb_refl.
  destruct (isValidObjectId u); split; reflexivity.
Qed.

(** X7.  Follow and unfollow never create, delete, reorder or rename a
    document: whatever they reply, the identifiers and the names of the
    collection are the same, in the same order. *)
Theorem edge_mutations_keep_documents (now1 now2 : Date) (u f : string)
  (st : Store) :
  (map _id (fst (followUser now1 now2 u f st)) = map _id st
   /\ map username (fst (followUser now1 now2 u f st)) = map username st)
  /\ (map _id (fst (unfollowUser u f st)) = map _id st
      /\ map username (fst (unfollowUser u f st)) = map username st).
Proof.
  rewrite followUser_steps, unfollowUser_steps.
  destruct (negb (isValidObjectId u) || negb (isValidObjectId f));
    [auto|].
  destruct (String.eqb u f); [auto|]. split.
  - destruct (existsb _ st); [|auto]. cbv zeta.
    destruct (existsb _ _); simpl;
      rewrite !update_first_map by reflexivity; auto.
  - destruct (existsb _ st); [|auto]. cbv zeta.
    destruct (existsb _ _); simpl;
      rewrite !update_first_map by reflexivity; auto.
Qed.

(** X8.  A follow succeeds exactly when both identifiers are well-formed and
    distinct, some document of [userId] does not yet hold the edge, and some
    document of [followId] does not yet hold [userId] as a follower. *)
Theorem follow_succeeds_iff (now1 now2 : Date) (userId followId : string)
  (st : Store) :
  (exists st' code body,
     followUser now1 now2 userId followId st = (st', Json code body))
  <->
  (isValidObjectId userId = true
   /\ isValidObjectId followId = true
   /\ userId <> followId
   /\ (exists x, In x st /\ _id x = castObjectId userId
                 /\ has_following (castObjectId followId) x = false)
   /\ (exists x, In x st /\ _id x = castObjectId followId
                 /\ has_follower (castObjectId userId) x = false)).
Proof.
  rewrite followUser_steps. split.
  - intros [st' [code [body H]]].
    destruct (isValidObjectId userId); [|discriminate].
    destruct (isValidObjectId followId); [|discriminate].
    simpl in H.
    destruct (String.eqb_spec userId followId) as [|Hne]; [discriminate|].
    destruct (existsb
                (lacks_following (castObjectId userId)
                   (castObjectId followId)) st) eqn:E1;
      [|discriminate].
    cbv zeta in H.
    destruct (existsb
                (lacks_follower (castObjectId followId)
                   (castObjectId userId)) _) eqn:E2;
      [|discriminate].
    rewrite update_first_existsb in E2 by reflexivity.
    repeat split; auto.
    + apply lacks_following_exists. exact E1.
    + apply lacks_follower_exists. exact E2.
  - intros [Hu [Hf [Hne [H1 H2]]]].
    rewrite (valid_guard _ _ Hu Hf).
    replace (String.eqb userId followId) with false
      by (symmetry; apply String.eqb_neq; exact Hne).
    rewrite lacks_following_some by exact H1. cbv zeta.
    rewrite update_first_existsb by reflexivity.
    rewrite lacks_follower_some by exact H2.
    eexists. eexists. eexists. reflexivity.
Qed.

(** X9.  A follow that succeeds changes the edges by exactly its two
    entries: the outgoing entries afterwards are those of before and
    [{ followingId: followId, date: now1 }] at [userId], the incoming ones
    those of before and [{ followId: userId, date: now2 }] at [followId]. *)
Theorem follow_success_exact (now1 now2 : Date) (userId followId : string)
  (st st' : Store) (code : Z) (body : SuccessResponse unit) :
  followUser now1 now2 userId followId st = (st', Json code body) ->
  (forall u e,
     following_entry st' u e <->
     following_entry st u e
     \/ (u = castObjectId userId
         /\ e = FollowingEntry.mk (castObjectId followId) now1))
  /\ (forall f e,
        follower_entry st' f e <->
        follower_entry st f e
        \/ (f = castObjectId followId
            /\ e = FollowerEntry.mk (castObjectId userId) now2)).
Proof.
  rewrite followUser_steps.
  destruct (negb (isValidObjectId userId) || negb (isValidObjectId followId));
    [discriminate|].
  destruct (String.eqb userId followId); [discriminate|].
  destruct (existsb
              (lacks_following (castObjectId userId)
                 (castObjectId followId)) st) eqn:E1;
    [|discriminate].
  cbv zeta.
  destruct (existsb
              (lacks_follower (castObjectId followId)
                 (castObjectId userId)) _) eqn:E2;
    [|discriminate].
  intros H. injection H as <- _ _. split.
  - intros u e.
    rewrite following_entry_same by reflexivity.
    apply push_followings_entries. exact E1.
  - intros f e.
    rewrite (push_followers_entries _ _ _ _ E2).
    rewrite follower_entry_same by reflexivity. reflexivity.
Qed.

End Guards.

(** ** What an unfollow leaves in place *)

(** A pull removes entries and adds none. *)
Lemma pull_followings_sub (f u : ObjectId) (p : User -> bool) (st : Store)
  (e : FollowingEntry.t) :
  following_entry (update_first p (pull_followings f) st) u e ->
  following_entry st u e.
Proof.
  intros H. apply following_entry_after in H; [|reflexivity].
  destruct H as [H|[x [Hx [_ [Hid He]]]]]; [exact H|].
  simpl in He. apply filter_In in He. exists x. tauto.
Qed.

Lemma pull_followers_sub (u f : ObjectId) (p : User -> bool) (st : Store)
  (e : FollowerEntry.t) :
  follower_entry (update_first p (pull_followers u) st) f e ->
  follower_entry st f e.
Proof.
  intros H. apply follower_entry_after in H; [|reflexivity].
  destruct H as [H|[x [Hx [_ [Hid He]]]]]; [exact H|].
  simpl in He. apply filter_In in He. exists x. tauto.
Qed.

(** The first pull of an unfollow keeps every outgoing entry that is not of
    the edge. *)
Lemma pull_followings_keeps (u f u' : ObjectId) (st : Store)
  (e : FollowingEntry.t) :
  following_entry st u' e ->
  u' <> u \/ FollowingEntry.followingId e <> f ->
  following_entry
    (update_first (holds_following u f) (pull_followings f) st) u' e.
Proof.
  intros [x [Hx [Hid He]]] Hother.
  destruct (update_first_keeps_or_hit (holds_following u f)
              (pull_followings f) st x Hx) as [H|[Hp H]].
  - exists x. auto.
  - exists (pull_followings f x). split; [exact H|]. split; [exact Hid|].
    simpl. apply filter_In. split; [exact He|].
    apply negb_true_iff, N.eqb_neq.
    destruct Hother as [Hu|Hf]; [|exact Hf].
    exfalso. apply Hu. rewrite <- Hid. apply (holds_following_id _ _ _ Hp).
Qed.

Lemma pull_followers_keeps (f u f' : ObjectId) (st : Store)
  (e : FollowerEntry.t) :
  follower_entry st f' e ->
  f' <> f \/ FollowerEntry.followId e <> u ->
  follower_entry
    (update_first (holds_follower f u) (pull_followers u) st) f' e.
Proof.
  intros [x [Hx [Hid He]]] Hother.
  destruct (update_first_keeps_or_hit (holds_follower f u)
              (pull_followers u) st x Hx) as [H|[Hp H]].
  - exists x. auto.
  - exists (pull_followers u x). split; [exact H|]. split; [exact Hid|].
    simpl. apply filter_In. split; [exact He|].
    apply negb_true_iff, N.eqb_neq.
    destruct Hother as [Hu|Hf]; [|exact Hf].
    exfalso. apply Hu. rewrite <- Hid. apply (holds_follower_id _ _ _ Hp).
Qed.

Section UnfollowKeeps.

Context {platform : Mongo}.

(** X10.  Whatever an unfollow replies, it adds no entry, and it keeps
    every entry that is not of the edge from [userId] to [unfollowId]:
    the other followings of [userId], the other followers of
    [unfollowId], and all the entries of every other document. *)
Theorem unfollow_keeps_other_edges (userId unfollowId : string)
  (st : Store) :
  let st' := fst (unfollowUser userId unfollowId st) in
  (forall u e, following_entry st' u e -> following_entry st u e)
  /\ (forall f e, follower_entry st' f e -> follower_entry st f e)
  /\ (forall u e,
        following_entry st u e ->
        u <> castObjectId userId
        \/ FollowingEntry.followingId e <> castObjectId unfollowId ->
        following_entry st' u e)
  /\ (forall f e,
        follower_entry st f e ->
        f <> castObjectId unfollowId
        \/ FollowerEntry.followId e <> castObjectId userId ->
        follower_entry st' f e).
Proof.
  rewrite unfollowUser_steps.
  destruct (negb (isValidObjectId userId)
            || negb (isValidObjectId unfollowId)); [simpl; auto|].
  destruct (String.eqb userId unfollowId); [simpl; auto|].
  destruct (existsb (holds_following (castObjectId userId)
    (castObjectId unfollowId)) st);
    [|simpl; auto].
  cbv zeta.
  destruct (existsb (holds_follower (castObjectId unfollowId)
    (castObjectId userId)) _); simpl.
  - split; [|split; [|split]].
    + intros u e H. rewrite following_entry_same in H by reflexivity.
      revert H. apply pull_followings_sub.
    + intros f e H. apply pull_followers_sub in H.
      rewrite follower_entry_same in H by reflexivity. exact H.
    + intros u e H Hother. rewrite following_entry_same by reflexivity.
      apply pull_followings_keeps; assumption.
    + intros f e H Hother. apply pull_followers_keeps; [|exact Hother].
      rewrite follower_entry_same by reflexivity. exact H.
  - split; [|split; [|split]].
    + intros u e. apply pull_followings_sub.
    + intros f e H. rewrite follower_entry_same in H by reflexivity.
      exact H.
    + intros u e H Hother. apply pull_followings_keeps; assumption.
    + intros f e H _. rewrite follower_entry_same by reflexivity. exact H.
Qed.

(** An unfollow that succeeded leaves a document of each user that lacks
    the edge, so that a follow can write it again. *)
Lemma unfollow_success_refollowable (userId unfollowId : string)
  (st st1 : Store) (code : Z) (body : SuccessResponse unit) :
  unfollowUser userId unfollowId st = (st1, Json code body) ->
  isValidObjectId userId = true
  /\ isValidObjectId unfollowId = true
  /\ userId <> unfollowId
  /\ existsb (lacks_following (castObjectId userId) (castObjectId unfollowId))
      st1 = true
  /\ existsb (lacks_follower (castObjectId unfollowId) (castObjectId userId))
      st1 = true.
Proof.
  rewrite unfollowUser_steps.
  destruct (isValidObjectId userId); [|discriminate].
  destruct (isValidObjectId unfollowId); [|discriminate].
  simpl.
  destruct (String.eqb_spec userId unfollowId) as [|Hne]; [discriminate|].
  destruct (existsb (holds_following (castObjectId userId)
    (castObjectId unfollowId)) st) eqn:E1;
    [|discriminate].
  cbv zeta.
  destruct (existsb (holds_follower (castObjectId unfollowId)
    (castObjectId userId)) _) eqn:E2;
    [|discriminate].
  intros H. injection H as <- _ _.
  repeat split; auto.
  - rewrite update_first_existsb by reflexivity.
    destruct (update_first_hit _ (pull_followings (castObjectId unfollowId)) _
        E1)
      as [x [Hx [Hp Hin]]].
    apply existsb_exists. exists (pull_followings (castObjectId unfollowId) x).
    split; [exact Hin|]. unfold lacks_following.
    rewrite has_following_pull. simpl.
    rewrite (holds_following_id _ _ _ Hp), N.eqb_refl. reflexivity.
  - destruct (update_first_hit _ (pull_followers (castObjectId userId)) _ E2)
      as [x [Hx [Hp Hin]]].
    apply existsb_exists. exists (pull_followers (castObjectId userId) x).
    split; [exact Hin|]. unfold lacks_follower.
    rewrite has_follower_pull. simpl.
    rewrite (holds_follower_id _ _ _ Hp), N.eqb_refl. reflexivity.
Qed.

(** X11.  After an unfollow that succeeded, a follow of the same pair
    succeeds: both conditional pushes find their document. *)
Theorem follow_after_unfollow (now1 now2 : Date) (userId unfollowId : string)
  (st st1 : Store) (code : Z) (body : SuccessResponse unit) :
  unfollowUser userId unfollowId st = (st1, Json code body) ->
  exists st2,
    followUser now1 now2 userId unfollowId st1
    = (st2, Json 200 (getSuccessResponse 200 UPDATE_FOLLOW None))
    /\ following_entry st2 (castObjectId userId)
          (FollowingEntry.mk (castObjectId unfollowId) now1)
    /\ follower_entry st2 (castObjectId unfollowId)
          (FollowerEntry.mk (castObjectId userId) now2).
Proof.
  intros H.
  destruct (unfollow_success_refollowable _ _ _ H)
    as [Hu [Hf [Hne [E1 E2]]]].
  rewrite followUser_steps, (valid_guard _ _ Hu Hf).
  replace (String.eqb userId unfollowId) with false
    by (symmetry; apply String.eqb_neq; exact Hne).
  rewrite E1. cbv zeta.
  assert (E2' : existsb (lacks_follower (castObjectId unfollowId)
      (castObjectId userId))
                  (update_first (lacks_following (castObjectId userId)
                      (castObjectId unfollowId))
                     (push_followings (FollowingEntry.mk
                       (castObjectId unfollowId) now1))
                     st1) = true)
    by (rewrite update_first_existsb by reflexivity; exact E2).
  rewrite E2'. eexists. split; [reflexivity|]. split.
  - apply following_entry_kept; [reflexivity|auto|].
    apply step1_entry. exact E1.
  - apply step2_entry. exact E2'.
Qed.

End UnfollowKeeps.
(** ** The histogram as a whole *)

Lemma sum_add_to_group (key : string) (groups : list (string * nat)) :
  list_sum (map snd (add_to_group key groups))
  = S (list_sum (map snd groups)).
Proof.
  induction groups as [|[k c] rest IH]; simpl; [reflexivity|].
  destruct (String.eqb k key); simpl; [reflexivity|]. rewrite IH. lia.
Qed.

Lemma sum_group_fold (keys : list string) :
  forall groups,
    list_sum
      (map snd (fold_left (fun gs key => add_to_group key gs) keys groups))
    = list_sum (map snd groups) + length keys.
Proof.
  induction keys as [|key keys IH]; intros groups; simpl; [lia|].
  rewrite IH, sum_add_to_group. lia.
Qed.

Lemma sum_sort_insert (g : string * nat) (sorted : list (string * nat)) :
  list_sum (map snd (sort_insert g sorted))
  = snd g + list_sum (map snd sorted).
Proof.
  induction sorted as [|h rest IH]; simpl; [reflexivity|].
  destruct (key_leb g h); simpl; [reflexivity|]. rewrite IH. lia.
Qed.

Lemma sum_sort_by_date (groups : list (string * nat)) :
  list_sum (map snd (sort_by_date groups)) = list_sum (map snd groups).
Proof.
  induction groups as [|g rest IH]; simpl; [reflexivity|].
  rewrite sum_sort_insert, IH. reflexivity.
Qed.

Lemma followers_of_entry (st : Store) (f : ObjectId) (e : FollowerEntry.t) :
  follower_entry st f e <-> In e (followers_of st f).
Proof.
  unfold follower_entry. induction st as [|y rest IH]; cbn [followers_of].
  - split; [intros [x [[] _]]|contradiction].
  - split.
    + intros [x [[->|Hx] [Hid He]]].
      * rewrite Hid, N.eqb_refl. apply in_or_app. left. exact He.
      * assert (Hrest : In e (followers_of rest f))
          by (apply IH; exists x; auto).
        destruct (N.eqb (_id y) f); [apply in_or_app; right|]; exact Hrest.
    + destruct (N.eqb_spec (_id y) f) as [Hid|Hne].
      * intros H. apply in_app_or in H. destruct H as [H|H].
        -- exists y. simpl. auto.
        -- apply IH in H. destruct H as [x [Hx H]]. exists x. simpl. auto.
      * intros H. apply IH in H. destruct H as [x [Hx H]].
        exists x. simpl. auto.
Qed.

Section Histogram.

Context {platform : Mongo}.

(** A follow that succeeded, as its guards and its two writes. *)
Lemma follow_success_store (now1 now2 : Date) (userId followId : string)
  (st st' : Store) (code : Z) (body : SuccessResponse unit) :
  followUser now1 now2 userId followId st = (st', Json code body) ->
  isValidObjectId userId = true
  /\ isValidObjectId followId = true
  /\ userId <> followId
  /\ existsb
       (lacks_following (castObjectId userId) (castObjectId followId)) st
     = true
  /\ existsb (lacks_follower (castObjectId followId) (castObjectId userId))
       (update_first
          (lacks_following (castObjectId userId) (castObjectId followId))
          (push_followings (FollowingEntry.mk (castObjectId followId) now1))
          st)
     = true
  /\ st' = update_first
             (lacks_follower (castObjectId followId) (castObjectId userId))
             (push_followers (FollowerEntry.mk (castObjectId userId) now2))
             (update_first
                (lacks_following (castObjectId userId)
                   (castObjectId followId))
                (push_followings
                   (FollowingEntry.mk (castObjectId followId) now1)) st).
Proof.
  rewrite followUser_steps.
  destruct (isValidObjectId userId); [|discriminate].
  destruct (isValidObjectId followId); [|discriminate].
  simpl.
  destruct (String.eqb_spec userId followId) as [|Hne]; [discriminate|].
  destruct (existsb
              (lacks_following (castObjectId userId)
                 (castObjectId followId)) st) eqn:E1;
    [|discriminate].
  cbv zeta.
  destruct (existsb
              (lacks_follower (castObjectId followId)
                 (castObjectId userId)) _) eqn:E2;
    [|discriminate].
  intros H. injection H as <- _ _.
  split; [reflexivity|]. split; [reflexivity|]. split; [exact Hne|].
  split; [reflexivity|]. split; reflexivity.
Qed.

(** The entries that a follow that succeeded leaves, by its writes. *)
Lemma follow_success_entries (now1 now2 : Date) (userId followId : string)
  (st st' : Store) (code : Z) (body : SuccessResponse unit) :
  followUser now1 now2 userId followId st = (st', Json code body) ->
  following_entry st' (castObjectId userId)
    (FollowingEntry.mk (castObjectId followId) now1)
  /\ follower_entry st' (castObjectId followId)
       (FollowerEntry.mk (castObjectId userId) now2).
Proof.
  intros H. apply follow_success_store in H.
  destruct H as [_ [_ [_ [E1 [E2 ->]]]]]. split.
  - apply following_entry_kept; [reflexivity|auto|].
    apply step1_entry. exact E1.
  - apply step2_entry. exact E2.
Qed.

(** X12.  For a well-formed identifier, the counts of the daily histogram
    add up to the number of follower edges of the user: every edge is
    counted on exactly one day. *)
Theorem daily_counts_total (userId : string) (st : Store) :
  isValidObjectId userId = true ->
  exists dailyCounts,
    getFollowersCountDaily userId st
    = (st,
       Json 200 (getSuccessResponse 200 SHOW_FOLLOWERS (Some dailyCounts)))
    /\ list_sum (map count dailyCounts)
       = length (followers_of st (castObjectId userId)).
Proof.
  intros Hvalid. exists (dailyPipeline userId st). split.
  - rewrite getFollowersCountDaily_steps, Hvalid. reflexivity.
  - unfold dailyPipeline, project_daily, group_count.
    rewrite map_map. simpl.
    change (map (fun g : string * nat => snd g)) with (map (@snd string nat)).
    rewrite sum_sort_by_date, sum_group_fold. simpl.
    rewrite length_map, unwind_match. reflexivity.
Qed.

(** X13.  After a follow that succeeded, the daily histogram of the
    followed user holds the UTC calendar date of the second write, with a
    count of at least one. *)
Theorem daily_counts_after_follow_success (now1 now2 : Date)
  (userId followId : string) (st st' : Store) (code : Z)
  (body : SuccessResponse unit) :
  followUser now1 now2 userId followId st = (st', Json code body) ->
  exists dailyCounts c,
    getFollowersCountDaily followId st'
    = (st',
       Json 200 (getSuccessResponse 200 SHOW_FOLLOWERS (Some dailyCounts)))
    /\ In (mkDaily (utc_date now2) c) dailyCounts
    /\ 1 <= c.
Proof.
  intros H.
  destruct (follow_success_entries _ _ _ _ _ H) as [_ Hin].
  destruct (follow_success_store _ _ _ _ _ H) as [_ [Hf _]].
  exists (dailyPipeline followId st').
  exists (edges_on (utc_date now2)
            (followers_of st' (castObjectId followId))).
  assert (Hc : 1 <= edges_on (utc_date now2)
                      (followers_of st' (castObjectId followId))).
  { apply (edges_on_positive (FollowerEntry.mk (castObjectId userId) now2)).
    apply followers_of_entry. exact Hin. }
  split; [|split; [|exact Hc]].
  - rewrite getFollowersCountDaily_steps, Hf. reflexivity.
  - apply (dailyPipeline_spec followId st'). split; [lia|reflexivity].
Qed.

End Histogram.

(** ** Common followers, listed once *)

Lemma NoDup_map_filter {A B : Type} (g : A -> B) (p : A -> bool)
  (l : list A) :
  NoDup (map g l) -> NoDup (map g (List.filter p l)).
Proof.
  induction l as [|a l IH]; simpl; [auto|].
  intros H. inversion H as [|? ? Ha Hl]; subst.
  destruct (p a); simpl; [|auto].
  constructor; [|auto]. intros Hin. apply Ha.
  apply in_map_iff in Hin. destruct Hin as [b [E Hb]].
  apply filter_In in Hb. rewrite <- E. apply in_map. tauto.
Qed.

Lemma find_id_key (st : Store) (a : ObjectId) (y : User) :
  NoDup (map _id st) -> In y st -> _id y = a ->
  find (fun x => N.eqb (_id x) a) st = Some y.
Proof.
  intros Hnd Hy Hid.
  destruct (find (fun x => N.eqb (_id x) a) st) as [z|] eqn:E.
  - apply find_some in E. destruct E as [Hz Hza].
    apply N.eqb_eq in Hza. f_equal.
    apply (id_key st); auto. congruence.
  - exfalso. pose proof (find_none _ _ E y Hy) as Hn. simpl in Hn.
    rewrite Hid, N.eqb_refl in Hn. discriminate.
Qed.

Section CommonOnce.

Context {platform : Mongo}.

(** X14.  On a collection keyed by [_id], a successful reply of
    [getCommonFollowers] lists no user twice, even when an identifier is
    repeated in a [followers] array. *)
Theorem common_followers_listed_once (userId1 userId2 : string)
  (st st' : Store) (code : Z) (body : SuccessResponse (list UserView)) :
  NoDup (map _id st) ->
  getCommonFollowers userId1 userId2 st = (st', Json code body) ->
  exists details,
    user body = Some details /\ NoDup (map view_id details).
Proof.
  intros Hnd. rewrite getCommonFollowers_steps.
  destruct (negb (isValidObjectId userId1) || negb (isValidObjectId userId2));
    [discriminate|].
  destruct (String.eqb userId1 userId2); [discriminate|].
  destruct (find (fun x => N.eqb (_id x) (castObjectId userId1)) st)
    as [user1|]; [|discriminate].
  destruct (find (fun x => N.eqb (_id x) (castObjectId userId2)) st)
    as [user2|]; [|discriminate].
  intros H. injection H as _ _ <-. eexists. split; [reflexivity|].
  rewrite map_map. simpl. apply NoDup_map_filter. exact Hnd.
Qed.

(** X15.  On a collection keyed by [_id]: when [x] has followed [a] and
    then [b], both with success, [x] is among the common followers of [a]
    and [b]. *)
Theorem common_follower_after_two_follows (now1 now2 now3 now4 : Date)
  (x a b : string) (st st1 st2 : Store) (c1 c2 : Z)
  (b1 b2 : SuccessResponse unit) :
  NoDup (map _id st) ->
  a <> b ->
  followUser now1 now2 x a st = (st1, Json c1 b1) ->
  followUser now3 now4 x b st1 = (st2, Json c2 b2) ->
  exists details name,
    getCommonFollowers a b st2
    = (st2, Json 200 (getSuccessResponse 200 COMMON_FOLLOWERS (Some details)))
    /\ In (mkView (castObjectId x) name) details.
Proof.
  intros Hnd Hab H1 H2.
  destruct (follow_success_store _ _ _ _ _ H1) as [_ [Ha _]].
  destruct (follow_success_store _ _ _ _ _ H2) as [_ [Hb [_ [_ [E2 Hst2]]]]].
  destruct (follow_success_entries _ _ _ _ _ H1) as [_ Hina].
  destruct (follow_success_entries _ _ _ _ _ H2) as [Hx Hinb].
  assert (Hina2 : follower_entry st2 (castObjectId a)
                    (FollowerEntry.mk (castObjectId x) now2)).
  { rewrite Hst2.
    apply (push_followers_entries now4 (castObjectId x) (castObjectId b)
             _ E2). left.
    apply follower_entry_same; [reflexivity|reflexivity|exact Hina]. }
  assert (Hnd2 : NoDup (map _id st2)).
  { rewrite Hst2, !update_first_map by reflexivity.
    apply follow_success_store in H1.
    destruct H1 as [_ [_ [_ [_ [_ ->]]]]].
    rewrite !update_first_map by reflexivity. exact Hnd. }
  destruct Hina2 as [ya [Hya [Hida Hea]]].
  destruct Hinb as [yb [Hyb [Hidb Heb]]].
  destruct Hx as [dx [Hdx [Hidx _]]].
  rewrite getCommonFollowers_steps, (valid_guard _ _ Ha Hb).
  replace (String.eqb a b) with false
    by (symmetry; apply String.eqb_neq; exact Hab).
  rewrite (@find_id_key st2 (castObjectId a) ya Hnd2 Hya Hida).
  rewrite (@find_id_key st2 (castObjectId b) yb Hnd2 Hyb Hidb).
  eexists. exists (username dx). split; [reflexivity|].
  apply in_map_iff. exists dx. split; [rewrite Hidx; reflexivity|].
  apply filter_In. split; [exact Hdx|].
  apply common_member. rewrite Hidx. split.
  - change (castObjectId x)
      with (FollowerEntry.followId (FollowerEntry.mk (castObjectId x) now2)).
    apply in_map. exact Hea.
  - change (castObjectId x)
      with (FollowerEntry.followId (FollowerEntry.mk (castObjectId x) now4)).
    apply in_map. exact Heb.
Qed.

End CommonOnce.

(** ** Creating twice, and listing *)

Lemma is_null_find_plain (p : User -> bool) (st : Store) :
  is_null (find p st) = negb (existsb p st).
Proof.
  induction st as [|x rest IH]; simpl; [reflexivity|].
  destruct (p x); simpl; [reflexivity|exact IH].
Qed.

(** [createUser] as the cascade of its guards and its insertion. *)
Lemma createUser_steps (newId : ObjectId) (name : string) (st : Store) :
  createUser newId name st =
  if utf16_length name <? 3 then (st, Next ERROR_USER_NAME)
  else if existsb (username_is name) st then (st, Next ERROR_EXIST_USER)
  else
    (st ++ [mkUser newId name [] []],
     Json 201 (getSuccessResponse 201 CREATED (Some (mkUser newId name []
         [])))).
Proof.
  unfold createUser, try_catch, bind, throw_if, findOne, create.
  destruct (utf16_length name <? 3); [reflexivity|].
  cbn [ret]. rewrite is_null_find_plain, negb_involutive.
  destruct (existsb (username_is name) st); reflexivity.
Qed.

(** X16.  After a [createUser] that succeeded, a second one with the same
    name is refused with [ERROR_EXIST_USER], whatever identifier the driver
    would have given, and writes nothing. *)
Theorem createUser_twice (newId1 newId2 : ObjectId) (name : string)
  (st st1 : Store) (code : Z) (body : SuccessResponse User) :
  createUser newId1 name st = (st1, Json code body) ->
  createUser newId2 name st1 = (st1, Next ERROR_EXIST_USER).
Proof.
  rewrite !createUser_steps.
  destruct (utf16_length name <? 3); [discriminate|].
  destruct (existsb (username_is name) st); [discriminate|].
  intros H. injection H as <- _ _.
  rewrite existsb_app. simpl. unfold username_is at 2. simpl.
  rewrite String.eqb_refl, orb_true_r. reflexivity.
Qed.

(** X17.  [getAllUsers] lists the documents in the order of the collection,
    each with its identifier and name, its [followersDetails] being exactly
    the views [{ _id, username }] of the documents whose [_id] is in its
    [followers], and its [followingsDetails] those of the documents whose
    [_id] is in its [followings]: an identifier without a document
    contributes nothing. *)
Theorem getAllUsers_details (st : Store) :
  exists users,
    getAllUsers st
    = (st, Json 200 (getSuccessResponse 200 ALL_USER (Some users)))
    /\ Forall2
         (fun x d =>
            details_id d = _id x
            /\ details_username d = username x
            /\ (forall v,
                  In v (followersDetails d) <->
                  exists y, In y st
                            /\ view_id v = _id y
                            /\ view_username v = username y
                            /\ In (_id y) (follower_ids x))
            /\ (forall v,
                  In v (followingsDetails d) <->
                  exists y, In y st
                            /\ view_id v = _id y
                            /\ view_username v = username y
                            /\ In (_id y) (following_ids x)))
         st users.
Proof.
  exists (allUsersPipeline st). split; [reflexivity|].
  unfold allUsersPipeline.
  match goal with
  | |- Forall2 ?R st (map ?details_of st) =>
      enough (Hgen : forall docs, Forall2 R docs (map details_of docs))
        by apply Hgen
  end.
  induction docs as [|x rest IH]; simpl; constructor; [|exact IH].
  simpl. split; [reflexivity|]. split; [reflexivity|].
  split; intros v; unfold lookup_users; rewrite in_map_iff; split.
  - intros [y [Hv Hy]]. apply filter_In in Hy. destruct Hy as [Hy Hin].
    apply existsb_oid_In in Hin. exists y. subst v. simpl. auto.
  - intros [y [Hy [Hi [Hn Hin]]]]. exists y. split.
    + destruct v as [i n]. simpl in Hi, Hn. subst. reflexivity.
    + apply filter_In. split; [exact Hy|]. apply existsb_oid_In. exact Hin.
  - intros [y [Hv Hy]]. apply filter_In in Hy. destruct Hy as [Hy Hin].
    apply existsb_oid_In in Hin. exists y. subst v. simpl. auto.
  - intros [y [Hy [Hi [Hn Hin]]]]. exists y. split.
    + destruct v as [i n]. simpl in Hi, Hn. subst. reflexivity.
    + apply filter_In. split; [exact Hy|]. apply existsb_oid_In. exact Hin.
Qed.

Section ListingAfterFollow.

Context {platform : Mongo}.

(** X18.  After a follow that succeeded, the listing shows the edge on both
    sides: an entry of [userId] lists [followId] among its
    [followingsDetails], and an entry of [followId] lists [userId] among
    its [followersDetails]. *)
Theorem listing_after_follow (now1 now2 : Date) (userId followId : string)
  (st st' : Store) (code : Z) (body : SuccessResponse unit) :
  followUser now1 now2 userId followId st = (st', Json code body) ->
  exists users,
    getAllUsers st'
    = (st', Json 200 (getSuccessResponse 200 ALL_USER (Some users)))
    /\ (exists d v,
          In d users /\ details_id d = castObjectId userId
          /\ In v (followingsDetails d)
          /\ view_id v = castObjectId followId)
    /\ (exists d v,
          In d users /\ details_id d = castObjectId followId
          /\ In v (followersDetails d)
          /\ view_id v = castObjectId userId).
Proof.
  intros H.
  destruct (follow_success_entries _ _ _ _ _ H)
    as [[x [Hx [Hidx Hex]]] [y [Hy [Hidy Hey]]]].
  exists (allUsersPipeline st'). split; [reflexivity|].
  unfold allUsersPipeline. split.
  - eexists. exists (view_of y). split.
    + apply in_map. exact Hx.
    + simpl. split; [exact Hidx|]. split; [|exact Hidy].
      unfold lookup_users. apply in_map. apply filter_In.
      split; [exact Hy|]. apply existsb_oid_In. rewrite Hidy.
      change (castObjectId followId)
        with (FollowingEntry.followingId
                (FollowingEntry.mk (castObjectId followId) now1)).
      apply in_map. exact Hex.
  - eexists. exists (view_of x). split.
    + apply in_map. exact Hy.
    + simpl. split; [exact Hidy|]. split; [|exact Hidx].
      unfold lookup_users. apply in_map. apply filter_In.
      split; [exact Hx|]. apply existsb_oid_In. rewrite Hidx.
      change (castObjectId userId)
        with (FollowerEntry.followId
                (FollowerEntry.mk (castObjectId userId) now2)).
      apply in_map. exact Hey.
Qed.

End ListingAfterFollow.

(** ** Invariants of the collections the controllers build *)

Lemma follower_edge_same (p : User -> bool) (h : User -> User)
  (st : Store) (f u : ObjectId) :
  (forall x, _id (h x) = _id x) ->
  (forall x, followers (h x) = followers x) ->
  follower_edge (update_first p h st) f u <-> follower_edge st f u.
Proof.
  intros Hid Hfs. unfold follower_edge. split; intros [d H]; exists d.
  - rewrite follower_entry_same in H; assumption.
  - rewrite follower_entry_same; assumption.
Qed.

Lemma following_edge_same (p : User -> bool) (h : User -> User)
  (st : Store) (u f : ObjectId) :
  (forall x, _id (h x) = _id x) ->
  (forall x, followings (h x) = followings x) ->
  following_edge (update_first p h st) u f <-> following_edge st u f.
Proof.
  intros Hid Hfs. unfold following_edge. split; intros [d H]; exists d.
  - rewrite following_entry_same in H; assumption.
  - rewrite following_entry_same; assumption.
Qed.

(** A new document without entries adds no edge. *)
Lemma follower_edge_app_empty (st : Store) (newId : ObjectId)
  (name : string) (f u : ObjectId) :
  follower_edge (st ++ [mkUser newId name [] []]) f u -> follower_edge st f u.
Proof.
  intros [d [x [Hx [Hid He]]]]. apply in_app_or in Hx.
  destruct Hx as [Hx|[<-|[]]]; [|destruct He]. exists d, x. auto.
Qed.

Lemma following_edge_app (st tail : Store) (u f : ObjectId) :
  following_edge st u f -> following_edge (st ++ tail) u f.
Proof.
  intros [d [x [Hx H]]]. exists d, x. split; [|exact H].
  apply in_or_app. auto.
Qed.

Section Invariants.

Context {platform : Mongo}.

(** A follow keeps the invariant: the incoming entry is written only after
    the outgoing one. *)
Lemma follow_keeps_mirror (now1 now2 : Date) (u f : string) (st : Store) :
  incoming_has_outgoing st ->
  incoming_has_outgoing (fst (followUser now1 now2 u f st)).
Proof.
  intros Hm. rewrite followUser_steps.
  destruct (negb (isValidObjectId u) || negb (isValidObjectId f));
    [exact Hm|].
  destruct (String.eqb u f); [exact Hm|].
  destruct (existsb (lacks_following (castObjectId u) (castObjectId f)) st)
      eqn:E1; [|exact Hm].
  cbv zeta.
  assert (Hsa : forall f' u',
            follower_edge st f' u' ->
            following_edge
              (update_first (lacks_following (castObjectId u) (castObjectId f))
                 (push_followings (FollowingEntry.mk (castObjectId f) now1))
                     st) u' f').
  { intros f' u' H. destruct (Hm f' u' H) as [d Hd]. exists d.
    apply (push_followings_entries now1 (castObjectId u) (castObjectId f) st
        E1). left. exact Hd. }
  destruct (existsb (lacks_follower (castObjectId f) (castObjectId u)) _)
      eqn:E2; simpl.
  - intros f' u' [d H].
    apply (push_followers_entries now2 (castObjectId u) (castObjectId f) _ E2)
        in H.
    apply following_edge_same; [reflexivity|reflexivity|].
    destruct H as [H|[-> H]].
    + apply Hsa.
      assert (He : follower_edge
                     (update_first (lacks_following (castObjectId u)
                         (castObjectId f))
                        (push_followings (FollowingEntry.mk (castObjectId f)
                            now1)) st)
                     f' u') by (exists d; exact H).
      rewrite follower_edge_same in He by reflexivity. exact He.
    + injection H as -> _. exists now1. apply step1_entry. exact E1.
  - intros f' u' H. apply Hsa.
    rewrite follower_edge_same in H by reflexivity. exact H.
Qed.

(** An unfollow keeps the invariant on a collection keyed by [_id]: when
    its second pull matches nothing, the incoming entry was not there. *)
Lemma unfollow_keeps_mirror (u f : string) (st : Store) :
  NoDup (map _id st) ->
  incoming_has_outgoing st ->
  incoming_has_outgoing (fst (unfollowUser u f st)).
Proof.
  intros Hnd Hm. rewrite unfollowUser_steps.
  destruct (negb (isValidObjectId u) || negb (isValidObjectId f));
    [exact Hm|].
  destruct (String.eqb u f); [exact Hm|].
  destruct (existsb (holds_following (castObjectId u) (castObjectId f)) st)
      eqn:E1; [|exact Hm].
  cbv zeta.
  assert (Hkeep : forall f' u',
            follower_edge st f' u' ->
            u' <> castObjectId u \/ f' <> castObjectId f ->
            following_edge
              (update_first (holds_following (castObjectId u) (castObjectId f))
                (pull_followings (castObjectId f)) st)
              u' f').
  { intros f' u' H Hother. destruct (Hm f' u' H) as [d Hd]. exists d.
    apply pull_followings_keeps; [exact Hd|exact Hother]. }
  destruct (existsb (holds_follower (castObjectId f) (castObjectId u)) _)
      eqn:E2; simpl.
  - intros f' u' H.
    apply following_edge_same; [reflexivity|reflexivity|].
    apply Hkeep.
    + destruct H as [d H]. apply pull_followers_sub in H.
      assert (He : follower_edge
                     (update_first (holds_following (castObjectId u)
                         (castObjectId f))
                        (pull_followings (castObjectId f)) st) f' u')
        by (exists d; exact H).
      rewrite follower_edge_same in He by reflexivity. exact He.
    + destruct (N.eqb_spec u' (castObjectId u)) as [->|Hu]; [|auto].
      destruct (N.eqb_spec f' (castObjectId f)) as [->|Hf]; [|auto].
      exfalso. apply follower_edge_existsb in H.
      rewrite pull_followers_clears in H; [discriminate|].
      rewrite update_first_map by reflexivity. exact Hnd.
  - intros f' u' H.
    rewrite follower_edge_same in H by reflexivity.
    apply Hkeep; [exact H|].
    destruct (N.eqb_spec u' (castObjectId u)) as [->|Hu]; [|auto].
    destruct (N.eqb_spec f' (castObjectId f)) as [->|Hf]; [|auto].
    exfalso. apply follower_edge_existsb in H.
    rewrite update_first_existsb in E2 by reflexivity.
    rewrite H in E2. discriminate.
Qed.

Lemma reachable_mirror (st : Store) :
  reachable st -> incoming_has_outgoing st.
Proof.
  induction 1 as [|newId name st Hr IH Hfresh
                  |now1 now2 u f st Hr IH
                  |u f st Hr IH].
  - intros f u [d [x [[] _]]].
  - rewrite createUser_steps.
    destruct (utf16_length name <? 3); [exact IH|].
    destruct (existsb (username_is name) st); [exact IH|]. simpl.
    intros f u H. apply following_edge_app. apply IH.
    revert H. apply follower_edge_app_empty.
  - apply follow_keeps_mirror. exact IH.
  - apply unfollow_keeps_mirror; [|exact IH].
    apply (reachable_wf Hr).
Qed.

Lemma follow_store_names (now1 now2 : Date) (u f : string) (st : Store) :
  map username (fst (followUser now1 now2 u f st)) = map username st.
Proof.
  rewrite followUser_steps.
  destruct (negb (isValidObjectId u) || negb (isValidObjectId f));
    [reflexivity|].
  destruct (String.eqb u f); [reflexivity|].
  destruct (existsb (lacks_following (castObjectId u) (castObjectId f)) st);
      [|reflexivity]. cbv zeta.
  destruct (existsb (lacks_follower (castObjectId f) (castObjectId u)) _);
      simpl;
    rewrite !update_first_map by reflexivity; reflexivity.
Qed.

Lemma unfollow_store_names (u f : string) (st : Store) :
  map username (fst (unfollowUser u f st)) = map username st.
Proof.
  rewrite unfollowUser_steps.
  destruct (negb (isValidObjectId u) || negb (isValidObjectId f));
    [reflexivity|].
  destruct (String.eqb u f); [reflexivity|].
  destruct (existsb (holds_following (castObjectId u) (castObjectId f)) st);
      [|reflexivity]. cbv zeta.
  destruct (existsb (holds_follower (castObjectId f) (castObjectId u)) _);
      simpl;
    rewrite !update_first_map by reflexivity; reflexivity.
Qed.

Lemma reachable_usernames (st : Store) :
  reachable st -> usernames_ok st.
Proof.
  induction 1 as [|newId name st Hr [Hnd Hlen] Hfresh
                  |now1 now2 u f st Hr [Hnd Hlen]
                  |u f st Hr [Hnd Hlen]].
  - split; [constructor|]. intros x [].
  - rewrite createUser_steps.
    destruct (utf16_length name <? 3) eqn:Elen; [split; assumption|].
    destruct (existsb (username_is name) st) eqn:Ename;
      [split; assumption|].
    simpl. apply Nat.ltb_ge in Elen. split.
    + rewrite map_app. simpl.
      apply NoDup_rev in Hnd. rewrite <- (rev_involutive (_ ++ _)).
      apply NoDup_rev. rewrite rev_app_distr. simpl.
      constructor; [|exact Hnd]. rewrite <- in_rev. intros Hin.
      apply in_map_iff in Hin. destruct Hin as [x [Hx Hin]].
      pose proof (proj1 (existsb_false_forall _ _) Ename x Hin) as Hn.
      unfold username_is in Hn. rewrite Hx, String.eqb_refl in Hn.
      discriminate.
    + intros x Hx. apply in_app_or in Hx.
      destruct Hx as [Hx|[<-|[]]]; [apply Hlen; exact Hx|exact Elen].
  - pose proof (follow_store_names now1 now2 u f st) as Hn.
    split.
    + rewrite Hn. exact Hnd.
    + intros x Hx. apply (in_map username) in Hx. rewrite Hn in Hx.
      apply in_map_iff in Hx. destruct Hx as [y [<- Hy]]. apply Hlen.
      exact Hy.
  - pose proof (unfollow_store_names u f st) as Hn.
    split.
    + rewrite Hn. exact Hnd.
    + intros x Hx. apply (in_map username) in Hx. rewrite Hn in Hx.
      apply in_map_iff in Hx. destruct Hx as [y [<- Hy]]. apply Hlen.
      exact Hy.
Qed.

(** X19.  Every collection that the controllers build from the empty one
    (identifiers fresh at creation) is keyed by [_id], holds at most one
    entry per followee in each document, has distinct names of three
    UTF-16 code units at least, and has the outgoing entry of every
    incoming entry. *)
Theorem reachable_invariants (st : Store) :
  reachable st ->
  NoDup (map _id st)
  /\ edge_unique st
  /\ usernames_ok st
  /\ incoming_has_outgoing st.
Proof.
  intros Hr. destruct (reachable_wf Hr) as [Hnd Hu].
  split; [exact Hnd|]. split; [exact Hu|]. split.
  - apply reachable_usernames. exact Hr.
  - apply reachable_mirror. exact Hr.
Qed.

(** X20.  In a collection that the controllers built, a follow replies
    [ERROR_UPDATE_FOLLOWERS] only when [followId] has no document: the
    entry it leaves in the followings of [userId] then points to a user
    that does not exist. *)
Theorem followers_failure_means_missing (now1 now2 : Date)
  (userId followId : string) (st st' : Store) :
  reachable st ->
  followUser now1 now2 userId followId st
  = (st', Next ERROR_UPDATE_FOLLOWERS) ->
  (forall x, In x st' -> _id x <> castObjectId followId)
  /\ half_edge st' (castObjectId userId) (castObjectId followId).
Proof.
  intros Hr. destruct (reachable_wf Hr) as [Hnd _].
  pose proof (reachable_mirror Hr) as Hm.
  rewrite followUser_steps.
  destruct (negb (isValidObjectId userId) || negb (isValidObjectId followId));
    [discriminate|].
  destruct (String.eqb userId followId); [discriminate|].
  destruct (existsb (lacks_following (castObjectId userId)
    (castObjectId followId)) st) eqn:E1;
    [|discriminate].
  cbv zeta.
  destruct (existsb (lacks_follower (castObjectId followId)
    (castObjectId userId)) _) eqn:E2;
    [discriminate|].
  intros H. injection H as <-.
  rewrite update_first_existsb in E2 by reflexivity.
  assert (Hmissing : forall x, In x st -> _id x <> castObjectId followId).
  { intros y Hy Hidy.
    pose proof (proj1 (existsb_false_forall _ _) E2 y Hy) as Hp.
    unfold lacks_follower in Hp. rewrite Hidy, N.eqb_refl in Hp.
    simpl in Hp. apply negb_false_iff in Hp.
    assert (Hin : follower_edge st (castObjectId followId)
      (castObjectId userId)).
    { apply follower_edge_iff. exists y. auto. }
    apply Hm, following_edge_iff in Hin.
    destruct Hin as [x1 [Hx1 [Hid1 Hf1]]].
    apply lacks_following_exists in E1.
    destruct E1 as [x2 [Hx2 [Hid2 Hf2]]].
    assert (x1 = x2) by (apply (id_key st); auto; congruence).
    subst x2. rewrite Hf1 in Hf2. discriminate. }
  assert (Hmissing' : forall x,
            In x (update_first (lacks_following (castObjectId userId)
                (castObjectId followId))
                    (push_followings (FollowingEntry.mk (castObjectId followId)
                      now1)) st) ->
            _id x <> castObjectId followId).
  { intros x Hx Hid. apply (in_map _id) in Hx.
    rewrite update_first_map in Hx by reflexivity.
    apply in_map_iff in Hx. destruct Hx as [y [Hy Hin]].
    apply (Hmissing y Hin). congruence. }
  split; [exact Hmissing'|]. split.
  - exists now1. apply step1_entry. exact E1.
  - intros [d [x [Hx [Hid _]]]]. exact (Hmissing' x Hx Hid).
Qed.

End Invariants.
(** ** The further properties on the samples *)

(** Both copies of the edge of [doubled_edge] are pulled. *)
Lemma unfollow_success_removes_edge_witness :
  unfollowUser (platform := hexMongo) alice_id bob_id doubled_edge
  = (two_users, Json 200 (getSuccessResponse 200 UPDATE_UNFOLLOW None))
  /\ ~ following_edge two_users alice_oid bob_oid
  /\ ~ follower_edge two_users bob_oid alice_oid.
Proof.
  split; [reflexivity|].
  apply (@unfollow_success_removes_edge hexMongo alice_id bob_id
           doubled_edge two_users 200
           (getSuccessResponse 200 UPDATE_UNFOLLOW None)).
  - repeat constructor; simpl; intuition discriminate.
  - reflexivity.
Defined.

(** No edge to pull in [two_users]; bob without a document in
    [only_alice_step1]. *)
Lemma unfollow_two_step_order_witness :
  unfollowUser (platform := hexMongo) alice_id bob_id two_users
  = (two_users, Next ERROR_UPDATE_UNFOLLOWING)
  /\ unfollowUser (platform := hexMongo) alice_id bob_id only_alice_step1
     = (only_alice, Next ERROR_UPDATE_UNFOLLOWERS)
  /\ map followers only_alice = map followers only_alice_step1
  /\ (NoDup (map _id only_alice_step1) ->
      ~ following_edge only_alice alice_oid bob_oid).
Proof.
  split.
  - apply (@unfollow_two_step_order hexMongo alice_id bob_id two_users);
      [reflexivity|reflexivity|discriminate|].
    intros x [<-|[<-|[]]] _; reflexivity.
  - apply (@unfollow_two_step_order hexMongo alice_id bob_id
             only_alice_step1);
      [reflexivity|reflexivity|discriminate| |].
    + exists (mkUser alice_oid "alice"%string []
                [FollowingEntry.mk bob_oid day0]).
      split; [left; reflexivity|]. split; reflexivity.
    + intros x [<-|[]]. discriminate.
Defined.

(** alice unfollows bob twice in [two_users_followed]. *)
Lemma unfollow_twice_witness :
  unfollowUser (platform := hexMongo) alice_id bob_id two_users_followed
  = (two_users, Json 200 (getSuccessResponse 200 UPDATE_UNFOLLOW None))
  /\ unfollowUser (platform := hexMongo) alice_id bob_id two_users
     = (two_users, Next ERROR_UPDATE_UNFOLLOWING).
Proof.
  split; [reflexivity|].
  apply (@unfollow_twice hexMongo alice_id bob_id two_users_followed
           two_users
           (Json 200 (getSuccessResponse 200 UPDATE_UNFOLLOW None)));
    [reflexivity|reflexivity|discriminate| |reflexivity].
  repeat constructor; simpl; intuition discriminate.
Defined.

(** The string of the tests that is no identifier. *)
Lemma malformed_identifier_refused_witness :
  followUser (platform := hexMongo) day0 day1 "invalidId" bob_id two_users
  = (two_users, Next ERROR_VALID_ID)
  /\ followUser (platform := hexMongo) day0 day1 bob_id "invalidId" two_users
     = (two_users, Next ERROR_VALID_ID)
  /\ unfollowUser (platform := hexMongo) "invalidId" bob_id two_users
     = (two_users, Next ERROR_VALID_ID)
  /\ unfollowUser (platform := hexMongo) bob_id "invalidId" two_users
     = (two_users, Next ERROR_VALID_ID)
  /\ getCommonFollowers (platform := hexMongo) "invalidId" bob_id two_users
     = (two_users, Next ERROR_VALID_ID)
  /\ getCommonFollowers (platform := hexMongo) bob_id "invalidId" two_users
     = (two_users, Next ERROR_VALID_ID)
  /\ getFollowersCountDaily (platform := hexMongo) "invalidId" two_users
     = (two_users, Next ERROR_VALID_ID).
Proof.
  apply (@malformed_identifier_refused hexMongo "invalidId" bob_id
           day0 day1 two_users).
  reflexivity.
Defined.

(** alice follows bob in [two_users]: two entries more, no other change. *)
Lemma follow_success_exact_witness :
  (forall u e,
     following_entry two_users_followed u e <->
     following_entry two_users u e
     \/ (u = alice_oid /\ e = FollowingEntry.mk bob_oid day0))
  /\ (forall f e,
        follower_entry two_users_followed f e <->
        follower_entry two_users f e
        \/ (f = bob_oid /\ e = FollowerEntry.mk alice_oid day1)).
Proof.
  apply (@follow_success_exact hexMongo day0 day1 alice_id bob_id
           two_users two_users_followed 200
           (getSuccessResponse 200 UPDATE_FOLLOW None)).
  reflexivity.
Defined.

(** alice unfollows bob in [two_users_followed], then follows again. *)
Lemma follow_after_unfollow_witness :
  exists st2,
    followUser (platform := hexMongo) day1 day2 alice_id bob_id two_users
    = (st2, Json 200 (getSuccessResponse 200 UPDATE_FOLLOW None))
    /\ following_entry st2 alice_oid (FollowingEntry.mk bob_oid day1)
    /\ follower_entry st2 bob_oid (FollowerEntry.mk alice_oid day2).
Proof.
  apply (@follow_after_unfollow hexMongo day1 day2 alice_id bob_id
           two_users_followed two_users 200
           (getSuccessResponse 200 UPDATE_UNFOLLOW None)).
  reflexivity.
Defined.

(** bob of [four_users] has three follower edges. *)
Lemma daily_counts_total_witness :
  exists dailyCounts,
    getFollowersCountDaily (platform := hexMongo) bob_id four_users
    = (four_users,
       Json 200 (getSuccessResponse 200 SHOW_FOLLOWERS (Some dailyCounts)))
    /\ list_sum (map count dailyCounts)
       = length (followers_of four_users bob_oid).
Proof.
  apply (@daily_counts_total hexMongo bob_id four_users). reflexivity.
Defined.

(** alice follows bob in [two_users], the second write on [day1]. *)
Lemma daily_counts_after_follow_success_witness :
  exists dailyCounts c,
    getFollowersCountDaily (platform := hexMongo) bob_id two_users_followed
    = (two_users_followed,
       Json 200 (getSuccessResponse 200 SHOW_FOLLOWERS (Some dailyCounts)))
    /\ In (mkDaily (utc_date day1) c) dailyCounts
    /\ 1 <= c.
Proof.
  apply (@daily_counts_after_follow_success hexMongo day0 day1
           alice_id bob_id two_users two_users_followed 200
           (getSuccessResponse 200 UPDATE_FOLLOW None)).
  reflexivity.
Defined.

(** alice and bob of [four_users]. *)
Lemma common_followers_listed_once_witness :
  exists details,
    Some [mkView carol_oid "carol"; mkView dave_oid "dave"] = Some details
    /\ NoDup (map view_id details).
Proof.
  apply (@common_followers_listed_once hexMongo alice_id bob_id
           four_users four_users 200
           (getSuccessResponse 200 COMMON_FOLLOWERS
              (Some [mkView carol_oid "carol"; mkView dave_oid "dave"]))).
  - repeat constructor; simpl; intuition discriminate.
  - reflexivity.
Defined.

(** carol follows alice, then bob, in [three_users]. *)
Lemma common_follower_after_two_follows_witness :
  exists details name,
    getCommonFollowers (platform := hexMongo) alice_id bob_id
      three_users_followed
    = (three_users_followed,
       Json 200 (getSuccessResponse 200 COMMON_FOLLOWERS (Some details)))
    /\ In (mkView carol_oid name) details.
Proof.
  apply (@common_follower_after_two_follows hexMongo day0 day0 day1 day1
           carol_id alice_id bob_id three_users
           (fst (followUser (platform := hexMongo) day0 day0
                   carol_id alice_id three_users))
           three_users_followed 200 200
           (getSuccessResponse 200 UPDATE_FOLLOW None)
           (getSuccessResponse 200 UPDATE_FOLLOW None)).
  - repeat constructor; simpl; intuition discriminate.
  - discriminate.
  - reflexivity.
  - reflexivity.
Defined.

(** carol is created in [two_users], and once only. *)
Lemma createUser_twice_witness :
  createUser dave_oid "carol"
    (two_users ++ [mkUser carol_oid "carol"%string [] []])
  = (two_users ++ [mkUser carol_oid "carol"%string [] []],
     Next ERROR_EXIST_USER).
Proof.
  apply (@createUser_twice carol_oid dave_oid "carol" two_users
           (two_users ++ [mkUser carol_oid "carol"%string [] []]) 201
           (getSuccessResponse 201 CREATED
              (Some (mkUser carol_oid "carol"%string [] [])))).
  reflexivity.
Defined.

(** alice follows bob in [two_users], and the listing shows it. *)
Lemma listing_after_follow_witness :
  exists users,
    getAllUsers two_users_followed
    = (two_users_followed,
       Json 200 (getSuccessResponse 200 ALL_USER (Some users)))
    /\ (exists d v,
          In d users /\ details_id d = alice_oid
          /\ In v (followingsDetails d) /\ view_id v = bob_oid)
    /\ (exists d v,
          In d users /\ details_id d = bob_oid
          /\ In v (followersDetails d) /\ view_id v = alice_oid).
Proof.
  apply (@listing_after_follow hexMongo day0 day1 alice_id bob_id
           two_users two_users_followed 200
           (getSuccessResponse 200 UPDATE_FOLLOW None)).
  reflexivity.
Defined.

(** [two_users_followed] is built by two creations and a follow. *)
Lemma two_users_followed_reachable :
  reachable (platform := hexMongo) two_users_followed.
Proof.
  change two_users_followed
    with (fst (followUser (platform := hexMongo) day0 day1 alice_id bob_id
                 (fst (createUser bob_oid "bob"
                         (fst (createUser alice_oid "alice" []))))) ).
  apply reach_follow. apply reach_create.
  - apply reach_create; [apply reach_empty|]. simpl. tauto.
  - simpl. intros [H|[]]. discriminate.
Qed.

(** [only_alice] is built by one creation. *)
Lemma only_alice_reachable : reachable (platform := hexMongo) only_alice.
Proof.
  change only_alice with (fst (createUser alice_oid "alice" [])).
  apply reach_create; [apply reach_empty|]. simpl. tauto.
Qed.

Lemma reachable_invariants_witness :
  NoDup (map _id two_users_followed)
  /\ edge_unique two_users_followed
  /\ usernames_ok two_users_followed
  /\ incoming_has_outgoing two_users_followed.
Proof.
  apply (@reachable_invariants hexMongo two_users_followed).
  exact two_users_followed_reachable.
Defined.

(** alice follows bob, who has no document, in [only_alice]. *)
Lemma followers_failure_means_missing_witness :
  followUser (platform := hexMongo) day0 day1 alice_id bob_id only_alice
  = (only_alice_step1, Next ERROR_UPDATE_FOLLOWERS)
  /\ (forall x, In x only_alice_step1 -> _id x <> bob_oid)
  /\ half_edge only_alice_step1 alice_oid bob_oid.
Proof.
  split; [reflexivity|].
  apply (@followers_failure_means_missing hexMongo day0 day1 alice_id bob_id
           only_alice only_alice_step1).
  - exact only_alice_reachable.
  - reflexivity.
Defined.

(** An unfollow through the other spelling of an identifier pulls the same
    edge. *)
Example unfollow_other_spelling :
  unfollowUser (platform := hexMongo) alice_id_upper bob_id
    two_users_followed
  = (two_users, Json 200 (getSuccessResponse 200 UPDATE_UNFOLLOW None)).
Proof. reflexivity. Qed.

(** ** Identifiers and their spellings *)

Section Spellings.

Context {platform : Mongo}.

(** X21.  The controllers address the documents by the ObjectId that an
    identifier casts to, not by its spelling: two pairs of well-formed
    identifiers that cast to the same ObjectIds, and that pass or fail the
    comparison [userId === followId] alike, get the same reply and leave
    the same collection, in each of the four controllers that take
    identifiers. *)
Theorem spelling_irrelevant (now1 now2 : Date) (u u' f f' : string)
  (st : Store) :
  isValidObjectId u = true ->
  isValidObjectId u' = true ->
  isValidObjectId f = true ->
  isValidObjectId f' = true ->
  castObjectId u = castObjectId u' ->
  castObjectId f = castObjectId f' ->
  String.eqb u f = String.eqb u' f' ->
  followUser now1 now2 u f st = followUser now1 now2 u' f' st
  /\ unfollowUser u f st = unfollowUser u' f' st
  /\ getCommonFollowers u f st = getCommonFollowers u' f' st
  /\ getFollowersCountDaily u st = getFollowersCountDaily u' st.
Proof.
  intros Hu Hu' Hf Hf' Eu Ef Esame.
  rewrite !followUser_steps, !unfollowUser_steps, !getCommonFollowers_steps,
    !getFollowersCountDaily_steps.
  unfold dailyPipeline.
  rewrite Hu, Hu', Hf, Hf', Eu, Ef, Esame.
  repeat split; reflexivity.
Qed.

End Spellings.

(** alice, in lower and in upper case, and bob. *)
Lemma spelling_irrelevant_witness :
  followUser (platform := hexMongo) day0 day1 alice_id bob_id two_users
  = followUser (platform := hexMongo) day0 day1 alice_id_upper bob_id
      two_users
  /\ unfollowUser (platform := hexMongo) alice_id bob_id two_users
     = unfollowUser (platform := hexMongo) alice_id_upper bob_id two_users
  /\ getCommonFollowers (platform := hexMongo) alice_id bob_id two_users
     = getCommonFollowers (platform := hexMongo) alice_id_upper bob_id
         two_users
  /\ getFollowersCountDaily (platform := hexMongo) alice_id two_users
     = getFollowersCountDaily (platform := hexMongo) alice_id_upper
         two_users.
Proof.
  apply (@spelling_irrelevant hexMongo day0 day1 alice_id alice_id_upper
           bob_id bob_id two_users); reflexivity.
Defined.
